(* ===== verification/_CoqProject ===== *)
-Q . S2P
Prelude.v
Json.v
JsonCodec.v
JsonAscii.v
Capacity.v
Store.v
Gateway.v
Transfer.v
TransferSpec.v
TransferProps.v
TransferStatus.v
Admin.v
Receipt.v
TransferBody.v
OrderBody.v
Server.v
Schema.v
Bounds.v
Interleave.v
InterleaveStock.v
Liveness.v
Faults.v
