(* ===== verification/Prelude.v ===== *)
(** * A verification development of the wms-chlo warehouse backend

    The program, [src/server.py], is a Flask application.  Each handler turns
    one HTTP request into a few parameterised SQLite statements.  It issues
    them one by one through [execute_query], which opens a connection per
    call and commits on exit, so no transaction spans two statements.

    ** Parts of the program and where they are modelled

    - [Prelude.v] (this file): the scope [wms_scope], the tactics [zbool]
      and [case_if], the hint databases [wms] and [wms_rw], the 64-bit range
      of SQLite integers ([in_int64]), the closure [star] of a step
      relation with its rule-induction lemma [star_invariant], and
      [eventually P] (every path of a step relation reaches [P]) with
      [eventually_of_acc], liveness from termination and progress.
    - [Json.v]: JSON values of request and response bodies, and [str] of a
      Python [int] as used in the f-string messages.
    - [JsonCodec.v]: [json.loads], which [product_receipt_detail] applies
      to the stored items (line 61), modelled from CPython's C scanner
      ([_json.c]), and [json.dumps], the writer of that column (outside
      [src/]).  The decoder is a fuel-driven recursive-descent parser;
      fuel [2 * length + 1] always suffices and more fuel never changes
      the answer ([json_loads_fuel_enough]).  The writer is a Section over
      the escaper of strings, and the round trip [dumps_roundtrip] is
      proved once for any escaper whose output the scanner reads back;
      [json_roundtrip] instantiates it for [ensure_ascii=False].
    - [JsonAscii.v]: [json.dumps] with its default [ensure_ascii=True]
      ([c_encode_basestring_ascii]): the bytes are read as UTF-8
      ([utf8_next]), every code point outside printable ASCII is written
      [\uXXXX], one above [0xFFFF] as a surrogate pair, and
      [json_roundtrip_ascii] reads back every value whose strings are
      well-formed UTF-8.
    - [Capacity.v]: lines 186-193 of [product_transfer], the status
      [GOOD_CAPACITY]/[LOW_CAPACITY].  [new_status] computes
      [(q / m) * 100 > t] with the kernel's binary64 floats, as Python
      does; [None] is the [ZeroDivisionError] of [m = 0].
    - [Store.v]: the database as a record of stdpp [gmap]s.
      [Inventory] and [WarehouseCapacity] are keyed by (warehouse, product),
      their unique key.  [query] has one constructor per statement text of
      [server.py]; [exec] gives each statement's rows and its effect.  The
      view statements of [commands/views] lie outside [src/] and are
      modelled from the specification.
    - [Gateway.v]: [execute_query].  A handler is a finite program tree
      [prog]: [Call q k h] sends statement [q], continues with [k] on its
      rows, or with [h] (the enclosing [except]) when it raises
      [sqlite3.Error].  [run] executes a tree without faults; [run_sched]
      executes it with a fault schedule.  Binding an integer outside 64 bits
      raises [OverflowError], which no handler catches.  Two trees are
      equivalent ([≡], an stdpp [Equiv] with its [Equivalence] and
      [Proper] instances) when they answer alike and leave the same store
      under every fault schedule.
    - [Transfer.v]: [product_transfer] (lines 111-216) as a program tree:
      [product_transfer], [transfer_loop] (the loop over items, which
      reads the source row), [transfer_checked] (the part of one item
      after that read: the stock check, the two quantity statements and
      the names) and [update_statuses] (the status loop), with every
      response of the code.
    - [TransferSpec.v]: an abstract specification [transfer_spec], a pure
      function of the store, and the refinement theorem
      [transfer_refines_spec]: the handler computes it, for every request
      and store.
    - [TransferProps.v]: theorems on the handler, proved on the
      specification: conservation of stock, non-negative quantities,
      success and validation-error responses, no rollback of earlier items,
      overflow, a zero capacity, and the empty item list.  A request is a
      sequence of [transfer_step]s, and the invariants are proved by rule
      induction on it.
    - [TransferStatus.v]: the statuses after a transfer.  [status_current]
      says a row carries the status [new_status] gives its quantity, and
      [row_at] is the pair of rows (inventory and capacity) at a key.
    - [Faults.v]: a store fault between the two quantity statements loses
      stock, and under any fault schedule that is the whole loss: nothing
      or the quantity of one item.  It comes after [InterleaveStock.v],
      whose ledger it reuses with the fault semantics [run_sched].
    - [Interleave.v]: handlers in flight interleaved statement by statement
      ([step] on a list of program trees sharing one store, and the
      executable scheduler [interleave], which reaches exactly the
      configurations [step] reaches).  A thread that runs alone to
      its end computes what [run] computes ([thread_runs]).  The Section
      [Race] splits a one-item transfer at its read of the source row
      ([after_reads] is [transfer_checked] on the stock read), so that two
      transfers can both read before either writes.  It comes after
      [Server.v] in the build because it reuses its table lemmas.
    - [InterleaveStock.v]: stock under interleaving.  A ledger ([owes])
      records, for each thread in flight, the units it has taken from a
      source ([UPDATE], lines 160-164) and not yet given to the destination
      (the upsert, lines 167-173), valid while the rows and warehouses it
      has read ([fact]) exist; no statement deletes one.  The stock plus
      the debts is invariant along [Interleave.step] ([balanced]).  A
      store fault sends a thread to its [except] branch, which answers at
      once: the ledger also bounds the debt written off there.  [extends]
      is what every statement keeps: the reference tables, the inventory
      rows, the purchase orders.
    - [Admin.v]: [warehouse_home_display], [warehouse_products],
      [warehouse_fill_capacity] and [create_purchase_order]: the read views
      never change the store, their responses, and the purchase-order
      insert with its fresh id.
    - [Receipt.v]: [product_receipt_detail] (lines 49-63): its 400 and 404
      answers, the decoding of [items] with its two uncaught exceptions
      ([JSONDecodeError], [TypeError]), and the end-to-end round trip of a
      receipt written by [json.dumps].
    - [TransferBody.v]: [product_transfer] again, on the decoded body
      [data = request.get_json()] rather than a typed record: [in]
      ([py_contains], [py_all_in]), subscripts ([py_getitem]), [==] on
      the ids ([py_eq_id]), iteration ([py_iter]), [str] of the ids in the
      dict of names ([names_lookup]).  An id reaches SQLite as the integer
      it compares as ([wid_of]: an [int], a [bool], a [float] with an exact
      integral value, a decimal text); a body the model does not cover is
      [None].
    - [OrderBody.v]: [create_purchase_order] on the decoded body:
      [data.get] ([py_get], [AttributeError] on a body that is no dict),
      Python's truthiness of [not x] ([py_falsy]) and the supplier id
      bound as [wid_of] binds it; on integer fields it is the typed
      handler ([create_purchase_order_body_int]).
    - [Server.v]: the six routes as one [endpoint] type, [handler] the
      dispatch of the [@app.route] decorators, and histories: requests
      served one after the other ([server_step], [serve_all]).  Their
      invariants are proved by rule induction over [star server_step].
      [spec_codes] is the table of status codes of the specification;
      [responds R t] says every response of a tree on any branch satisfies
      [R], and [codes_in] is its instance for status codes.
    - [Schema.v]: the shapes of the bodies (sections 6 and 7 of the
      specification) as a small type system for JSON ([jty], [has_type])
      and the table [response_types] of each endpoint and code.
    - [Liveness.v]: every request in flight is eventually answered, on
      every interleaving.
    - [Bounds.v]: the quantity statements stay within SQLite's 64-bit
      integers in sequential histories ([stock_fits]).

    ** Theorems, by group

    - Refinement: [TransferSpec.transfer_refines_spec].
    - Types: [Schema.handler_responses_typed]: under any fault schedule,
      every response body has a type of the specification's table for its
      endpoint and code, and every error body is an object whose first key
      is [error].
    - Invariants: [TransferProps.transfer_conserves_stock] and
      [TransferProps.transfer_preserves_nonneg] hold for sequential runs;
      [Admin.read_views_preserve_store];
      [TransferStatus.transfer_statuses_current] (every requested row is
      current after a success) and
      [TransferStatus.transfer_touches_named_rows_only] (whatever the
      outcome, no other row changes).
    - Invariants of histories: [Server.server_history_integrity]
      (non-negative quantities, inventory rows attached to existing
      warehouses and products), [Server.server_history_stock] (no history
      creates or destroys stock) and [Server.server_history_statuses]
      (statuses stay current when no capacity is zero;
      [statuses_need_nonzero_capacities] shows the hypothesis is needed).
    - Functional behaviour and error paths: [TransferProps.transfer_success_quantities],
      [transfer_one_item], [transfer_validation_errors],
      [transfer_no_rollback], [transfer_zero_capacity_crash],
      [transfer_product_id_overflow], [transfer_empty_items_succeeds];
      [Admin.warehouse_products_responses], [warehouse_products_decimal_id]
      (a decimal id [str(w)] finds warehouse [w] within 64 bits),
      [create_purchase_order_inserts]
      and [create_purchase_order_errors];
      [Receipt.product_receipt_detail_responses];
      [Server.handlers_answer_spec_codes] (under any fault schedule, every
      response carries a code the specification lists for its endpoint).
    - Round trips: [JsonCodec.json_roundtrip],
      [JsonAscii.json_roundtrip_ascii] and [Receipt.receipt_items_roundtrip]
      (a receipt written by either writer is read back).
    - Machine integers: [Bounds.transfer_arithmetic_int64] (from a store
      whose stock of every product fits in 64 bits, every item computes
      [quantity - qn] and [quantity + qn] within 64 bits, as each quantity
      is at most the conserved stock); [TransferProps.transfer_product_id_overflow].
    - Floats: [Capacity.new_status_boundary_example],
      [new_status_rounding_misclassifies] (exactly five rows are
      misclassified at capacity 100) and [new_status_bounded_agreement]
      (every capacity 1..100 is checked exhaustively by evaluation).
    - Safety under faults and concurrency:
      [Faults.transfer_fault_loses_stock] (a fault on the upsert loses the
      item) and [Faults.transfer_fault_loss_bounded] (any fault schedule
      loses nothing or one item's quantity, never creates stock);
      [Interleave.transfer_race_negative_stock]: for every store, product
      and pair of warehouses, two transfers of [a] and [b] units, each
      within the stock [q] of the source, can both succeed and leave the
      source with [q - a - b] units, negative when [a + b > q]; yet
      [InterleaveStock.interleaved_requests_conserve_stock]: once every
      handler of any interleaving has answered, the stock of every product
      is what it was; and [Interleave.transfer_race_stale_status]: the
      statuses, current after every sequential history, can be stale once
      two interleaved transfers have answered.
    - Frame under interleaving: [InterleaveStock.interleaving_keeps_tables]
      (reference tables unchanged, no inventory row or purchase order
      lost, concurrent orders never share an id).
    - Equivalence: [Interleave.interleave_complete] (the executable
      scheduler and the step relation reach the same configurations);
      [TransferBody.transfer_body_int] (on integer bodies, the handler on
      the decoded body is equivalent to the typed one).
    - Request bodies: [TransferBody.transfer_body_noncanonical_id] (an id
      whose [str] is not the decimal text of its integer, [1.0], [true] or
      ["01"], moves the stock of the first item and then raises [KeyError])
      and [TransferBody.transfer_body_type_errors] (bodies of the wrong
      JSON types: 400 or an escaping [TypeError] before any write, and
      an empty dict or string of items succeeds).
    - Termination: [Interleave.requests_in_flight_terminate]: every
      interleaving of requests in flight is finite (each statement moves
      its thread to a strictly smaller program, [prog_lt], and the order
      lifted to thread lists, [threads_lt], is well founded), and it stops
      only when every handler has answered.
    - Liveness: [Liveness.requests_eventually_answered]: on every
      interleaving, every request in flight is answered, with a code the
      specification lists for its endpoint or an escaping exception.

    ** Bounds and what they cover

    The float model converts integers exactly when their magnitude is at
    most [2^53].  Python's [int / int] is the correctly rounded quotient,
    which equals the binary64 division of the exact conversions in that
    range.  The exhaustive check of [new_status] covers capacities 1..100
    and thresholds 0..100, the range of a percentage.  Quantities are
    unbounded integers in the store; the gateway checks that every bound
    parameter is a 64-bit integer, as [sqlite3] does.  No fuel is used: the
    program trees are finite and [run] is structural.  The JSON decoder
    alone runs on fuel, [2 * length s + 1] for a text [s]: every element or
    member of an array or object consumes at least one character and one
    unit of fuel, and a nested value one more.

    ** Not modelled

    - Of [json.loads]: the limit of 4300 digits on an integer (a
      [ValueError]) and the recursion limit on nesting; floats are kept as
      their text, whose binary64 value is not computed.  The column list
      of the receipt view is outside [src/]; a receipt row is a list of
      named columns.
    - Request values of other JSON types than those [TransferBody] covers:
      a warehouse id that is a fraction, [null], a list, a dict or a text
      that is no decimal integer (SQLite's comparison of such values is
      not modelled), a product id that is not an [int], a quantity that is
      a [bool] or a [float] (it would make the stored quantity a REAL).
      Of the purchase-order body: a [float] amount (stored as a REAL, which
      the order rows do not hold) and a supplier id the transfer's ids do
      not cover either.
    - SQLite's conversion of a query-string parameter is modelled only for
      decimal integers with an optional sign ([Store.text_key]).
    - Flask's URL matching and its own 404 and 405 answers, the 400 and
      415 answers of [request.get_json()] to a body that is no JSON, the
      serialisation by [jsonify] (Flask's JSON provider, outside [src/]:
      key order, indentation in debug mode), and [app.run].
    - The id column of [Inventory] returned by the upsert; the handler never
      reads it.

    ** Plan for later sittings

    + [jsonify]'s text (Flask's JSON provider) with its round trip to a
      client, and a [float] purchase-order amount.
    + A fixed transfer as one transaction, and a refinement showing that it
      is atomic under faults and serialisable under interleaving. *)

From stdpp Require Export base gmap strings list list_numbers pretty.
From Stdlib Require Export ZArith Lia.

Declare Scope wms_scope.
Delimit Scope wms_scope with wms.
Open Scope Z_scope.

Create HintDb wms discriminated.
Create Rewrite HintDb wms_rw.

(** ** 64-bit integers of SQLite *)

Definition INT64_MIN : Z := - 2 ^ 63.
Definition INT64_MAX : Z := 2 ^ 63 - 1.

(** [in_int64 z] holds when [z] is a value SQLite can store as an INTEGER
    and that Python's [sqlite3] module can bind as a parameter. *)
Definition in_int64 (z : Z) : bool := (INT64_MIN <=? z) && (z <=? INT64_MAX).

Notation "'int64' z" := (in_int64 z = true) (at level 10) : wms_scope.

(** ** Tactics *)

(** [zbool] turns the boolean tests of the code on integers, found in the
    hypotheses and the goal, into the propositions they decide. *)
Ltac zbool :=
  repeat match goal with
  | H : (_ =? _) = true |- _ => apply Z.eqb_eq in H
  | H : (_ =? _) = false |- _ => apply Z.eqb_neq in H
  | H : (_ <? _) = true |- _ => apply Z.ltb_lt in H
  | H : (_ <? _) = false |- _ => apply Z.ltb_ge in H
  | H : (_ <=? _) = true |- _ => apply Z.leb_le in H
  | H : (_ <=? _) = false |- _ => apply Z.leb_gt in H
  | H : (_ && _) = true |- _ => apply andb_prop in H as [? ?]
  end.

(** [zbool_lia] proves a goal made of boolean tests on integers (or their
    propositions) from such tests in the hypotheses. *)
Ltac zbool_lia :=
  zbool;
  rewrite ?andb_true_iff, ?andb_false_iff, ?negb_true_iff, ?negb_false_iff,
    ?Z.leb_le, ?Z.leb_gt, ?Z.ltb_lt, ?Z.ltb_ge, ?Z.eqb_eq, ?Z.eqb_neq in *;
  lia.

(** [zdiv_lia]: [lia] after naming the quotients and remainders by
    constants. *)
Ltac zdiv_lia := Z.div_mod_to_equations; lia.

(** [case_if] splits on the first [if] of the goal, keeping its equation. *)
Ltac case_if :=
  match goal with
  | |- context [if ?b then _ else _] =>
      let E := fresh "Eif" in destruct b eqn:E; zbool
  end.

(** ** Generic lemmas *)

Lemma in_int64_iff z : in_int64 z = true <-> INT64_MIN <= z <= INT64_MAX.
Proof. unfold in_int64. rewrite andb_true_iff, !Z.leb_le. tauto. Qed.

Lemma in_int64_intro z : INT64_MIN <= z <= INT64_MAX -> in_int64 z = true.
Proof. apply in_int64_iff. Qed.

Lemma in_int64_nonneg z : 0 <= z <= INT64_MAX -> in_int64 z = true.
Proof. intros. apply in_int64_intro. unfold INT64_MIN. lia. Qed.

#[export] Hint Resolve in_int64_intro in_int64_nonneg : wms.

(** Sum of a function over a list. *)
Definition sum_with {A} (f : A -> Z) (l : list A) : Z :=
  fold_right (fun x acc => f x + acc) 0 l.

Lemma sum_with_app {A} (f : A -> Z) l1 l2 :
  sum_with f (l1 ++ l2) = sum_with f l1 + sum_with f l2.
Proof. induction l1 as [|x l1 IH]; simpl; [done|]. rewrite IH. lia. Qed.

Lemma sum_with_nonneg {A} (f : A -> Z) l :
  Forall (fun x => 0 <= f x) l -> 0 <= sum_with f l.
Proof. induction 1; simpl; lia. Qed.

Lemma sum_with_ext {A} (f g : A -> Z) l :
  (forall x, x ∈ l -> f x = g x) -> sum_with f l = sum_with g l.
Proof.
  induction l as [|x l IH]; intros H; simpl; [done|].
  rewrite H by (by left). rewrite IH; [done|]. intros y Hy. apply H. by right.
Qed.

(** [sum_with] respects pointwise equality, so [setoid_rewrite] rewrites
    under the summed function. *)
#[export] Instance sum_with_proper {A} :
  Proper (pointwise_relation A eq ==> eq ==> eq) (@sum_with A).
Proof. intros f g Hfg l ? <-. apply sum_with_ext. intros x _. apply Hfg. Qed.

Lemma sum_with_plus {A} (f g : A -> Z) l :
  sum_with (fun x => f x + g x) l = sum_with f l + sum_with g l.
Proof. induction l as [|x l IH]; simpl; [done|]. rewrite IH. lia. Qed.

Lemma sum_with_minus {A} (f g : A -> Z) l :
  sum_with (fun x => f x - g x) l = sum_with f l - sum_with g l.
Proof. induction l as [|x l IH]; simpl; [done|]. rewrite IH. lia. Qed.

(** A quantity at one point of a list without duplicates sums to itself. *)
Lemma sum_with_point {A} `{EqDecision A} (l : list A) a q :
  NoDup l -> a ∈ l -> sum_with (fun x => if decide (x = a) then q else 0) l = q.
Proof.
  induction l as [|x l IH]; intros Hnd Ha; [set_solver|]. simpl.
  apply NoDup_cons in Hnd as [Hx Hnd]. apply elem_of_cons in Ha as [->|Ha].
  - rewrite decide_True by done.
    rewrite (sum_with_ext _ (fun _ => 0)); [|intros y Hy; rewrite decide_False by set_solver; done].
    clear. induction l; simpl; lia.
  - rewrite decide_False by set_solver. rewrite IH by done. lia.
Qed.

(** Replacing one element of a list changes its sum by the difference. *)
Lemma sum_with_insert {A} (f : A -> Z) l i x y :
  l !! i = Some x -> sum_with f (<[i := y]> l) = sum_with f l - f x + f y.
Proof.
  revert i. induction l as [|z l IH]; intros [|i] Hi; simplify_eq/=; [lia|].
  rewrite (IH i Hi). lia.
Qed.

(** A term of a sum of non-negative terms is at most the sum. *)
Lemma sum_with_elem_le {A} (f : A -> Z) l a :
  (forall x, x ∈ l -> 0 <= f x) -> a ∈ l -> f a <= sum_with f l.
Proof.
  induction l as [|x l IH]; intros Hpos Ha; [by apply not_elem_of_nil in Ha|].
  change (sum_with f (x :: l)) with (f x + sum_with f l).
  assert (0 <= f x) by (apply Hpos; set_solver).
  assert (0 <= sum_with f l) by (apply sum_with_nonneg, Forall_forall; intros y Hy; apply Hpos; set_solver).
  apply elem_of_cons in Ha as [->|Ha]; [lia|].
  enough (f a <= sum_with f l) by lia. apply IH; [|done]. intros y Hy. apply Hpos. set_solver.
Qed.

(** The elements of a list are zero: so is its sum. *)
Lemma sum_with_Forall_zero {A} (f : A -> Z) l : Forall (fun x => f x = 0) l -> sum_with f l = 0.
Proof. induction 1; simpl; lia. Qed.

#[export] Hint Rewrite @sum_with_app @sum_with_plus @sum_with_minus : wms_rw.

(** ** Reflexive-transitive closure of a step relation *)

Section Star.
Context {A : Type} (R : A -> A -> Prop).

Inductive star : A -> A -> Prop :=
| star_refl a : star a a
| star_step a b c : R a b -> star b c -> star a c.

Lemma star_one a b : R a b -> star a b.
Proof. eauto using star. Qed.

Lemma star_trans a b c : star a b -> star b c -> star a c.
Proof. induction 1; eauto using star. Qed.

(** Rule induction for an invariant of the step relation. *)
Lemma star_invariant (P : A -> Prop) :
  (forall a b, P a -> R a b -> P b) -> forall a b, star a b -> P a -> P b.
Proof. intros Hstep a b Hs. induction Hs; eauto. Qed.

(** [eventually P a]: on every path of [R] from [a] a state of [P] is
    reached: [a] is in [P], or [a] has a step and every step leads to a
    state from which [P] is eventually reached. *)
Inductive eventually (P : A -> Prop) : A -> Prop :=
| eventually_done a : P a -> eventually P a
| eventually_step a : (exists b, R a b) -> (forall b, R a b -> eventually P b) -> eventually P a.

(** Liveness from termination and progress: when no infinite path starts
    at [a], [I] is kept by every step and every state of [I] is in [P] or
    has a step, every path from a state of [I] reaches [P]. *)
Lemma eventually_of_acc (I P : A -> Prop) :
  (forall a b, I a -> R a b -> I b) -> (forall a, I a -> P a \/ exists b, R a b) ->
  forall a, Acc (fun b a => R a b) a -> I a -> eventually P a.
Proof.
  intros Hstep Hprog a Hacc. induction Hacc as [a _ IH]; intros Ha.
  destruct (Hprog a Ha) as [HP|Hex]; [by apply eventually_done|].
  apply eventually_step; [exact Hex|]. intros b Hab. apply IH; eauto.
Qed.
End Star.

#[export] Hint Resolve star_refl star_one : wms.

(** ** Bounded quantification over an integer range, decided by a test *)

(** A test that holds on [seqZ lo n] (stdpp's [lo], ..., [lo+n-1]) holds at
    each point of the range. *)
Lemma forallb_seqZ (f : Z -> bool) lo n :
  forallb f (seqZ lo n) = true -> forall z, lo <= z < lo + n -> f z = true.
Proof.
  rewrite forallb_forall. intros H z Hz. apply H, list_elem_of_In, elem_of_seqZ, Hz.
Qed.

(** Filtering a list of pairs keeps its keys distinct. *)
Lemma NoDup_fst_filter {A B} (P : A * B -> Prop) `{!forall x, Decision (P x)} (l : list (A * B)) :
  NoDup l.*1 -> NoDup (filter P l).*1.
Proof.
  induction l as [|[a b] l IH]; simpl; [done|]. intros Hnd.
  apply NoDup_cons in Hnd as [Hn Hnd]. rewrite filter_cons.
  case_decide; simpl; [|auto]. constructor; [|auto].
  intros Hin. apply Hn. apply list_elem_of_fmap in Hin as ([a' b'] & -> & Hin).
  apply list_elem_of_filter in Hin as [_ Hin].
  apply list_elem_of_fmap. by exists (a', b').
Qed.

(** ** Strings *)

(** stdpp makes [String.append] opaque to [simpl]; these equations unfold
    it by conversion. *)
Lemma string_app_cons x (a b : string) : String x a +:+ b = String x (a +:+ b).
Proof. reflexivity. Qed.

Lemma string_app_nil_l (a : string) : "" +:+ a = a.
Proof. reflexivity. Qed.

Lemma string_app_assoc (a b c : string) : (a +:+ b) +:+ c = a +:+ (b +:+ c).
Proof. induction a as [|x a IH]; [done|]. rewrite !string_app_cons. by f_equal. Qed.

Lemma string_app_nil_r (a : string) : a +:+ "" = a.
Proof. induction a as [|x a IH]; [done|]. rewrite string_app_cons. by f_equal. Qed.

Lemma string_length_app (a b : string) :
  String.length (a +:+ b) = (String.length a + String.length b)%nat.
Proof. induction a as [|x a IH]; [done|]. rewrite string_app_cons. simpl. by f_equal. Qed.

#[export] Hint Rewrite string_app_cons string_app_nil_l string_app_assoc string_app_nil_r
  string_length_app : wms_rw.
