(* ===== verification/Json.v ===== *)
(** * JSON values of request and response bodies

    [jsonify] in [src/server.py] turns Python dicts, lists, strings and
    integers into a JSON response; this file gives the values that the
    handlers build, as an inductive type.  Objects keep the insertion order
    of the Python dict literal that builds them (Flask may sort the keys when
    it serialises; the set of pairs is what the handlers determine).
    Numbers are the integers the handlers put in bodies; a number with a
    fraction or an exponent, which only a decoded receipt can hold, is kept
    as its text ([JFloat]: Python holds the nearest binary64 value). *)

From S2P Require Import Prelude.

#[local] Set Warnings "-register-all".

Inductive json : Type :=
| JNull
| JBool (b : bool)
| JInt (z : Z)
| JFloat (lexeme : string)
| JStr (s : string)
| JArr (l : list json)
| JObj (kvs : list (string * json)).

(** [JObj] and [JArr] nest lists of [json]: the induction principle that
    sees the elements of those lists. *)
Section json_ind'.
Context (P : json -> Prop)
  (Pnull : P JNull) (Pbool : forall b, P (JBool b)) (Pint : forall z, P (JInt z))
  (Pfloat : forall x, P (JFloat x))
  (Pstr : forall s, P (JStr s))
  (Parr : forall l, Forall P l -> P (JArr l))
  (Pobj : forall kvs, Forall (fun kv => P kv.2) kvs -> P (JObj kvs)).

Fixpoint json_ind' (j : json) : P j :=
  match j with
  | JNull => Pnull
  | JBool b => Pbool b
  | JInt z => Pint z
  | JFloat x => Pfloat x
  | JStr s => Pstr s
  | JArr l =>
      Parr l ((fix go (l : list json) : Forall P l :=
                 match l with
                 | [] => Forall_nil_2 _
                 | x :: l' => Forall_cons_2 _ _ _ (json_ind' x) (go l')
                 end) l)
  | JObj kvs =>
      Pobj kvs ((fix go (kvs : list (string * json))
                   : Forall (fun kv => P kv.2) kvs :=
                   match kvs with
                   | [] => Forall_nil_2 _
                   | kv :: kvs' => Forall_cons_2 _ _ _ (json_ind' kv.2) (go kvs')
                   end) kvs)
  end.
End json_ind'.

(** Python's [d.get(k)] on a dict: the value of the last binding of [k]
    (a JSON object with a repeated key keeps the last one). *)
Definition jget (k : string) (kvs : list (string * json)) : option json :=
  fold_left (fun acc kv => if String.eqb kv.1 k then Some kv.2 else acc) kvs None.

(** [d[k] = v] on a Python dict: the binding of [k] takes the value [v]
    in place, or a new binding is added at the end. *)
Fixpoint py_dict_set (k : string) (v : json) (kvs : list (string * json)) : list (string * json) :=
  match kvs with
  | [] => [(k, v)]
  | (k', v') :: rest => if String.eqb k' k then (k', v) :: rest else (k', v') :: py_dict_set k v rest
  end.

(** [str(n)] of a Python [int], as used by the f-strings of the handlers. *)
Definition py_str_int (n : Z) : string := pretty n.

(** The body [{"error": msg}] of most error responses. *)
Definition error_body (msg : string) : json := JObj [("error", JStr msg)].
