(* ===== verification/JsonCodec.v ===== *)
(** * The JSON text of a receipt's line items: [json.loads] and [json.dumps]

    [product_receipt_detail] (src/server.py, line 61) decodes the [items]
    column of a receipt with [json.loads].  The decoder is CPython's C
    scanner ([Modules/_json.c]: [scan_once_unicode], [scanstring_unicode],
    [_parse_object_unicode], [_parse_array_unicode],
    [_match_number_unicode]) behind [JSONDecoder.decode], which skips
    whitespace, decodes one value, skips whitespace again and raises
    [Extra data] unless the text is used up.  The writer of the column is
    outside [src/]; it is modelled as [json.dumps] with its default
    separators ([dumps_with], over the function that escapes a string),
    here with [ensure_ascii=False] ([json_dumps]) and in [JsonAscii] with
    the default [ensure_ascii=True].

    Text is a [string] of bytes, the UTF-8 form of the Python [str].  The
    scanner only ever tests a character against ASCII, and a byte of a
    multi-byte UTF-8 sequence is never ASCII, so scanning the bytes decides
    exactly as scanning the code points does; a [\uXXXX] escape yields the
    UTF-8 bytes of its code point (a lone surrogate its three-byte form).

    [parse_value] and the loops over array elements and object members
    ([parse_elems], [parse_members]) are structurally recursive on a fuel
    argument; [DFuel] is the result of running out of it, distinct from the
    decoding error [DErr].  [json_loads] gives fuel [2 * length s + 1],
    which is always enough ([JsonCodec.json_loads_fuel_enough]): the decoder
    decides every text. *)

From S2P Require Import Prelude Json.
From Stdlib Require Import Ascii.

Local Open Scope string_scope.
Local Open Scope Z_scope.

(** ** Characters *)

Definition c_quote : ascii := "034".
Definition c_bslash : ascii := "092".

Definition code (c : ascii) : Z := Z.of_N (N_of_ascii c).
Definition byte (z : Z) : ascii := ascii_of_N (Z.to_N z).

(** [IS_WHITESPACE]: space, tab, line feed, carriage return. *)
Definition is_ws (c : ascii) : bool :=
  (c =? " ")%char || (code c =? 9) || (code c =? 10) || (code c =? 13).

Definition is_digit (c : ascii) : bool := (48 <=? code c) && (code c <=? 57).

Fixpoint skip_ws (s : string) : string :=
  match s with
  | String c r => if is_ws c then skip_ws r else s
  | EmptyString => s
  end.

(** [strip_prefix p s] is [Some r] when [s] is [p] followed by [r]. *)
Fixpoint strip_prefix (p s : string) : option string :=
  match p, s with
  | EmptyString, _ => Some s
  | String a p', String b s' => if (a =? b)%char then strip_prefix p' s' else None
  | String _ _, EmptyString => None
  end.

(** ** Numbers ([_match_number_unicode]) *)

Fixpoint span_digits (s : string) : string * string :=
  match s with
  | String c r => if is_digit c then let '(d, r') := span_digits r in (String c d, r') else ("", s)
  | EmptyString => ("", s)
  end.

(** The value of a string of decimal digits, after the digits [acc]. *)
Fixpoint dec_value (acc : Z) (s : string) : Z :=
  match s with
  | EmptyString => acc
  | String c r => dec_value (10 * acc + (code c - 48)) r
  end.

(** The integer part: [0], or a non-zero digit and the digits after it. *)
Definition scan_int_part (s : string) : option (string * string) :=
  match s with
  | String c r =>
      if (c =? "0")%char then Some ("0", r)
      else if is_digit c then let '(d, r') := span_digits r in Some (String c d, r')
      else None
  | EmptyString => None
  end.

(** A fraction: a dot followed by at least one digit; otherwise nothing. *)
Definition scan_frac (s : string) : string * string :=
  match s with
  | String c (String d r) =>
      if (c =? ".")%char && is_digit d then
        let '(ds, r') := span_digits r in (String c (String d ds), r')
      else ("", s)
  | _ => ("", s)
  end.

(** An exponent: [e] or [E], an optional sign, at least one digit;
    otherwise nothing, and the scan resumes at the [e]. *)
Definition scan_exp (s : string) : string * string :=
  match s with
  | String e r =>
      if (e =? "e")%char || (e =? "E")%char then
        let '(sg, r1) :=
          match r with
          | String c r' => if (c =? "+")%char || (c =? "-")%char then (String c "", r') else ("", r)
          | EmptyString => ("", r)
          end in
        match span_digits r1 with
        | (EmptyString, _) => ("", s)
        | (ds, r2) => (String e (sg +:+ ds), r2)
        end
      else ("", s)
  | EmptyString => ("", s)
  end.

(** A number: [int(numstr)] without fraction and exponent, a float
    (kept as its text) otherwise. *)
Definition split_minus (s : string) : bool * string :=
  match s with
  | String c r => if (c =? "-")%char then (true, r) else (false, s)
  | EmptyString => (false, s)
  end.

Definition scan_number (s : string) : option (json * string) :=
  let '(neg, s1) := split_minus s in
  match scan_int_part s1 with
  | None => None
  | Some (ip, r1) =>
      let '(fr, r2) := scan_frac r1 in
      let '(ex, r3) := scan_exp r2 in
      match fr, ex with
      | EmptyString, EmptyString => Some (JInt (if neg then - dec_value 0 ip else dec_value 0 ip), r3)
      | _, _ => Some (JFloat ((if neg then "-" else "") +:+ ip +:+ fr +:+ ex), r3)
      end
  end.

(** The named constants, tried on their first letter, then a number
    (the fall-through of [scan_once_unicode]). *)
Definition scan_scalar (s : string) : option (json * string) :=
  match strip_prefix "null" s with Some r => Some (JNull, r) | None =>
  match strip_prefix "true" s with Some r => Some (JBool true, r) | None =>
  match strip_prefix "false" s with Some r => Some (JBool false, r) | None =>
  match strip_prefix "NaN" s with Some r => Some (JFloat "NaN", r) | None =>
  match strip_prefix "Infinity" s with Some r => Some (JFloat "Infinity", r) | None =>
  match strip_prefix "-Infinity" s with Some r => Some (JFloat "-Infinity", r) | None =>
  scan_number s end end end end end end.

(** ** Strings ([scanstring_unicode], strict) *)

Definition hex_digit (c : ascii) : option Z :=
  let n := code c in
  if (48 <=? n) && (n <=? 57) then Some (n - 48)
  else if (97 <=? n) && (n <=? 102) then Some (n - 87)
  else if (65 <=? n) && (n <=? 70) then Some (n - 55)
  else None.

Definition hex4 (a b c d : ascii) : option Z :=
  x1 ← hex_digit a; x2 ← hex_digit b; x3 ← hex_digit c; x4 ← hex_digit d;
  Some (((x1 * 16 + x2) * 16 + x3) * 16 + x4).

Definition is_high_surrogate (c : Z) : bool := (55296 <=? c) && (c <=? 56319).
Definition is_low_surrogate (c : Z) : bool := (56320 <=? c) && (c <=? 57343).

(** [Py_UNICODE_JOIN_SURROGATES]. *)
Definition join_surrogates (hi lo : Z) : Z :=
  65536 + Z.lor (Z.shiftl (Z.land hi 1023) 10) (Z.land lo 1023).

(** The UTF-8 bytes of a code point. *)
Definition utf8_encode (cp : Z) : string :=
  if cp <? 128 then String (byte cp) ""
  else if cp <? 2048 then
    String (byte (Z.lor 192 (Z.shiftr cp 6))) (String (byte (Z.lor 128 (Z.land cp 63))) "")
  else if cp <? 65536 then
    String (byte (Z.lor 224 (Z.shiftr cp 12)))
      (String (byte (Z.lor 128 (Z.land (Z.shiftr cp 6) 63)))
         (String (byte (Z.lor 128 (Z.land cp 63))) ""))
  else
    String (byte (Z.lor 240 (Z.shiftr cp 18)))
      (String (byte (Z.lor 128 (Z.land (Z.shiftr cp 12) 63)))
         (String (byte (Z.lor 128 (Z.land (Z.shiftr cp 6) 63)))
            (String (byte (Z.lor 128 (Z.land cp 63))) ""))).

(** The character of a one-letter escape. *)
Definition simple_escape (e : ascii) : option ascii :=
  if (e =? c_quote)%char || (e =? c_bslash)%char || (e =? "/")%char then Some e
  else if (e =? "b")%char then Some (byte 8)
  else if (e =? "f")%char then Some (byte 12)
  else if (e =? "n")%char then Some (byte 10)
  else if (e =? "r")%char then Some (byte 13)
  else if (e =? "t")%char then Some (byte 9)
  else None.

Definition prepend (p : string) (x : option (string * string)) : option (string * string) :=
  (fun '(str, r) => (p +:+ str, r)) <$> x.

(** The text of a string after its opening quote: its contents and the
    text after the closing quote.  An unterminated string, a control
    character, an unknown escape or a malformed [\uXXXX] is an error; a
    high surrogate followed by [\u] and a low surrogate is one code point
    (when at least one character follows them, the test [end + 6 < len]). *)
Fixpoint scan_string (s : string) : option (string * string) :=
  match s with
  | EmptyString => None
  | String c r =>
      if (c =? c_quote)%char then Some ("", r)
      else if (c =? c_bslash)%char then
        match r with
        | EmptyString => None
        | String e r' =>
            if (e =? "u")%char then
              match r' with
              | String h1 (String h2 (String h3 (String h4 r'')))  =>
                  match hex4 h1 h2 h3 h4 with
                  | None => None
                  | Some cp =>
                      if is_high_surrogate cp then
                        match r'' with
                        | String b (String u (String k1 (String k2 (String k3 (String k4 r4))))) =>
                            match r4 with
                            | EmptyString => prepend (utf8_encode cp) (scan_string r'')
                            | String _ _ =>
                                if (b =? c_bslash)%char && (u =? "u")%char then
                                  match hex4 k1 k2 k3 k4 with
                                  | None => None
                                  | Some cp2 =>
                                      if is_low_surrogate cp2
                                      then prepend (utf8_encode (join_surrogates cp cp2)) (scan_string r4)
                                      else prepend (utf8_encode cp) (scan_string r'')
                                  end
                                else prepend (utf8_encode cp) (scan_string r'')
                            end
                        | _ => prepend (utf8_encode cp) (scan_string r'')
                        end
                      else prepend (utf8_encode cp) (scan_string r'')
                  end
              | _ => None
              end
            else
              match simple_escape e with
              | Some d => prepend (String d "") (scan_string r')
              | None => None
              end
        end
      else if code c <? 32 then None
      else prepend (String c "") (scan_string r)
  end.

(** ** Values, arrays and objects *)

(** The result of a decoding step: a value and the text after it, a
    [JSONDecodeError], or no fuel left. *)
Inductive dres (A : Type) : Type :=
| DOk (a : A) (rest : string)
| DErr
| DFuel.
Arguments DOk {A}.
Arguments DErr {A}.
Arguments DFuel {A}.

Definition dmap {A B} (f : A -> B) (x : dres A) : dres B :=
  match x with DOk a r => DOk (f a) r | DErr => DErr | DFuel => DFuel end.

Definition of_option {A} (x : option (A * string)) : dres A :=
  match x with Some (a, r) => DOk a r | None => DErr end.

(** The dict built from the members of an object, in order: a repeated key
    keeps its first position and takes its last value. *)
Definition dict_of_pairs (kvs : list (string * json)) : list (string * json) :=
  fold_left (fun acc '(k, v) => py_dict_set k v acc) kvs [].

Fixpoint parse_value (fuel : nat) (s : string) : dres json :=
  match fuel with
  | O => DFuel
  | S f =>
      match s with
      | EmptyString => DErr
      | String c r =>
          if (c =? c_quote)%char then of_option ((fun '(str, r') => (JStr str, r')) <$> scan_string r)
          else if (c =? "{")%char then
            match skip_ws r with
            | String c1 r1 =>
                if (c1 =? "}")%char then DOk (JObj []) r1
                else dmap (fun kvs => JObj (dict_of_pairs kvs)) (parse_members f (skip_ws r))
            | EmptyString => DErr
            end
          else if (c =? "[")%char then
            match skip_ws r with
            | String c1 r1 =>
                if (c1 =? "]")%char then DOk (JArr []) r1
                else dmap JArr (parse_elems f (skip_ws r))
            | EmptyString => DErr
            end
          else of_option (scan_scalar s)
      end
  end
(** The elements of a non-empty array, from the first one to the closing
    bracket. *)
with parse_elems (fuel : nat) (s : string) : dres (list json) :=
  match fuel with
  | O => DFuel
  | S f =>
      match parse_value f s with
      | DOk v r =>
          match skip_ws r with
          | String c r' =>
              if (c =? "]")%char then DOk [v] r'
              else if (c =? ",")%char then dmap (cons v) (parse_elems f (skip_ws r'))
              else DErr
          | EmptyString => DErr
          end
      | DErr => DErr
      | DFuel => DFuel
      end
  end
(** The members of a non-empty object, from the first key to the closing
    brace. *)
with parse_members (fuel : nat) (s : string) : dres (list (string * json)) :=
  match fuel with
  | O => DFuel
  | S f =>
      match s with
      | String c r =>
          if (c =? c_quote)%char then
            match scan_string r with
            | None => DErr
            | Some (k, r1) =>
                match skip_ws r1 with
                | String c2 r2 =>
                    if (c2 =? ":")%char then
                      match parse_value f (skip_ws r2) with
                      | DOk v r3 =>
                          match skip_ws r3 with
                          | String c3 r4 =>
                              if (c3 =? "}")%char then DOk [(k, v)] r4
                              else if (c3 =? ",")%char then dmap (cons (k, v)) (parse_members f (skip_ws r4))
                              else DErr
                          | EmptyString => DErr
                          end
                      | DErr => DErr
                      | DFuel => DFuel
                      end
                    else DErr
                | EmptyString => DErr
                end
            end
          else DErr
      | EmptyString => DErr
      end
  end.

(** The UTF-8 byte order mark, which [json.loads] refuses at the start of
    a [str]. *)
Definition utf8_bom : string := String (byte 239) (String (byte 187) (String (byte 191) "")).

(** [json.loads s]: [None] is a [JSONDecodeError]. *)
Definition json_loads (s : string) : option json :=
  match strip_prefix utf8_bom s with
  | Some _ => None
  | None =>
      match parse_value (2 * String.length s + 1) (skip_ws s) with
      | DOk v r => match skip_ws r with EmptyString => Some v | String _ _ => None end
      | DErr | DFuel => None
      end
  end.

(** ** The writer: [json.dumps(v, ensure_ascii=False)] *)

Definition hex_char (d : Z) : ascii := if d <? 10 then byte (48 + d) else byte (87 + d).

(** [ESCAPE_DCT] of the encoder: the quote, the backslash and the control
    characters are escaped, every other byte is copied. *)
Definition escape_char (c : ascii) : string :=
  let n := code c in
  if (c =? c_quote)%char then String c_bslash (String c_quote "")
  else if (c =? c_bslash)%char then String c_bslash (String c_bslash "")
  else if n =? 8 then "\b"
  else if n =? 12 then "\f"
  else if n =? 10 then "\n"
  else if n =? 13 then "\r"
  else if n =? 9 then "\t"
  else if n <? 32 then "\u00" +:+ String (hex_char (n / 16)) (String (hex_char (n mod 16)) "")
  else String c "".

Fixpoint escape (s : string) : string :=
  match s with
  | EmptyString => ""
  | String c r => escape_char c +:+ escape r
  end.

(** [', '.join(parts)], the item separator of the encoder. *)
Fixpoint join_comma (parts : list string) : string :=
  match parts with
  | [] => ""
  | [x] => x
  | x :: rest => x +:+ ", " +:+ join_comma rest
  end.

(** The encoder with its default separators, over the function [esc]
    that writes the contents of a string ([encode_basestring] or
    [encode_basestring_ascii]). *)
Section Writer.
Context (esc : string -> string).

Definition dumps_str_with (s : string) : string := String c_quote (esc s +:+ String c_quote "").

Fixpoint dumps_with (v : json) : string :=
  match v with
  | JNull => "null"
  | JBool true => "true"
  | JBool false => "false"
  | JInt z => pretty z
  | JFloat x => x
  | JStr s => dumps_str_with s
  | JArr l => "[" +:+ join_comma (map dumps_with l) +:+ "]"
  | JObj kvs => "{" +:+ join_comma (map (fun kv => dumps_str_with kv.1 +:+ ": " +:+ dumps_with kv.2) kvs) +:+ "}"
  end.

(** A member of an object: the key, the key separator and the value. *)
Definition dumps_member_with (kv : string * json) : string := dumps_str_with kv.1 +:+ ": " +:+ dumps_with kv.2.
End Writer.

(** [json.dumps(v, ensure_ascii=False)]. *)
Definition json_dumps : json -> string := dumps_with escape.

(** ** The decoder consumes its input *)

Lemma skip_ws_len s : (String.length (skip_ws s) <= String.length s)%nat.
Proof. induction s as [|c s IH]; simpl; [lia|]. case_if; simpl; lia. Qed.

Lemma prepend_Some p x t r : prepend p x = Some (t, r) -> exists t', x = Some (t', r).
Proof. destruct x as [[t' r']|]; simpl; [intros [= _ <-]; eauto | done]. Qed.

Lemma scan_string_len s t r :
  scan_string s = Some (t, r) -> (String.length r < String.length s)%nat.
Proof.
  revert t r. induction s as [s IH] using (induction_ltof1 _ String.length).
  unfold ltof in IH. destruct s as [|c s0]; [done|]. intros t r. simpl.
  repeat case_match; intros Hs; simplify_eq; try (simpl; lia);
    apply prepend_Some in Hs as [t' Hs]; apply IH in Hs; simpl in *; lia.
Qed.

Lemma strip_prefix_len p s r :
  strip_prefix p s = Some r -> (String.length r + String.length p = String.length s)%nat.
Proof.
  revert s. induction p as [|a p IH]; intros [|b s]; simpl; try done.
  - intros [= <-]. simpl. lia.
  - intros [= <-]. simpl. lia.
  - case_if; [|done]. intros H%IH. lia.
Qed.

Lemma span_digits_len s d r :
  span_digits s = (d, r) -> (String.length d + String.length r = String.length s)%nat.
Proof.
  revert d r. induction s as [|c s IH]; intros d r; simpl; [by intros [= <- <-]|].
  case_if; [|by intros [= <- <-]].
  pose proof (IH _ _ (surjective_pairing (span_digits s))) as IH'.
  destruct (span_digits s) as [d' r']. intros [= <- <-]. simpl in *. lia.
Qed.

Lemma scan_int_part_len s ip r :
  scan_int_part s = Some (ip, r) -> (String.length r < String.length s)%nat.
Proof.
  destruct s as [|c s]; simpl; [done|]. case_if; [intros [= _ <-]; lia|]. case_if; [|done].
  destruct (span_digits s) as [d r'] eqn:E. intros [= _ <-]. apply span_digits_len in E. lia.
Qed.

Lemma scan_frac_len s fr r : scan_frac s = (fr, r) -> (String.length r <= String.length s)%nat.
Proof.
  unfold scan_frac. repeat case_match; intros; simplify_eq; simpl; try lia.
  match goal with H : span_digits _ = _ |- _ => apply span_digits_len in H end. lia.
Qed.

Lemma scan_exp_len s ex r : scan_exp s = (ex, r) -> (String.length r <= String.length s)%nat.
Proof.
  unfold scan_exp. repeat case_match; intros; simplify_eq; simpl; try lia;
    match goal with H : span_digits _ = _ |- _ => apply span_digits_len in H end; simpl in *; lia.
Qed.

Lemma scan_number_len s v r :
  scan_number s = Some (v, r) -> (String.length r < String.length s)%nat.
Proof.
  unfold scan_number.
  destruct (split_minus s) as [neg s1] eqn:E.
  assert (Hs1 : (String.length s1 <= String.length s)%nat).
  { unfold split_minus in E. destruct s; simpl in *; [by simplify_eq|].
    revert E. case_if; intros E; simplify_eq; simpl; lia. }
  destruct (scan_int_part s1) as [[ip r1]|] eqn:Hi; [|done]. apply scan_int_part_len in Hi.
  destruct (scan_frac r1) as [fr r2] eqn:Hf. apply scan_frac_len in Hf.
  destruct (scan_exp r2) as [ex r3] eqn:He. apply scan_exp_len in He.
  destruct fr, ex; cbn; intros H; simplify_eq; lia.
Qed.

Lemma scan_scalar_len s v r :
  scan_scalar s = Some (v, r) -> (String.length r < String.length s)%nat.
Proof.
  unfold scan_scalar.
  repeat match goal with
  | |- context [strip_prefix ?p s] =>
      let E := fresh in destruct (strip_prefix p s) eqn:E;
      [intros [= _ <-]; apply strip_prefix_len in E; simpl in E; lia|]
  end.
  apply scan_number_len.
Qed.

Lemma dmap_DOk {A B} (f : A -> B) x b r : dmap f x = DOk b r -> exists a, x = DOk a r.
Proof. destruct x; simpl; [intros [= _ <-]; eauto | done | done]. Qed.

Lemma dmap_DFuel {A B} (f : A -> B) x : dmap f x <> DFuel <-> x <> DFuel.
Proof. by destruct x. Qed.

Lemma of_option_not_DFuel {A} (x : option (A * string)) : of_option x <> DFuel.
Proof. by destruct x as [[]|]. Qed.

Lemma of_option_DOk {A} (x : option (A * string)) a r : of_option x = DOk a r -> x = Some (a, r).
Proof. destruct x as [[]|]; simpl; [by intros [= -> ->] | done]. Qed.

Lemma scan_JStr_len s v r :
  of_option ((fun '(str, r') => (JStr str, r')) <$> scan_string s) = DOk v r ->
  (String.length r < String.length s)%nat.
Proof.
  intros H%of_option_DOk. destruct (scan_string s) as [[t r']|] eqn:E; simplify_eq/=.
  by apply scan_string_len in E.
Qed.

Ltac ws_len :=
  repeat match goal with
  | H : skip_ws ?s = _ |- _ => let L := fresh in
      pose proof (skip_ws_len s) as L; rewrite H in L; simpl in L; clear H
  end.

(** Every step that succeeds consumes text. *)
Lemma parse_len n :
  (forall s v r, parse_value n s = DOk v r -> (String.length r < String.length s)%nat) /\
  (forall s vs r, parse_elems n s = DOk vs r -> (String.length r < String.length s)%nat) /\
  (forall s kvs r, parse_members n s = DOk kvs r -> (String.length r < String.length s)%nat).
Proof.
  induction n as [|f (IHv & IHe & IHm)]; [done|]. split_and!.
  - intros [|c s] v r; simpl; [done|].
    case_if; [intros H%scan_JStr_len; lia|].
    case_if; [|case_if; [|intros H%of_option_DOk%scan_scalar_len; simpl in H; lia]].
    all: destruct (skip_ws s) as [|c1 r1] eqn:E; [done|].
    all: case_if; [intros [= _ <-]; ws_len; lia|].
    all: intros (? & Hd)%dmap_DOk; (apply IHm in Hd || apply IHe in Hd); ws_len; simpl in *; lia.
  - intros s vs r. simpl.
    destruct (parse_value f s) as [v r1| |] eqn:Hv; try done. apply IHv in Hv.
    destruct (skip_ws r1) as [|c r'] eqn:E; [done|].
    case_if; [intros [= _ <-]; ws_len; lia|]. case_if; [|done].
    intros (? & Hd)%dmap_DOk. apply IHe in Hd. pose proof (skip_ws_len r'). ws_len. lia.
  - intros [|c s] kvs r; simpl; [done|]. case_if; [|done].
    destruct (scan_string s) as [[k r1]|] eqn:Hk; [|done]. apply scan_string_len in Hk.
    destruct (skip_ws r1) as [|c2 r2] eqn:E2; [done|]. case_if; [|done].
    destruct (parse_value f (skip_ws r2)) as [v r3| |] eqn:Hv; try done. apply IHv in Hv.
    destruct (skip_ws r3) as [|c3 r4] eqn:E3; [done|].
    pose proof (skip_ws_len r2).
    case_if; [intros [= _ <-]; ws_len; lia|]. case_if; [|done].
    intros (? & Hd)%dmap_DOk. apply IHm in Hd. pose proof (skip_ws_len r4). ws_len. lia.
Qed.

(** Fuel [2 * length s + 1] is enough for a value, one more for a loop. *)
Lemma parse_fuel n :
  (forall s, (2 * String.length s < n)%nat -> parse_value n s <> DFuel) /\
  (forall s, (2 * String.length s + 1 < n)%nat -> parse_elems n s <> DFuel) /\
  (forall s, (2 * String.length s + 1 < n)%nat -> parse_members n s <> DFuel).
Proof.
  induction n as [|f (IHv & IHe & IHm)]; [split_and!; intros; lia|].
  destruct (parse_len f) as (Lv & Le & Lm). split_and!.
  - intros [|c s] Hn; simpl; [done|]. simpl in Hn.
    case_if; [apply of_option_not_DFuel|].
    case_if; [|case_if; [|apply of_option_not_DFuel]].
    all: destruct (skip_ws s) as [|c1 r1] eqn:E; [done|].
    all: case_if; [done|]; apply dmap_DFuel.
    all: (apply IHm || apply IHe); ws_len; simpl in *; lia.
  - intros s Hn. simpl.
    destruct (parse_value f s) as [v r1| |] eqn:Hv; [| done | by apply IHv in Hv; lia].
    apply Lv in Hv.
    destruct (skip_ws r1) as [|c r'] eqn:E; [done|]. case_if; [done|]. case_if; [|done].
    apply dmap_DFuel, IHe. pose proof (skip_ws_len r'). ws_len. lia.
  - intros [|c s] Hn; simpl; [done|]. simpl in Hn. case_if; [|done].
    destruct (scan_string s) as [[k r1]|] eqn:Hk; [|done]. apply scan_string_len in Hk.
    destruct (skip_ws r1) as [|c2 r2] eqn:E2; [done|]. case_if; [|done].
    pose proof (skip_ws_len r2).
    destruct (parse_value f (skip_ws r2)) as [v r3| |] eqn:Hv;
      [| done | apply IHv in Hv; [done|]; ws_len; lia].
    apply Lv in Hv.
    destruct (skip_ws r3) as [|c3 r4] eqn:E3; [done|]. case_if; [done|]. case_if; [|done].
    apply dmap_DFuel, IHm. pose proof (skip_ws_len r4). ws_len. lia.
Qed.

(** More fuel does not change a result. *)
Lemma parse_mono n m : (n <= m)%nat ->
  (forall s, parse_value n s <> DFuel -> parse_value m s = parse_value n s) /\
  (forall s, parse_elems n s <> DFuel -> parse_elems m s = parse_elems n s) /\
  (forall s, parse_members n s <> DFuel -> parse_members m s = parse_members n s).
Proof.
  revert m. induction n as [|f IH]; intros m Hm; [done|].
  destruct m as [|g]; [lia|]. destruct (IH g ltac:(lia)) as (IHv & IHe & IHm). split_and!.
  - intros [|c s] H; simpl in *; [done|].
    case_if; [done|]. case_if; [|case_if; [|done]].
    all: destruct (skip_ws s) as [|c1 r1]; [done|]; case_if; [done|].
    all: apply dmap_DFuel in H; by rewrite ?IHm, ?IHe.
  - intros s H. simpl in *.
    destruct (parse_value f s) as [v r1| |] eqn:Hv; [| by rewrite IHv, Hv by congruence | done].
    rewrite IHv, Hv by congruence.
    destruct (skip_ws r1) as [|c r']; [done|]. case_if; [done|]. case_if; [|done].
    apply dmap_DFuel in H. by rewrite IHe.
  - intros [|c s] H; simpl in *; [done|]. case_if; [|done].
    destruct (scan_string s) as [[k r1]|]; [|done].
    destruct (skip_ws r1) as [|c2 r2]; [done|]. case_if; [|done].
    destruct (parse_value f (skip_ws r2)) as [v r3| |] eqn:Hv;
      [| by rewrite IHv, Hv by congruence | done].
    rewrite IHv, Hv by congruence.
    destruct (skip_ws r3) as [|c3 r4]; [done|]. case_if; [done|]. case_if; [|done].
    apply dmap_DFuel in H. by rewrite IHm.
Qed.

(** ** The writer and the decoder agree *)

(** A value the writer can print and the decoder give back: no float
    (whose text Python prints with [repr]), distinct keys in every object
    (the dict built by the decoder merges repeated keys), and strings and
    keys that [str_ok] accepts (those whose escaped form the decoder reads
    back). *)
Fixpoint wf_with (str_ok : string -> bool) (v : json) : bool :=
  match v with
  | JFloat _ => false
  | JStr s => str_ok s
  | JArr l => forallb (wf_with str_ok) l
  | JObj kvs => bool_decide (NoDup kvs.*1) && forallb (fun kv => str_ok kv.1 && wf_with str_ok kv.2) kvs
  | _ => true
  end.

(** Every string is read back from the output of [escape]. *)
Definition json_wf : json -> bool := wf_with (fun _ => true).

(** The text after a value in the writer's output: nothing, or a comma,
    a closing bracket or a closing brace. *)
Definition follow (r : string) : bool :=
  match r with
  | EmptyString => true
  | String c _ => (c =? ",")%char || (c =? "]")%char || (c =? "}")%char
  end.

Fixpoint digits_only (s : string) : bool :=
  match s with EmptyString => true | String c r => is_digit c && digits_only r end.

(** The text does not continue a run of digits. *)
Definition no_digit (r : string) : bool :=
  match r with EmptyString => true | String c _ => negb (is_digit c) end.

(** Each byte is read back from its escaped form, whatever follows it:
    checked on the 256 bytes. *)
Lemma scan_string_escape_char c t :
  scan_string (escape_char c +:+ t) = prepend (String c "") (scan_string t).
Proof. destruct c as [[] [] [] [] [] [] [] []]; reflexivity. Qed.

Lemma scan_string_escape s r : scan_string (escape s +:+ String c_quote r) = Some (s, r).
Proof.
  induction s as [|c s IH]; [reflexivity|]. cbn [escape].
  by rewrite string_app_assoc, scan_string_escape_char, IH.
Qed.

Lemma dec_value_app acc a b : dec_value acc (a +:+ b) = dec_value (dec_value acc a) b.
Proof. revert acc. induction a as [|c a IH]; intros acc; [done|]. apply IH. Qed.

Lemma span_digits_app d t : digits_only d = true -> no_digit t = true -> span_digits (d +:+ t) = (d, t).
Proof.
  induction d as [|c d IH]; cbn [digits_only].
  - intros _. destruct t as [|c t]; [done|]. intros Hc%negb_true_iff. simpl. by rewrite Hc.
  - intros [Hc Hd]%andb_prop Ht. rewrite string_app_cons. cbn [span_digits].
    by rewrite Hc, IH.
Qed.

Lemma digits_only_app a b : digits_only (a +:+ b) = digits_only a && digits_only b.
Proof.
  induction a as [|c a IH]; [done|]. rewrite string_app_cons. cbn [digits_only].
  rewrite IH. apply andb_assoc.
Qed.

Lemma digit_eqb_false a c : is_digit c = true -> is_digit a = false -> (a =? c)%char = false.
Proof. intros Hc Ha. destruct (a =? c)%char eqn:E; [|done]. apply Ascii.eqb_eq in E. congruence. Qed.

Lemma pretty_N_char_code k : (k < 10)%N -> code (pretty_N_char k) = 48 + Z.of_N k.
Proof.
  intros Hk. assert (k = 0 \/ k = 1 \/ k = 2 \/ k = 3 \/ k = 4 \/ k = 5 \/ k = 6 \/ k = 7
                     \/ k = 8 \/ k = 9)%N as H by lia.
  repeat (destruct H as [->|H]; [reflexivity|]). by subst.
Qed.

(** stdpp's [pretty_N_go x s] writes the decimal digits of [x] before [s],
    without a leading zero. *)
Lemma pretty_N_go_spec x s :
  exists d, pretty_N_go x s = d +:+ s /\ digits_only d = true
    /\ (forall acc, dec_value acc d = acc * 10 ^ Z.of_nat (String.length d) + Z.of_N x)
    /\ (x <> 0%N -> exists c d', d = String c d' /\ (c =? "0")%char = false).
Proof.
  revert s. induction (N.lt_wf_0 x) as [x _ IH]; intros s.
  destruct (decide (x = 0%N)) as [->|Hx].
  { exists "". rewrite pretty_N_go_0. split_and!; [done | done | intros; simpl; lia | done]. }
  rewrite pretty_N_go_step by lia.
  pose proof (N.mod_lt x 10 ltac:(lia)) as Hm.
  pose proof (N.div_mod x 10 ltac:(lia)) as Hdm.
  set (ch := pretty_N_char (x `mod` 10)).
  assert (Hch : code ch = 48 + Z.of_N (x `mod` 10)) by by apply pretty_N_char_code.
  destruct (IH (x `div` 10)%N ltac:(apply N.div_lt; lia) (String ch s))
    as (d' & Hd' & Hdig & Hval & Hhead).
  exists (d' +:+ String ch ""). rewrite Hd', string_app_assoc. split_and!; [done| | |].
  - assert (Hdc : is_digit ch = true).
    { pose proof (N2Z.is_nonneg (x `mod` 10)). apply N2Z.inj_lt in Hm.
      unfold is_digit. rewrite Hch. apply andb_true_intro. split; apply Z.leb_le; lia. }
    rewrite digits_only_app, Hdig. cbn [digits_only]. by rewrite Hdc.
  - intros acc. rewrite dec_value_app, Hval, string_length_app. cbn [dec_value String.length].
    rewrite Hch, Nat2Z.inj_add, Z.pow_add_r by lia. nia.
  - intros _. destruct (decide (x `div` 10 = 0)%N) as [H0|H0].
    + rewrite H0, pretty_N_go_0 in Hd'.
      assert (d' = "") as ->.
      { apply (f_equal String.length) in Hd'. rewrite string_length_app in Hd'.
        destruct d'; [done|]. simpl in Hd'. lia. }
      exists ch, "". split; [done|]. destruct (ch =? "0")%char eqn:E; [|done].
      apply Ascii.eqb_eq in E. rewrite E in Hch. change (code "0"%char) with 48 in Hch.
      rewrite H0, N.mul_0_r, N.add_0_l in Hdm. rewrite <- Hdm in Hch. lia.
    + destruct (Hhead H0) as (c & d'' & -> & Hc). by exists c, (d'' +:+ String ch "").
Qed.

Lemma pretty_Z_digits z :
  exists d, pretty z = (if bool_decide (z < 0) then "-" else "") +:+ d
    /\ digits_only d = true /\ dec_value 0 d = Z.abs z
    /\ (d = "0" \/ exists c d', d = String c d' /\ (c =? "0")%char = false).
Proof.
  destruct z as [|p|p].
  - exists "0". split_and!; [done..| by left].
  - destruct (pretty_N_go_spec (Npos p) "") as (d & Hd & Hdig & Hval & Hhead).
    exists d. rewrite bool_decide_false by lia.
    change (pretty (Zpos p)) with (pretty (Npos p)). unfold pretty, pretty_N.
    rewrite decide_False by done. rewrite Hd, string_app_nil_r.
    split_and!; [done | done | rewrite Hval; simpl; lia | right; by apply Hhead].
  - destruct (pretty_N_go_spec (Npos p) "") as (d & Hd & Hdig & Hval & Hhead).
    exists d. rewrite bool_decide_true by lia.
    change (pretty (Zneg p)) with ("-" +:+ pretty (Npos p)). unfold pretty, pretty_N.
    rewrite decide_False by done. rewrite Hd, string_app_nil_r.
    split_and!; [done | done | rewrite Hval; simpl; lia | right; by apply Hhead].
Qed.

(** The three characters that may follow a value in the writer's output. *)
Ltac follow_cases H :=
  repeat (apply orb_prop in H as [H|H]); apply Ascii.eqb_eq in H; subst.

Lemma follow_no_digit r : follow r = true -> no_digit r = true.
Proof. destruct r as [|c r]; [done|]. cbn. intros H. follow_cases H; reflexivity. Qed.

Lemma scan_frac_follow r : follow r = true -> scan_frac r = ("", r).
Proof. destruct r as [|c [|d r]]; [done|done|]. cbn. intros H. follow_cases H; reflexivity. Qed.

Lemma scan_exp_follow r : follow r = true -> scan_exp r = ("", r).
Proof. destruct r as [|c r]; [done|]. cbn. intros H. follow_cases H; reflexivity. Qed.

Lemma scan_int_part_digits d r :
  digits_only d = true -> (d = "0" \/ exists c d', d = String c d' /\ (c =? "0")%char = false) ->
  no_digit r = true -> scan_int_part (d +:+ r) = Some (d, r).
Proof.
  intros Hdig [->|(c & d' & -> & Hc)] Hr; [done|].
  cbn in Hdig. apply andb_prop in Hdig as [Hc' Hd'].
  rewrite string_app_cons. cbn [scan_int_part]. rewrite Hc, Hc'. by rewrite span_digits_app.
Qed.

(** A text that starts with a digit, or with a minus sign and a digit, is
    no named constant: checked on the 256 bytes. *)
Lemma scan_scalar_number c s : is_digit c = true ->
  scan_scalar (String c s) = scan_number (String c s)
  /\ scan_scalar (String "-" (String c s)) = scan_number (String "-" (String c s)).
Proof.
  destruct c as [[] [] [] [] [] [] [] []]; intros Hc; vm_compute in Hc; try discriminate Hc;
    split; reflexivity.
Qed.

Lemma scan_scalar_int z r : follow r = true -> scan_scalar (pretty z +:+ r) = Some (JInt z, r).
Proof.
  intros Hr. destruct (pretty_Z_digits z) as (d & -> & Hdig & Hval & Hhead).
  pose proof (scan_int_part_digits d r Hdig Hhead (follow_no_digit r Hr)) as Hi.
  assert (exists c d', d = String c d' /\ is_digit c = true) as (c & d' & Hcd & Hc).
  { destruct Hhead as [->|(c & d' & -> & _)]; [by exists "0"%char, ""|].
    cbn in Hdig. apply andb_prop in Hdig as [? _]. eauto. }
  rewrite string_app_assoc, Hcd. rewrite Hcd in Hi. rewrite string_app_cons.
  destruct (scan_scalar_number c (d' +:+ r) Hc) as [Hs Hm].
  case_bool_decide.
  - rewrite string_app_cons, string_app_nil_l, Hm. unfold scan_number, split_minus.
    cbn [Ascii.eqb Bool.eqb andb]. rewrite <- string_app_cons, Hi.
    rewrite scan_frac_follow, scan_exp_follow by done. rewrite Hcd in Hval.
    cbn -[dec_value]. do 3 f_equal. lia.
  - rewrite string_app_nil_l, Hs. unfold scan_number, split_minus.
    rewrite Ascii.eqb_sym, digit_eqb_false by done. rewrite <- string_app_cons, Hi.
    rewrite scan_frac_follow, scan_exp_follow by done. rewrite Hcd in Hval.
    cbn -[dec_value]. do 3 f_equal. lia.
Qed.

(** ** Reading back what the writer wrote *)

(** The first character of a printed value: no whitespace, no closing
    bracket or brace, no byte of the UTF-8 byte order mark. *)
Definition head_ok (c : ascii) : bool :=
  negb (is_ws c) && negb (follow (String c "")) && (code c <? 128).

Lemma digit_head_ok c : is_digit c = true ->
  head_ok c = true /\ (c =? c_quote)%char = false /\ (c =? "{")%char = false
  /\ (c =? "[")%char = false.
Proof.
  destruct c as [[] [] [] [] [] [] [] []]; intros Hc; vm_compute in Hc; try discriminate Hc;
    split_and!; reflexivity.
Qed.

(** ** The read-back argument, for any escaper

    [esc] writes the contents of a string; [Hesc] says the decoder reads
    them back for every string [str_ok] accepts, whatever follows the
    closing quote. *)
Section RoundTrip.
Context (esc : string -> string) (str_ok : string -> bool).
Hypothesis Hesc : forall s r, str_ok s = true -> scan_string (esc s +:+ String c_quote r) = Some (s, r).

Lemma dumps_head v :
  wf_with str_ok v = true -> exists c t, dumps_with esc v = String c t /\ head_ok c = true.
Proof.
  destruct v as [| [] | z | x | s | l | kvs]; cbn [wf_with]; intros Hwf; try done;
    try (eexists _, _; split; reflexivity).
  cbn [dumps_with]. destruct (pretty_Z_digits z) as (d & -> & Hdig & _ & Hhead).
  case_bool_decide; [by eexists _, _|].
  destruct Hhead as [->|(c & d' & -> & _)]; [by eexists _, _|].
  cbn in Hdig. apply andb_prop in Hdig as [Hc _]. exists c, d'. split; [done|].
  apply (digit_head_ok c Hc).
Qed.

Lemma skip_ws_head c t : head_ok c = true -> skip_ws (String c t) = String c t.
Proof.
  unfold head_ok. intros [[Hw _]%andb_prop _]%andb_prop. apply negb_true_iff in Hw.
  cbn. by rewrite Hw.
Qed.

Lemma skip_ws_nonws c t : is_ws c = false -> skip_ws (String c t) = String c t.
Proof. intros H. cbn. by rewrite H. Qed.

Lemma skip_ws_ws c t : is_ws c = true -> skip_ws (String c t) = skip_ws t.
Proof. intros H. cbn. by rewrite H. Qed.

(** The decoder reads a printed value back, from any fuel above its length
    and whatever follows it in the writer's output. *)
Definition reads_back (v : json) : Prop :=
  forall n r, (String.length (dumps_with esc v) < n)%nat -> follow r = true ->
  parse_value n (dumps_with esc v +:+ r) = DOk v r.

Lemma join_comma_head {A} (f : A -> string) x l :
  (exists c t, f x = String c t /\ head_ok c = true) ->
  exists c t, join_comma (map f (x :: l)) = String c t /\ head_ok c = true.
Proof.
  intros (c & t & Hx & Hc). exists c.
  destruct l; cbn [map join_comma]; rewrite Hx; [by eexists|].
  eexists. split; [by rewrite string_app_cons|done].
Qed.

(** After a value of a list: a closing character, or the item separator
    and the next item. *)
Lemma skip_after_sep c t : head_ok c = true -> skip_ws (String " " (String c t)) = String c t.
Proof. intros H. rewrite skip_ws_ws by reflexivity. by apply skip_ws_head. Qed.

Lemma parse_elems_dumps l :
  Forall (fun v => wf_with str_ok v = true /\ reads_back v) l -> l <> [] ->
  forall n r, (String.length (join_comma (map (dumps_with esc) l)) + 1 < n)%nat -> follow r = true ->
  parse_elems n (join_comma (map (dumps_with esc) l) +:+ String "]" r) = DOk l r.
Proof.
  induction l as [|x l IH]; intros HF Hne n r Hn Hr; [done|].
  apply Forall_cons in HF as [[Hwf Hx] HF].
  destruct n as [|f]; [lia|]. cbn [parse_elems].
  destruct l as [|y l'].
  - cbn [map join_comma] in *. rewrite Hx by (done || lia). reflexivity.
  - change (join_comma (map (dumps_with esc) (x :: y :: l')))
      with (dumps_with esc x +:+ ", " +:+ join_comma (map (dumps_with esc) (y :: l'))) in *.
    rewrite !string_length_app in Hn. cbn [String.length] in Hn.
    rewrite !string_app_assoc, Hx by (done || lia).
    rewrite !string_app_cons, string_app_nil_l.
    rewrite skip_ws_nonws by reflexivity. cbn [Ascii.eqb Bool.eqb andb].
    destruct (join_comma_head (dumps_with esc) y l' (dumps_head y (proj1 (Forall_inv HF))))
      as (c & t & Ht & Hc).
    rewrite Ht, string_app_cons, skip_after_sep, <- string_app_cons, <- Ht by done.
    rewrite IH by (done || lia). done.
Qed.

Lemma dumps_member_eq k v t :
  dumps_member_with esc (k, v) +:+ t
  = String c_quote (esc k +:+ String c_quote (String ":" (String " " (dumps_with esc v +:+ t)))).
Proof. unfold dumps_member_with, dumps_str_with. by autorewrite with wms_rw. Qed.

(** The members of an object: a key, then its value. *)
Definition member_ok (kv : string * json) : Prop :=
  (str_ok kv.1 && wf_with str_ok kv.2) = true /\ reads_back kv.2.

Lemma member_read kv n t :
  member_ok kv -> (String.length (dumps_with esc kv.2) + 1 < n)%nat -> follow t = true ->
  exists c' t', dumps_with esc kv.2 = String c' t' /\ head_ok c' = true
    /\ parse_value n (dumps_with esc kv.2 +:+ t) = DOk kv.2 t
    /\ scan_string (esc kv.1 +:+ String c_quote (String ":" (String " " (dumps_with esc kv.2 +:+ t))))
       = Some (kv.1, String ":" (String " " (dumps_with esc kv.2 +:+ t))).
Proof.
  intros [[Hk Hwf]%andb_prop Hv] Hn Ht. destruct (dumps_head kv.2 Hwf) as (c & t' & Hct & Hc).
  exists c, t'. split_and!; [done | done | apply Hv; [lia | done] | by apply Hesc].
Qed.

Lemma dumps_member_len kv :
  (String.length (dumps_with esc kv.2) + 4 <= String.length (dumps_member_with esc kv))%nat.
Proof. unfold dumps_member_with, dumps_str_with. cbn [String.length]. rewrite !string_length_app. cbn [String.length]. rewrite string_length_app. cbn [String.length]. lia. Qed.

Lemma parse_members_dumps kvs :
  Forall member_ok kvs -> kvs <> [] ->
  forall n r, (String.length (join_comma (map (dumps_member_with esc) kvs)) + 1 < n)%nat -> follow r = true ->
  parse_members n (join_comma (map (dumps_member_with esc) kvs) +:+ String "}" r) = DOk kvs r.
Proof.
  induction kvs as [|[k v] kvs IH]; intros HF Hne n r Hn Hr; [done|].
  apply Forall_cons in HF as [Hkv HF].
  destruct n as [|f]; [lia|].
  destruct kvs as [|kv' kvs'].
  - cbn [map join_comma] in *. rewrite dumps_member_eq.
    pose proof (dumps_member_len (k, v)) as Hl.
    destruct (member_read (k, v) f (String "}" r) Hkv ltac:(cbn [snd] in *; lia) eq_refl)
      as (c & t & Hct & Hc & Hv & Hs). cbn [fst snd] in *.
    cbn [parse_members Ascii.eqb Bool.eqb andb c_quote]. rewrite Hs.
    rewrite skip_ws_nonws by reflexivity. cbn [Ascii.eqb Bool.eqb andb].
    rewrite Hct, string_app_cons, skip_after_sep, <- string_app_cons, <- Hct by done.
    by rewrite Hv.
  - change (join_comma (map (dumps_member_with esc) ((k, v) :: kv' :: kvs')))
      with (dumps_member_with esc (k, v) +:+ ", " +:+ join_comma (map (dumps_member_with esc) (kv' :: kvs'))) in *.
    rewrite !string_length_app in Hn. cbn [String.length] in Hn.
    pose proof (dumps_member_len (k, v)) as Hl.
    rewrite !string_app_assoc, dumps_member_eq.
    destruct (member_read (k, v) f (", " +:+ join_comma (map (dumps_member_with esc) (kv' :: kvs')) +:+ String "}" r)
                Hkv ltac:(cbn [snd] in *; lia) eq_refl) as (c & t & Hct & Hc & Hv & Hs).
    cbn [fst snd] in *.
    cbn [parse_members Ascii.eqb Bool.eqb andb c_quote]. rewrite Hs.
    rewrite skip_ws_nonws by reflexivity. cbn [Ascii.eqb Bool.eqb andb].
    rewrite Hct, string_app_cons, skip_after_sep, <- string_app_cons, <- Hct by done.
    rewrite Hv. rewrite !string_app_cons, string_app_nil_l.
    rewrite skip_ws_nonws by reflexivity. cbn [Ascii.eqb Bool.eqb andb].
    assert (Hk : exists c' t', dumps_member_with esc kv' = String c' t' /\ head_ok c' = true)
      by (eexists _, _; split; reflexivity).
    destruct (join_comma_head (dumps_member_with esc) kv' kvs' Hk) as (c' & t' & Ht' & Hc').
    rewrite Ht', string_app_cons, skip_after_sep, <- string_app_cons, <- Ht' by done.
    rewrite IH by (done || lia). done.
Qed.

Lemma py_dict_set_fresh k v acc : k ∉ acc.*1 -> py_dict_set k v acc = (acc ++ [(k, v)])%list.
Proof.
  induction acc as [|[k' v'] acc IH]; intros Hn; [done|]. cbn [py_dict_set].
  rewrite fmap_cons, elem_of_cons in Hn. cbn [fst] in Hn.
  destruct (String.eqb_spec k' k); [naive_solver|]. rewrite IH; naive_solver.
Qed.

Lemma fold_py_dict_set kvs acc :
  NoDup (acc.*1 ++ kvs.*1) ->
  fold_left (fun acc '(k, v) => py_dict_set k v acc) kvs acc = (acc ++ kvs)%list.
Proof.
  revert acc. induction kvs as [|[k v] kvs IH]; intros acc Hnd; [by rewrite app_nil_r|].
  cbn [fold_left]. rewrite fmap_cons in Hnd. cbn [fst] in Hnd. rewrite py_dict_set_fresh.
  - rewrite IH; [by rewrite <- app_assoc|]. by rewrite fmap_app, <- app_assoc.
  - apply NoDup_app in Hnd as (_ & Hd & _). intros Hin. apply (Hd k Hin). by left.
Qed.

(** Without repeated keys, the dict of the members is the list of them. *)
Lemma dict_of_pairs_NoDup kvs : NoDup kvs.*1 -> dict_of_pairs kvs = kvs.
Proof. intros Hnd. by apply (fold_py_dict_set kvs []). Qed.

Lemma head_ok_not_close c : head_ok c = true -> (c =? "]")%char = false /\ (c =? "}")%char = false.
Proof.
  intros Hc. split; destruct (_ =? _)%char eqn:E; try done;
    apply Ascii.eqb_eq in E; subst c; vm_compute in Hc; discriminate.
Qed.

Lemma parse_value_int f z r : follow r = true -> parse_value (S f) (pretty z +:+ r) = DOk (JInt z) r.
Proof.
  intros Hr. pose proof (scan_scalar_int z r Hr) as Hs.
  destruct (pretty_Z_digits z) as (d & Hp & Hdig & _ & Hhead). rewrite Hp in Hs |- *.
  rewrite string_app_assoc in Hs |- *. case_bool_decide.
  - rewrite string_app_cons, string_app_nil_l in Hs |- *.
    cbn [parse_value Ascii.eqb Bool.eqb andb c_quote]. by rewrite Hs.
  - rewrite string_app_nil_l in Hs |- *.
    assert (exists c d', d = String c d' /\ is_digit c = true) as (c & d' & -> & Hc).
    { destruct Hhead as [->|(c & d' & -> & _)]; [by exists "0"%char, ""|].
      cbn in Hdig. apply andb_prop in Hdig as [? _]. eauto. }
    rewrite string_app_cons in Hs |- *. destruct (digit_head_ok c Hc) as (_ & Hq & Hb & Hk).
    cbn [parse_value]. rewrite Hq, Hb, Hk. by rewrite Hs.
Qed.

(** The elements of a list whose test holds, from a hypothesis for each. *)
Lemma Forall_test {A} (t : A -> bool) (Q : A -> Prop) (l : list A) :
  forallb t l = true -> Forall (fun a => t a = true -> Q a) l ->
  Forall (fun a => t a = true /\ Q a) l.
Proof.
  induction l as [|a l IH]; intros Hw HF; [constructor|]. cbn in Hw.
  apply andb_prop in Hw as [Ha Hl]. apply Forall_cons in HF as [Hr HF].
  constructor; [split; auto | auto].
Qed.

Lemma parse_dumps v : wf_with str_ok v = true -> reads_back v.
Proof.
  induction v as [| b | z | x | s | l IHl | kvs IHk] using json_ind'; cbn [wf_with];
    intros Hwf n r Hn Hr; (destruct n as [|f]; [lia|]).
  - reflexivity.
  - destruct b; reflexivity.
  - by apply parse_value_int.
  - done.
  - cbn [dumps_with]. unfold dumps_str_with. autorewrite with wms_rw.
    cbn [parse_value Ascii.eqb Bool.eqb andb c_quote]. by rewrite Hesc.
  - destruct l as [|x l']; [reflexivity|].
    assert (HF : Forall (fun v => wf_with str_ok v = true /\ reads_back v) (x :: l')).
    { by apply (Forall_test (wf_with str_ok)). }
    destruct (join_comma_head (dumps_with esc) x l' (dumps_head x (proj1 (Forall_inv HF))))
      as (c & t & Ht & Hc).
    cbn [dumps_with] in Hn |- *. autorewrite with wms_rw in Hn |- *. cbn [String.length] in Hn.
    cbn [parse_value Ascii.eqb Bool.eqb andb c_quote].
    rewrite Ht, string_app_cons, skip_ws_head by done. rewrite (proj1 (head_ok_not_close c Hc)).
    rewrite <- string_app_cons, <- Ht.
    rewrite parse_elems_dumps; [done | done | done | rewrite Ht in Hn |- *; simpl in *; lia | done].
  - apply andb_prop in Hwf as [Hnd Hwf]. apply bool_decide_eq_true in Hnd.
    destruct kvs as [|[k x] kvs']; [reflexivity|].
    assert (HF : Forall member_ok ((k, x) :: kvs')).
    { apply (Forall_test (fun kv => str_ok kv.1 && wf_with str_ok kv.2) (fun kv => reads_back kv.2));
        [done|]. eapply Forall_impl; [exact IHk|]. intros kv Hkv [_ ?]%andb_prop. by apply Hkv. }
    assert (Hk : exists c' t', dumps_member_with esc (k, x) = String c' t' /\ head_ok c' = true)
      by (eexists _, _; split; reflexivity).
    destruct (join_comma_head (dumps_member_with esc) (k, x) kvs' Hk) as (c & t & Ht & Hc).
    change (map (fun kv => dumps_str_with esc kv.1 +:+ ": " +:+ dumps_with esc kv.2) ((k, x) :: kvs'))
      with (map (dumps_member_with esc) ((k, x) :: kvs')) in Hn |- *.
    cbn [dumps_with] in Hn |- *. autorewrite with wms_rw in Hn |- *. cbn [String.length] in Hn.
    change (map (fun kv => dumps_str_with esc kv.1 +:+ ": " +:+ dumps_with esc kv.2) ((k, x) :: kvs'))
      with (map (dumps_member_with esc) ((k, x) :: kvs')) in Hn |- *.
    cbn [parse_value Ascii.eqb Bool.eqb andb c_quote].
    rewrite Ht, string_app_cons, skip_ws_head by done. rewrite (proj2 (head_ok_not_close c Hc)).
    rewrite <- string_app_cons, <- Ht.
    rewrite parse_members_dumps; [| done | done | rewrite Ht in Hn |- *; simpl in *; lia | done].
    cbn [dmap]. by rewrite dict_of_pairs_NoDup.
Qed.

Lemma bom_head c t : head_ok c = true -> strip_prefix utf8_bom (String c t) = None.
Proof.
  intros Hc. cbn [utf8_bom strip_prefix].
  destruct (byte 239 =? c)%char eqn:E; [|done].
  apply Ascii.eqb_eq in E. subst c. vm_compute in Hc. discriminate.
Qed.

(** What the writer writes, the decoder reads back. *)
Lemma dumps_roundtrip v : wf_with str_ok v = true -> json_loads (dumps_with esc v) = Some v.
Proof.
  intros Hwf. destruct (dumps_head v Hwf) as (c & t & Ht & Hc).
  unfold json_loads. rewrite Ht, bom_head, skip_ws_head, <- Ht by done.
  rewrite <- (string_app_nil_r (dumps_with esc v)) at 2.
  rewrite (parse_dumps v Hwf); [done | lia | done].
Qed.
End RoundTrip.

(** ** Theorems *)

(** Round trip of the receipt items (specification, section 9: the
    serialised [items] decode to a list whose structure matches what was
    encoded).  A value without floats and without repeated keys, written
    by [json.dumps] with [ensure_ascii=False], is decoded by [json.loads]
    to the same value. *)
Theorem json_roundtrip v : json_wf v = true -> json_loads (json_dumps v) = Some v.
Proof. apply (dumps_roundtrip escape (fun _ => true)). intros s r _. apply scan_string_escape. Qed.

Lemma json_roundtrip_witness :
  json_wf (JArr [JObj [("product_id", JInt 7); ("quantity", JInt (-3)); ("note", JStr "a\b")]]) = true
  /\ json_loads (json_dumps (JArr [JObj [("product_id", JInt 7); ("quantity", JInt (-3));
                                        ("note", JStr "a\b")]]))
     = Some (JArr [JObj [("product_id", JInt 7); ("quantity", JInt (-3)); ("note", JStr "a\b")]]).
Proof. split; [reflexivity | apply json_roundtrip; reflexivity]. Defined.

(** [json.loads] decides every text.  The fuel [json_loads] gives,
    twice the length of the text plus one, always yields a value or a
    decoding error, never an exhausted fuel, and any fuel that yields a
    result yields that same one: the decoder's answer does not depend on
    the fuel. *)
Theorem json_loads_fuel_enough s :
  parse_value (2 * String.length s + 1) (skip_ws s) <> DFuel
  /\ forall n, parse_value n (skip_ws s) <> DFuel ->
     parse_value n (skip_ws s) = parse_value (2 * String.length s + 1) (skip_ws s).
Proof.
  pose proof (skip_ws_len s) as Hl.
  assert (H1 : parse_value (2 * String.length s + 1) (skip_ws s) <> DFuel)
    by (apply (parse_fuel _); lia).
  split; [done|]. intros n Hn.
  destruct (decide (n <= 2 * String.length s + 1)%nat).
  - symmetry. by apply (parse_mono n).
  - by apply (parse_mono (2 * String.length s + 1) n); [lia|].
Qed.

Lemma json_loads_fuel_enough_witness :
  parse_value (2 * String.length "[1, 2]" + 1) (skip_ws "[1, 2]") <> DFuel
  /\ parse_value 40 (skip_ws "[1, 2]") = parse_value (2 * String.length "[1, 2]" + 1) (skip_ws "[1, 2]").
Proof.
  destruct (json_loads_fuel_enough "[1, 2]") as [H1 H2].
  split; [exact H1 | apply H2; vm_compute; discriminate].
Defined.
