(* ===== verification/JsonAscii.v ===== *)
(** * [json.dumps] with [ensure_ascii=True], and its round trip

    The default writer of Python's [json] module escapes every character
    outside printable ASCII ([c_encode_basestring_ascii] in
    [Modules/_json.c]): [S_CHAR] characters (space to [~], but for the
    quote and the backslash) are copied; the quote, the backslash and the
    characters of a one-letter escape get it; every other code point is
    written [\uXXXX] in lowercase hexadecimal, a code point above [0xFFFF]
    as its UTF-16 surrogate pair ([ascii_escape_unichar]).

    Text is a string of bytes, the UTF-8 form of the Python [str]
    ([JsonCodec]); [utf8_next] reads the code point at the head of it.  A
    string of well-formed UTF-8 ([utf8_valid]: shortest forms, no
    surrogate, at most [0x10FFFF]) is the form of a [str] without lone
    surrogates.  [escape_ascii] writes its code points one by one; a byte
    that starts no UTF-8 sequence, which a [str] never produces, is
    written as the code point of its value.  The decoder reads the
    escaped text back ([scan_string_escape_ascii]), so the generic round
    trip of [JsonCodec] applies to this writer too
    ([json_roundtrip_ascii]). *)

From S2P Require Import Prelude Json JsonCodec.
From Stdlib Require Import Ascii Zbitwise.

Local Open Scope string_scope.
Local Open Scope Z_scope.

(** ** UTF-8 *)

Definition is_surrogate (cp : Z) : bool := (55296 <=? cp) && (cp <=? 57343).

(** A code point a [str] without lone surrogates can hold. *)
Definition scalar (cp : Z) : bool := (0 <=? cp) && (cp <=? 1114111) && negb (is_surrogate cp).

(** A continuation byte [10xxxxxx]. *)
Definition is_cont (c : ascii) : bool := (128 <=? code c) && (code c <? 192).

(** The code point at the head of a text and the text after it, for a
    well-formed sequence: one byte below [0x80]; a lead byte [0xC2]-[0xDF]
    and one continuation byte; [0xE0]-[0xEF] and two, for a code point
    from [0x800] that is no surrogate; [0xF0]-[0xF4] and three, for a code
    point from [0x10000] to [0x10FFFF]. *)
Definition utf8_next (s : string) : option (Z * string) :=
  match s with
  | EmptyString => None
  | String a r =>
      let x := code a in
      if x <? 128 then Some (x, r) else
      match r with
      | EmptyString => None
      | String b r1 =>
          if negb (is_cont b) then None else
          let y := code b - 128 in
          if x <? 224 then (if 194 <=? x then Some ((x - 192) * 64 + y, r1) else None) else
          match r1 with
          | EmptyString => None
          | String c r2 =>
              if negb (is_cont c) then None else
              let z := code c - 128 in
              if x <? 240 then
                let cp := ((x - 224) * 64 + y) * 64 + z in
                if (2048 <=? cp) && negb (is_surrogate cp) then Some (cp, r2) else None
              else
                match r2 with
                | EmptyString => None
                | String d r3 =>
                    if negb (is_cont d) then None else
                    let cp := (((x - 240) * 64 + y) * 64 + z) * 64 + (code d - 128) in
                    if (65536 <=? cp) && (cp <=? 1114111) then Some (cp, r3) else None
                end
          end
      end
  end.

(** Well-formed UTF-8, read code point by code point; the fuel is the
    length, and every code point takes at least one byte. *)
Fixpoint utf8_valid_go (n : nat) (s : string) : bool :=
  match s with
  | EmptyString => true
  | String _ _ =>
      match n, utf8_next s with
      | S n', Some (_, r) => utf8_valid_go n' r
      | _, _ => false
      end
  end.

Definition utf8_valid (s : string) : bool := utf8_valid_go (String.length s) s.

(** ** The writer of a string ([c_encode_basestring_ascii]) *)

(** [S_CHAR]: copied as it is. *)
Definition s_char (c : Z) : bool := (32 <=? c) && (c <=? 126) && negb (c =? 92) && negb (c =? 34).

(** The four lowercase hexadecimal digits of [v] ([Py_hexdigits]). *)
Definition hex_quad (v : Z) : string :=
  String (hex_char (Z.land (Z.shiftr v 12) 15))
    (String (hex_char (Z.land (Z.shiftr v 8) 15))
       (String (hex_char (Z.land (Z.shiftr v 4) 15))
          (String (hex_char (Z.land v 15)) ""))).

(** [ascii_escape_unichar]: a backslash and the escape of [c]; a code
    point above [0xFFFF] as [Py_UNICODE_HIGH_SURROGATE] and
    [Py_UNICODE_LOW_SURROGATE]. *)
Definition ascii_escape_unichar (c : Z) : string :=
  if c =? 92 then String c_bslash (String c_bslash "")
  else if c =? 34 then String c_bslash (String c_quote "")
  else if c =? 8 then "\b"
  else if c =? 12 then "\f"
  else if c =? 10 then "\n"
  else if c =? 13 then "\r"
  else if c =? 9 then "\t"
  else if 65536 <=? c then
    "\u" +:+ hex_quad (55296 - Z.shiftr 65536 10 + Z.shiftr c 10)
      +:+ "\u" +:+ hex_quad (56320 + Z.land c 1023)
  else "\u" +:+ hex_quad c.

Definition encode_char_ascii (c : Z) : string :=
  if s_char c then String (byte c) "" else ascii_escape_unichar c.

(** The code points of [s], escaped one by one. *)
Fixpoint escape_ascii_go (n : nat) (s : string) : string :=
  match n, s with
  | _, EmptyString => ""
  | O, String _ _ => ""
  | S n', String a r =>
      match utf8_next s with
      | Some (cp, r') => encode_char_ascii cp +:+ escape_ascii_go n' r'
      | None => encode_char_ascii (code a) +:+ escape_ascii_go n' r
      end
  end.

Definition escape_ascii (s : string) : string := escape_ascii_go (String.length s) s.

(** [json.dumps(v)], with [ensure_ascii=True]. *)
Definition json_dumps_ascii : json -> string := dumps_with escape_ascii.

(** The values this writer writes and the decoder reads back: those of
    [JsonCodec.wf_with] whose strings and keys are well-formed UTF-8. *)
Definition json_wf_ascii : json -> bool := wf_with utf8_valid.

(** ** Bytes and bits *)

Lemma code_byte z : 0 <= z < 256 -> code (byte z) = z.
Proof.
  intros Hz. unfold code, byte. rewrite N_ascii_embedding; [lia|].
  apply N2Z.inj_lt. rewrite Z2N.id by lia. simpl. lia.
Qed.

Lemma byte_code c : byte (code c) = c.
Proof. unfold code, byte. rewrite N2Z.id. apply ascii_N_embedding. Qed.

Lemma code_bound c : 0 <= code c < 256.
Proof. destruct c as [[] [] [] [] [] [] [] []]; vm_compute; split; congruence. Qed.

(** Bits above those of [v]: [lor] adds. *)
Lemma lor_disjoint c v k :
  0 <= k -> 0 <= v < 2 ^ k -> c mod 2 ^ k = 0 -> Z.lor c v = c + v.
Proof.
  intros Hk Hv Hc. rewrite <- Z.add_lor_land.
  assert (Z.land c v = 0) as ->; [|lia].
  rewrite <- (Z.mod_small v (2 ^ k)) by lia. rewrite <- Z.land_ones by lia.
  rewrite (Z.land_comm v), Z.land_assoc, Z.land_ones, Hc by lia. apply Z.land_0_l.
Qed.

(** A property of every integer of a range, checked by evaluation. *)
Lemma range_check (P : Z -> bool) lo n :
  forallb P (seqZ lo n) = true -> forall z, lo <= z < lo + n -> P z = true.
Proof.
  intros H z Hz. apply forallb_forall with (x := z) in H; [done|].
  apply list_elem_of_In, elem_of_seqZ. lia.
Qed.

Lemma byte_eq e c : e = code c -> byte e = c.
Proof. intros ->. apply byte_code. Qed.

Lemma is_cont_code c : is_cont c = true -> 128 <= code c < 192.
Proof. unfold is_cont. intros H. zbool. lia. Qed.

(** ** The bytes of a code point *)

(** The lead bytes and the continuation byte: [lor] of the marker adds. *)
Lemma lor_markers v :
  (0 <= v < 64 -> Z.lor 128 v = 128 + v) /\ (0 <= v < 32 -> Z.lor 192 v = 192 + v)
  /\ (0 <= v < 16 -> Z.lor 224 v = 224 + v) /\ (0 <= v < 8 -> Z.lor 240 v = 240 + v).
Proof.
  split_and!; intros Hv.
  - apply (lor_disjoint _ _ 6); [lia | change (2 ^ 6) with 64; lia | reflexivity].
  - apply (lor_disjoint _ _ 5); [lia | change (2 ^ 5) with 32; lia | reflexivity].
  - apply (lor_disjoint _ _ 4); [lia | change (2 ^ 4) with 16; lia | reflexivity].
  - apply (lor_disjoint _ _ 3); [lia | change (2 ^ 3) with 8; lia | reflexivity].
Qed.

(** [utf8_encode] in arithmetic: the lead byte and the six-bit groups. *)
Ltac utf8_arith :=
  rewrite ?Z.shiftr_div_pow2 by lia; change 63 with (Z.ones 6); rewrite ?Z.land_ones by lia;
  change (2 ^ 6) with 64; change (2 ^ 12) with 4096; change (2 ^ 18) with 262144;
  repeat match goal with
  | |- context [Z.lor 128 ?v] => rewrite (proj1 (lor_markers v)) by zdiv_lia
  | |- context [Z.lor 192 ?v] => rewrite (proj1 (proj2 (lor_markers v))) by zdiv_lia
  | |- context [Z.lor 224 ?v] => rewrite (proj1 (proj2 (proj2 (lor_markers v)))) by zdiv_lia
  | |- context [Z.lor 240 ?v] => rewrite (proj2 (proj2 (proj2 (lor_markers v)))) by zdiv_lia
  end.

Lemma utf8_encode_2 cp : 128 <= cp < 2048 ->
  utf8_encode cp = String (byte (192 + cp / 64)) (String (byte (128 + cp mod 64)) "").
Proof.
  intros H. unfold utf8_encode. rewrite (proj2 (Z.ltb_ge cp 128)), (proj2 (Z.ltb_lt cp 2048)) by lia.
  utf8_arith. reflexivity.
Qed.

Lemma utf8_encode_3 cp : 2048 <= cp < 65536 ->
  utf8_encode cp
  = String (byte (224 + cp / 4096))
      (String (byte (128 + (cp / 64) mod 64)) (String (byte (128 + cp mod 64)) "")).
Proof.
  intros H. unfold utf8_encode.
  rewrite (proj2 (Z.ltb_ge cp 128)), (proj2 (Z.ltb_ge cp 2048)), (proj2 (Z.ltb_lt cp 65536)) by lia.
  utf8_arith. reflexivity.
Qed.

Lemma utf8_encode_4 cp : 65536 <= cp < 1114112 ->
  utf8_encode cp
  = String (byte (240 + cp / 262144))
      (String (byte (128 + (cp / 4096) mod 64))
         (String (byte (128 + (cp / 64) mod 64)) (String (byte (128 + cp mod 64)) ""))).
Proof.
  intros H. unfold utf8_encode.
  rewrite (proj2 (Z.ltb_ge cp 128)), (proj2 (Z.ltb_ge cp 2048)), (proj2 (Z.ltb_ge cp 65536)) by lia.
  utf8_arith. reflexivity.
Qed.

(** ** Reading a code point *)

(** What [utf8_next] reads is a scalar code point and its UTF-8 bytes. *)
Lemma utf8_next_spec s cp r :
  utf8_next s = Some (cp, r) -> scalar cp = true /\ s = utf8_encode cp +:+ r.
Proof.
  destruct s as [|a r0]; [done|]. pose proof (code_bound a) as Ha. cbn [utf8_next].
  unfold scalar, is_surrogate. case_if.
  { intros [= <- <-]. split; [zbool_lia|]. unfold utf8_encode.
    rewrite (proj2 (Z.ltb_lt _ _)), byte_code by lia. by rewrite string_app_cons, string_app_nil_l. }
  destruct r0 as [|b r1]; [done|]. destruct (is_cont b) eqn:Eb; cbn [negb]; [|done].
  apply is_cont_code in Eb. case_if.
  { case_if; [|done]. intros [= <- <-]. split; [zbool_lia|].
    rewrite utf8_encode_2 by zdiv_lia. rewrite !string_app_cons, string_app_nil_l.
    f_equal; [symmetry; apply byte_eq; zdiv_lia|]. f_equal. symmetry; apply byte_eq; zdiv_lia. }
  destruct r1 as [|c r2]; [done|]. destruct (is_cont c) eqn:Ec; cbn [negb]; [|done].
  apply is_cont_code in Ec. case_if.
  { destruct (_ && _) eqn:Ecp; [|done]. intros [= <- <-]. split; [zbool_lia|].
    rewrite utf8_encode_3 by zbool_lia. rewrite !string_app_cons, string_app_nil_l.
    f_equal; [symmetry; apply byte_eq; zdiv_lia|]. f_equal; [symmetry; apply byte_eq; zdiv_lia|].
    f_equal. symmetry; apply byte_eq; zdiv_lia. }
  destruct r2 as [|d r3]; [done|]. destruct (is_cont d) eqn:Ed; cbn [negb]; [|done].
  apply is_cont_code in Ed. destruct (_ && _) eqn:Ecp; [|done]. intros [= <- <-].
  split; [zbool_lia|].
  rewrite utf8_encode_4 by zbool_lia. rewrite !string_app_cons, string_app_nil_l.
  f_equal; [symmetry; apply byte_eq; zdiv_lia|]. f_equal; [symmetry; apply byte_eq; zdiv_lia|].
  f_equal; [symmetry; apply byte_eq; zdiv_lia|]. f_equal. symmetry; apply byte_eq; zdiv_lia.
Qed.

Lemma utf8_encode_cons cp : exists c t, utf8_encode cp = String c t.
Proof. unfold utf8_encode. repeat case_if; by eexists _, _. Qed.

Lemma utf8_next_len s cp r : utf8_next s = Some (cp, r) -> (String.length r < String.length s)%nat.
Proof.
  intros H. destruct (utf8_next_spec s cp r H) as [_ ->].
  destruct (utf8_encode_cons cp) as (c & t & ->). rewrite string_length_app. cbn. lia.
Qed.

(** Any fuel from the length on gives the same answer. *)
Lemma utf8_valid_go_fuel s : forall n m, (String.length s <= n)%nat -> (String.length s <= m)%nat ->
  utf8_valid_go n s = utf8_valid_go m s.
Proof.
  remember (String.length s) as k eqn:Hk. revert s Hk.
  induction (lt_wf k) as [k _ IH]. intros s -> n m Hn Hm.
  destruct s as [|a t]; [by destruct n, m|]. cbn [String.length] in *.
  destruct n as [|n], m as [|m]; try lia. cbn [utf8_valid_go].
  destruct (utf8_next (String a t)) as [[cp r]|] eqn:E; [|done].
  pose proof (utf8_next_len _ _ _ E) as Hl. cbn [String.length] in Hl.
  apply (IH (String.length r)); [lia | done | lia | lia].
Qed.

Lemma escape_ascii_go_fuel s : forall n m, (String.length s <= n)%nat -> (String.length s <= m)%nat ->
  escape_ascii_go n s = escape_ascii_go m s.
Proof.
  remember (String.length s) as k eqn:Hk. revert s Hk.
  induction (lt_wf k) as [k _ IH]. intros s -> n m Hn Hm.
  destruct s as [|a t]; [by destruct n, m|]. cbn [String.length] in *.
  destruct n as [|n], m as [|m]; try lia. cbn [escape_ascii_go].
  destruct (utf8_next (String a t)) as [[cp r]|] eqn:E.
  - pose proof (utf8_next_len _ _ _ E) as Hl. cbn [String.length] in Hl.
    f_equal. apply (IH (String.length r)); [lia | done | lia | lia].
  - f_equal. apply (IH (String.length t)); [lia | done | lia | lia].
Qed.

(** Both read one code point, then the rest. *)
Lemma utf8_valid_next s cp r : utf8_next s = Some (cp, r) -> utf8_valid s = utf8_valid r.
Proof.
  intros E. pose proof (utf8_next_len _ _ _ E) as Hl. unfold utf8_valid.
  destruct s as [|a t]; [done|]. cbn [String.length utf8_valid_go]. rewrite E.
  apply utf8_valid_go_fuel; cbn in Hl; lia.
Qed.

Lemma escape_ascii_next s cp r :
  utf8_next s = Some (cp, r) -> escape_ascii s = encode_char_ascii cp +:+ escape_ascii r.
Proof.
  intros E. pose proof (utf8_next_len _ _ _ E) as Hl. unfold escape_ascii.
  destruct s as [|a t]; [done|]. cbn [String.length escape_ascii_go]. rewrite E.
  f_equal. apply escape_ascii_go_fuel; cbn in Hl; lia.
Qed.

(** A well-formed text is empty, or a code point followed by a
    well-formed text. *)
Lemma utf8_valid_inv s :
  utf8_valid s = true -> s = "" \/ exists cp r, utf8_next s = Some (cp, r) /\ utf8_valid r = true.
Proof.
  intros H. destruct s as [|a t]; [by left|]. right.
  destruct (utf8_next (String a t)) as [[cp r]|] eqn:E.
  - exists cp, r. split; [done|]. by rewrite <- (utf8_valid_next _ _ _ E).
  - unfold utf8_valid in H. cbn [String.length utf8_valid_go] in H. by rewrite E in H.
Qed.

(** ** Reading the escapes back *)

Lemma hex_digit_char d : 0 <= d < 16 -> hex_digit (hex_char d) = Some d.
Proof.
  intros Hd.
  pose proof (range_check (fun d => match hex_digit (hex_char d) with Some e => e =? d | None => false end)
                0 16 ltac:(vm_compute; reflexivity) d ltac:(lia)) as H.
  cbv beta in H. destruct (hex_digit (hex_char d)) as [e|]; [|done]. apply Z.eqb_eq in H. by subst.
Qed.

(** The four digits [hex_quad] writes read back as [v]. *)
Lemma hex_quad_read v t : 0 <= v < 65536 ->
  exists h1 h2 h3 h4, hex_quad v +:+ t = String h1 (String h2 (String h3 (String h4 t)))
    /\ hex4 h1 h2 h3 h4 = Some v.
Proof.
  intros Hv. unfold hex_quad. rewrite !Z.shiftr_div_pow2 by lia.
  change 15 with (Z.ones 4). rewrite !Z.land_ones by lia.
  change (2 ^ 4) with 16; change (2 ^ 8) with 256; change (2 ^ 12) with 4096.
  eexists _, _, _, _. split; [by rewrite !string_app_cons, string_app_nil_l|].
  unfold hex4. rewrite !hex_digit_char by zdiv_lia. cbn. f_equal. zdiv_lia.
Qed.

Lemma scan_string_u h1 h2 h3 h4 t cp :
  hex4 h1 h2 h3 h4 = Some cp -> is_high_surrogate cp = false ->
  scan_string (String c_bslash (String "u" (String h1 (String h2 (String h3 (String h4 t))))))
  = prepend (utf8_encode cp) (scan_string t).
Proof. intros H1 H2. cbn [scan_string Ascii.eqb Bool.eqb andb c_quote c_bslash]. by rewrite H1, H2. Qed.

Lemma scan_string_u_pair h1 h2 h3 h4 k1 k2 k3 k4 t hi lo :
  hex4 h1 h2 h3 h4 = Some hi -> is_high_surrogate hi = true ->
  hex4 k1 k2 k3 k4 = Some lo -> is_low_surrogate lo = true -> t <> "" ->
  scan_string (String c_bslash (String "u" (String h1 (String h2 (String h3 (String h4
    (String c_bslash (String "u" (String k1 (String k2 (String k3 (String k4 t))))))))))))
  = prepend (utf8_encode (join_surrogates hi lo)) (scan_string t).
Proof.
  intros H1 H2 H3 H4 Ht. destruct t as [|x t]; [done|].
  cbn [scan_string Ascii.eqb Bool.eqb andb c_quote c_bslash]. by rewrite H1, H2, H3, H4.
Qed.

(** The two halves of the surrogate pair join back into the code point. *)
Lemma join_surrogates_split cp : 65536 <= cp < 1114112 ->
  join_surrogates (55296 - Z.shiftr 65536 10 + Z.shiftr cp 10) (56320 + Z.land cp 1023) = cp.
Proof.
  intros H. unfold join_surrogates. rewrite !Z.shiftr_div_pow2 by lia.
  change 1023 with (Z.ones 10). rewrite !Z.land_ones, Z.shiftl_mul_pow2 by lia.
  change (2 ^ 10) with 1024. change (65536 / 1024) with 64.
  rewrite (lor_disjoint _ _ 10); [| lia | change (2 ^ 10) with 1024; zdiv_lia | change (2 ^ 10) with 1024; zdiv_lia].
  zdiv_lia.
Qed.

(** An ASCII character read back from its escaped form: checked on the
    128 ASCII bytes. *)
Lemma scan_encode_ascii_byte a t :
  (code a <? 128) = true ->
  scan_string (encode_char_ascii (code a) +:+ t) = prepend (utf8_encode (code a)) (scan_string t).
Proof. destruct a as [[] [] [] [] [] [] [] []]; intros H; vm_compute in H; try discriminate H; reflexivity. Qed.

(** A code point read back from its escaped form, when something follows
    it (the closing quote, at least). *)
Lemma scan_encode_char_ascii cp t :
  scalar cp = true -> t <> "" ->
  scan_string (encode_char_ascii cp +:+ t) = prepend (utf8_encode cp) (scan_string t).
Proof.
  intros Hs Ht. unfold scalar, is_surrogate in Hs.
  destruct (decide (cp < 128)).
  { rewrite <- (code_byte cp) by zbool_lia. apply scan_encode_ascii_byte.
    rewrite code_byte by zbool_lia. zbool_lia. }
  unfold encode_char_ascii, ascii_escape_unichar, s_char.
  repeat (case_if; try zbool_lia); rewrite !string_app_assoc.
  - assert (Hhi : 0 <= 55296 - Z.shiftr 65536 10 + Z.shiftr cp 10 < 65536
                  /\ is_high_surrogate (55296 - Z.shiftr 65536 10 + Z.shiftr cp 10) = true).
    { rewrite !Z.shiftr_div_pow2 by lia. unfold is_high_surrogate. zbool. split; zbool_lia || zdiv_lia. }
    assert (Hlo : 0 <= 56320 + Z.land cp 1023 < 65536 /\ is_low_surrogate (56320 + Z.land cp 1023) = true).
    { change 1023 with (Z.ones 10). rewrite Z.land_ones by lia. change (2 ^ 10) with 1024.
      unfold is_low_surrogate. split; zdiv_lia. }
    destruct (hex_quad_read _ t (proj1 Hlo)) as (k1 & k2 & k3 & k4 & -> & K4).
    destruct (hex_quad_read _ (String "092"%char (String "u" (String k1 (String k2 (String k3 (String k4 t))))))
                (proj1 Hhi)) as (h1 & h2 & h3 & h4 & Hq & H4).
    rewrite !string_app_cons, !string_app_nil_l, Hq.
    etransitivity; [exact (scan_string_u_pair _ _ _ _ _ _ _ _ _ _ _ H4 (proj2 Hhi) K4 (proj2 Hlo) Ht)|].
    by rewrite join_surrogates_split by zbool_lia.
  - destruct (hex_quad_read cp t) as (h1 & h2 & h3 & h4 & -> & H4); [zbool_lia|].
    rewrite !string_app_cons, string_app_nil_l.
    apply scan_string_u; [done | unfold is_high_surrogate; zbool_lia].
Qed.

(** The decoder reads back the escaped text of well-formed UTF-8, up to
    the closing quote. *)
Lemma scan_string_escape_ascii s r :
  utf8_valid s = true -> scan_string (escape_ascii s +:+ String c_quote r) = Some (s, r).
Proof.
  remember (String.length s) as k eqn:Hk. revert s Hk.
  induction (lt_wf k) as [k _ IH]. intros s -> Hv.
  destruct (utf8_valid_inv s Hv) as [->|(cp & t & E & Ht)]; [reflexivity|].
  destruct (utf8_next_spec s cp t E) as [Hs Hsplit]. pose proof (utf8_next_len s cp t E) as Hl.
  rewrite (escape_ascii_next s cp t E), string_app_assoc.
  rewrite scan_encode_char_ascii by (done || (intros Hc; apply (f_equal String.length) in Hc;
                                              rewrite string_length_app in Hc; cbn in Hc; lia)).
  rewrite (IH (String.length t)) by (done || lia). by rewrite Hsplit.
Qed.

(** ** Theorems *)

(** Round trip of [json.dumps] with its default [ensure_ascii=True]: a
    value without floats and repeated keys, whose strings and keys are
    well-formed UTF-8, is decoded by [json.loads] to the same value. *)
Theorem json_roundtrip_ascii v : json_wf_ascii v = true -> json_loads (json_dumps_ascii v) = Some v.
Proof. apply (dumps_roundtrip escape_ascii utf8_valid). intros s r. apply scan_string_escape_ascii. Qed.

(** A name with an accented letter (two bytes) and one with a character
    outside the Basic Multilingual Plane (four bytes, a surrogate pair
    in the text): the two writers write different texts, and both read
    back. *)
Definition sample_unicode : json :=
  JArr [JObj [("name", JStr (String "195"%char (String "169"%char "")));
              ("mark", JStr (String "240"%char (String "159"%char (String "152"%char (String "128"%char "")))))]].

Lemma json_roundtrip_ascii_witness :
  json_dumps_ascii sample_unicode <> json_dumps sample_unicode
  /\ json_loads (json_dumps_ascii sample_unicode) = Some sample_unicode
  /\ json_loads (json_dumps sample_unicode) = Some sample_unicode.
Proof.
  split_and!; [vm_compute; discriminate | apply json_roundtrip_ascii | apply json_roundtrip];
    vm_compute; reflexivity.
Defined.
