(* ===== verification/Capacity.v ===== *)
(** * Capacity status of an inventory row ([product_transfer], lines 186-193)

    After moving stock, [product_transfer] reclassifies the inventory row of
    each warehouse:
<<
    capacity_percentage = (current_qty / max_capacity) * 100
    new_status = 'GOOD_CAPACITY' if capacity_percentage > threshold else 'LOW_CAPACITY'
>>
    [/] on two Python [int]s is true division: the correctly rounded binary64
    quotient, [ZeroDivisionError] when the divisor is zero; [* 100] is a
    binary64 product; [>] compares the float with the integer threshold
    exactly.  The model computes with the kernel's binary64 primitives
    ([PrimFloat]); it is exact for integers of magnitude at most [2^53],
    whose conversion to binary64 is exact (quantities, capacities and
    thresholds of a warehouse are far below).

    The specification (section 4.4 c) states the rule with exact
    arithmetic, [spec_status].  The theorems show where the two agree and
    where the rounding of [(q / m) * 100] departs from it. *)

From S2P Require Import Prelude.
From Stdlib Require PrimFloat Uint63.

(** The [status] column of [Inventory]. *)
Inductive status : Type := GOOD_CAPACITY | LOW_CAPACITY.

#[export] Instance status_eq_dec : EqDecision status.
Proof. solve_decision. Defined.

(** The binary64 value of a Python [int] (exact for [|z| <= 2^53]). *)
Definition float_of_Z (z : Z) : PrimFloat.float :=
  if z <? 0 then PrimFloat.opp (PrimFloat.of_uint63 (Uint63.of_Z (- z)))
  else PrimFloat.of_uint63 (Uint63.of_Z z).

(** [a / b] on Python [int]s: [None] is the [ZeroDivisionError]. *)
Definition py_true_div (a b : Z) : option PrimFloat.float :=
  if b =? 0 then None else Some (PrimFloat.div (float_of_Z a) (float_of_Z b)).

(** Lines 192-193: the status computed from the quantity, the maximal
    capacity and the threshold of the row; [None] when the division raises
    [ZeroDivisionError]. *)
Definition new_status (current_qty max_capacity threshold : Z) : option status :=
  match py_true_div current_qty max_capacity with
  | None => None
  | Some ratio =>
      let capacity_percentage := PrimFloat.mul ratio (float_of_Z 100) in
      Some (if PrimFloat.ltb (float_of_Z threshold) capacity_percentage
            then GOOD_CAPACITY else LOW_CAPACITY)
  end.

(** The rule of the specification with exact rational arithmetic:
    [100 * q / m > t], for a non-zero [m]. *)
Definition spec_status (q m t : Z) : status :=
  if (if 0 <? m then t * m <? 100 * q else 100 * q <? t * m)
  then GOOD_CAPACITY else LOW_CAPACITY.

(** The test that [new_status] agrees with the exact rule, or, at a row
    whose exact percentage is the threshold itself, says [GOOD_CAPACITY]. *)
Definition agrees_or_rounds_up (q m t : Z) : bool :=
  match new_status q m t with
  | Some s => bool_decide (s = spec_status q m t)
              || ((100 * q =? t * m) && bool_decide (s = GOOD_CAPACITY))
  | None => false
  end.

(** The rows with capacity [m] and quantity in [0..m] whose status the code
    gets wrong, for thresholds in [0..100]. *)
Definition misclassified (m : Z) : list (Z * Z) :=
  filter (fun '(q, t) => new_status q m t <> Some (spec_status q m t))
    (list_prod (seqZ 0 (m + 1)) (seqZ 0 101)).

(** ** Theorems *)



(** Boolean form of the bounded agreement, decided by evaluation. *)
Lemma agrees_or_rounds_up_table :
  forallb (fun m => forallb (fun q => forallb (fun t => agrees_or_rounds_up q m t)
                                              (seqZ 0 101))
                            (seqZ 0 (m + 1)))
          (seqZ 1 100) = true.
Proof. vm_compute. reflexivity. Qed.




(** The reclassification succeeds whenever the capacity is not zero. *)
Lemma new_status_defined q m t : m <> 0 -> is_Some (new_status q m t).
Proof.
  intros Hm. unfold new_status, py_true_div.
  rewrite (proj2 (Z.eqb_neq m 0) Hm). eauto.
Qed.
