(* ===== verification/Store.v ===== *)
(** * The relational store and the statements the handlers send to it

    The SQLite database [wms.db] is a record of tables.  A table with an
    integer primary key is a [gmap] from the key to the row; [Inventory]
    and [WarehouseCapacity] are unique per (warehouse, product) (the
    [ON CONFLICT(warehouse_id, product_id)] clause of the upsert relies on
    it), so they are [gmap]s keyed by the pair.  Only the columns that the
    handlers read or write are kept.

    [query A] lists the statements of [src/server.py], one constructor per
    statement text, indexed by the type of the rows the handler reads back
    from [execute_query]; [exec] is their effect on the store.  Each call of
    [execute_query] runs one statement in its own connection and commits it
    (the [with sqlite3.connect(...)] block), so [exec] is atomic and
    durable, and nothing spans two calls. *)

From S2P Require Import Prelude Json Capacity.
From Stdlib Require Import Ascii.

(** ** Tables *)

Record warehouse_row := mk_warehouse { warehouse_name : string }.
Record product_row := mk_product { product_name : string }.
Record inventory_row := mk_inventory { quantity : Z; inv_status : status }.
Record capacity_row := mk_capacity { max_capacity : Z; capacity_percentage : Z }.
(** The columns of a purchase order that the specification names (the
    table is created outside [src/]). *)
Record purchase_order_row :=
  mk_purchase_order { po_supplier_id : Z; po_total_amount : Z; po_warehouse_id : Z }.
(** A row of the receipt detail view, as the dict [dict(row)] of its
    columns (the view's column list is outside [src/]); its [items] column
    holds the line items as one serialised JSON text. *)
Record receipt_row := mk_receipt { receipt_columns : list (string * json) }.

Record db := mk_db {
  Warehouse : gmap Z warehouse_row;
  Product : gmap Z product_row;
  Supplier : gset Z;
  Inventory : gmap (Z * Z) inventory_row;
  WarehouseCapacity : gmap (Z * Z) capacity_row;
  PurchaseOrder : gmap Z purchase_order_row;
  ProductReceipt : gmap Z receipt_row;
}.

Definition set_Inventory (inv : gmap (Z * Z) inventory_row) (s : db) : db :=
  {| Warehouse := Warehouse s; Product := Product s; Supplier := Supplier s;
     Inventory := inv; WarehouseCapacity := WarehouseCapacity s;
     PurchaseOrder := PurchaseOrder s; ProductReceipt := ProductReceipt s |}.

(** A row of the per-warehouse product listing. *)
Record listing_row := mk_listing {
  l_product_id : Z; l_product_name : string; l_quantity : Z; l_status : status;
  l_max_capacity : option Z;
}.

(** ** Statements *)

(** A query-string value is bound as text; compared with an INTEGER
    column, SQLite converts a text that reads as a decimal integer in the
    64-bit range to that integer, and any other text matches no id. *)
Definition digit_value (c : ascii) : option Z :=
  let n := Z.of_nat (Ascii.nat_of_ascii c) - 48 in
  if (0 <=? n) && (n <=? 9) then Some n else None.

Fixpoint digits_value (acc : Z) (s : string) : option Z :=
  match s with
  | EmptyString => Some acc
  | String c rest => d ← digit_value c; digits_value (10 * acc + d) rest
  end.

Definition text_key (s : string) : option Z :=
  let v := match s with
           | String "-" (String _ _ as rest) => Z.opp <$> digits_value 0 rest
           | String "+" (String _ _ as rest) => digits_value 0 rest
           | String _ _ => digits_value 0 s
           | EmptyString => None
           end in
  match v with Some z => if in_int64 z then Some z else None | None => None end.

Inductive query : Type -> Type :=
(** [SELECT warehouse_name FROM Warehouse WHERE id = ?] (line 36), with the
    query-string parameter bound as text ([text_key]) *)
| SelectWarehouseName (w : option Z) : query (list string)
(** [SELECT id FROM Warehouse WHERE id = ?] (line 101), text parameter *)
| SelectWarehouseId (w : option Z) : query (list Z)
(** [SELECT id FROM Supplier WHERE id = ?] (line 80) *)
| SelectSupplierId (sid : Z) : query (list Z)
(** [SELECT id, warehouse_name FROM Warehouse WHERE id IN (?, ?)]
    (lines 124-127) *)
| SelectWarehousesIn (a b : Z) : query (list (Z * string))
(** [SELECT i.quantity, p.product_name FROM Inventory i JOIN Product p
    ON p.id = i.product_id WHERE i.warehouse_id = ? AND i.product_id = ?]
    (lines 145-150) *)
| SelectSourceInventory (w p : Z) : query (list (Z * string))
(** [UPDATE Inventory SET quantity = quantity - ? WHERE warehouse_id = ?
    AND product_id = ?] (lines 160-164) *)
| UpdateSubtractQuantity (q w p : Z) : query unit
(** [INSERT INTO Inventory (warehouse_id, product_id, quantity, status)
    VALUES (?, ?, ?, 'GOOD_CAPACITY') ON CONFLICT(warehouse_id, product_id)
    DO UPDATE SET quantity = quantity + ? RETURNING id] (lines 167-173); the
    returned id is never read by the handler. *)
| UpsertAddQuantity (w p q : Z) : query unit
(** [SELECT i.quantity, wc.max_capacity, wc.capacity_percentage FROM
    Inventory i JOIN WarehouseCapacity wc ON ... WHERE i.warehouse_id = ?
    AND i.product_id = ?] (lines 178-184) *)
| SelectInventoryCapacity (w p : Z) : query (list (Z * Z * Z))
(** [UPDATE Inventory SET status = ? WHERE warehouse_id = ? AND
    product_id = ?] (lines 195-199) *)
| UpdateStatus (st : status) (w p : Z) : query unit
(** The view statements imported from [commands/views] (outside [src/]),
    modelled from the specification (section 4.2): *)
(** [warehouse_home_display_query]: every warehouse with its name *)
| HomeDisplay : query (list (Z * string))
(** [warehouse_display_prodcuts_query]: the inventory rows of a warehouse
    with the product name and the capacity *)
| DisplayProducts (w : option Z) : query (list listing_row)
(** [warehouse_fill_capacity_query]: the rows of a warehouse that need
    filling, those classified [LOW_CAPACITY] *)
| FillCapacity (w : option Z) : query (list listing_row)
(** [product_receipt_detail_query]: the row of the receipt with the id,
    text parameter *)
| ReceiptDetail (rid : option Z) : query (list (list (string * json)))
(** [create_purchase_order_query]: insert an order for the supplier with
    the amount, in warehouse 1, and return the new row with its id *)
| CreatePurchaseOrder (sid amount : Z) : query (list (Z * purchase_order_row)).

(** The integer parameters a statement binds, in order. *)
Definition query_params {A} (q : query A) : list Z :=
  match q with
  | SelectWarehouseName _ | SelectWarehouseId _ | DisplayProducts _ | FillCapacity _
  | ReceiptDetail _ => []
  | HomeDisplay => []
  | CreatePurchaseOrder sid amount => [sid; amount]
  | SelectSupplierId sid => [sid]
  | SelectWarehousesIn a b => [a; b]
  | SelectSourceInventory w p | SelectInventoryCapacity w p => [w; p]
  | UpdateSubtractQuantity q w p => [q; w; p]
  | UpsertAddQuantity w p q => [w; p; q; q]
  | UpdateStatus _ w p => [w; p]
  end.

(** ** Effect of a statement *)

(** The rows of [Warehouse] whose id is [a] or [b]. *)
Definition warehouses_in (s : db) (a b : Z) : list (Z * string) :=
  (fun '(i, r) => (i, warehouse_name r))
    <$> filter (fun '(i, _) => i = a \/ i = b) (map_to_list (Warehouse s)).

(** The row of the upsert: a new row [GOOD_CAPACITY] with quantity [q], or
    the existing row with [q] added to its quantity. *)
Definition upsert_row (q : Z) (old : option inventory_row) : inventory_row :=
  match old with
  | None => mk_inventory q GOOD_CAPACITY
  | Some r => mk_inventory (quantity r + q) (inv_status r)
  end.

(** The rows of the inventory of warehouse [w] joined with their product
    and, when there is one, their capacity row. *)
Definition listing (s : db) (w : Z) : list listing_row :=
  omap (fun '((w', p), r) =>
          if decide (w' = w) then
            pr ← Product s !! p;
            Some (mk_listing p (product_name pr) (quantity r) (inv_status r)
                    (max_capacity <$> WarehouseCapacity s !! (w, p)))
          else None)
       (map_to_list (Inventory s)).

(** The id SQLite gives a new row of a table with an integer key: one more
    than the largest id, 1 for an empty table. *)
Definition next_id {V} (m : gmap Z V) : Z := map_fold (fun k _ acc => Z.max k acc) 0 m + 1.

Definition exec {A} (q : query A) (s : db) : A * db :=
  match q in query A return A * db with
  | SelectWarehouseName w =>
      (from_option (fun r => [warehouse_name r]) [] (w ≫= fun w => Warehouse s !! w), s)
  | SelectWarehouseId w =>
      (from_option (fun w => from_option (fun _ => [w]) [] (Warehouse s !! w)) [] w, s)
  | SelectSupplierId sid => (if decide (sid ∈ Supplier s) then [sid] else [], s)
  | SelectWarehousesIn a b => (warehouses_in s a b, s)
  | SelectSourceInventory w p =>
      (match Inventory s !! (w, p), Product s !! p with
       | Some i, Some pr => [(quantity i, product_name pr)]
       | _, _ => []
       end, s)
  | UpdateSubtractQuantity q w p =>
      (tt, set_Inventory
             (alter (fun r => mk_inventory (quantity r - q) (inv_status r)) (w, p)
                (Inventory s)) s)
  | UpsertAddQuantity w p q =>
      (tt, set_Inventory (<[(w, p) := upsert_row q (Inventory s !! (w, p))]> (Inventory s)) s)
  | SelectInventoryCapacity w p =>
      (match Inventory s !! (w, p), WarehouseCapacity s !! (w, p) with
       | Some i, Some c => [(quantity i, max_capacity c, capacity_percentage c)]
       | _, _ => []
       end, s)
  | UpdateStatus st w p =>
      (tt, set_Inventory (alter (fun r => mk_inventory (quantity r) st) (w, p) (Inventory s)) s)
  | HomeDisplay => ((fun '(i, r) => (i, warehouse_name r)) <$> map_to_list (Warehouse s), s)
  | DisplayProducts w => (from_option (listing s) [] w, s)
  | FillCapacity w =>
      (from_option (fun w => filter (fun l => l_status l = LOW_CAPACITY) (listing s w)) [] w, s)
  | ReceiptDetail rid =>
      (from_option (fun rid => from_option (fun r => [receipt_columns r]) [] (ProductReceipt s !! rid)) [] rid, s)
  | CreatePurchaseOrder sid amount =>
      let id := next_id (PurchaseOrder s) in
      let row := mk_purchase_order sid amount 1 in
      ([(id, row)],
       {| Warehouse := Warehouse s; Product := Product s; Supplier := Supplier s;
          Inventory := Inventory s; WarehouseCapacity := WarehouseCapacity s;
          PurchaseOrder := <[id := row]> (PurchaseOrder s); ProductReceipt := ProductReceipt s |})
  end.

(** ** Lemmas *)

(** The statements that only read. *)
Definition read_query {A} (q : query A) : bool :=
  match q with
  | UpdateSubtractQuantity _ _ _ | UpsertAddQuantity _ _ _ | UpdateStatus _ _ _
  | CreatePurchaseOrder _ _ => false
  | _ => true
  end.

Lemma exec_read {A} (q : query A) s : read_query q = true -> (exec q s).2 = s.
Proof. by destruct q. Qed.

(** Every id of the table is below the id of the next row. *)
Lemma next_id_fresh {V} (m : gmap Z V) k : is_Some (m !! k) -> k < next_id m.
Proof.
  unfold next_id. revert k.
  cut (forall k, is_Some (m !! k) -> k <= map_fold (fun k _ acc => Z.max k acc) 0 m);
    [intros H k Hk; specialize (H k Hk); lia|].
  apply (map_fold_weak_ind (fun r m => forall k, is_Some (m !! k) -> k <= r)).
  - intros k [? Hk]. by rewrite lookup_empty in Hk.
  - intros i x m' r Hi IH k Hk. rewrite lookup_insert in Hk.
    case_decide; subst; [lia|]. specialize (IH k Hk). lia.
Qed.

Lemma next_id_None {V} (m : gmap Z V) : m !! next_id m = None.
Proof.
  destruct (m !! next_id m) eqn:E; [|done].
  assert (H : next_id m < next_id m) by (apply next_id_fresh; eauto). lia.
Qed.
