(* ===== verification/Gateway.v ===== *)
(** * The data access gateway [execute_query] and the handlers' programs

    Every handler of [src/server.py] reaches the store only through
    [execute_query(query, params)] (lines 15-20): bind the parameters, run
    one statement in a fresh connection, commit, return the rows.  A handler
    is therefore a program tree [prog]: a [Call] sends one statement and
    continues with the rows it returns ([k]), or, when the store raises
    [sqlite3.Error] with a message, with the [except] branch that encloses
    the call in the handler ([h]).  A [Ret] is the handler's result: an HTTP
    response, or an exception that escapes the handler (Flask answers 500).

    - [run] executes a program against a store that never fails;
    - [run_sched] executes it against a store that fails at the calls a
      fault schedule designates (a lost connection, a locked database, a
      constraint of the schema): each entry of the schedule is consumed by
      one call, [Some msg] making that call raise [sqlite3.Error(msg)];
    - binding a parameter outside the 64-bit range of SQLite raises
      [OverflowError] (Python's [sqlite3] module), which no handler
      catches. *)

From S2P Require Import Prelude Json Capacity Store.

(** ** Results of a handler *)

(** The Python exceptions a handler can let escape. *)
Inductive py_exn : Type :=
| ZeroDivisionError
| KeyError (key : string)
| IndexError
| OverflowError
| SqliteError (msg : string)
| JSONDecodeError
(** [json.loads] of a value that is not a text (a NULL column), or an
    operator applied to a value of the wrong type *)
| TypeError
(** [data.get(...)] on a request body that is not a dict *)
| AttributeError.

(** A handler returns a response with its status code and JSON body, or
    lets an exception escape. *)
Inductive outcome : Type :=
| Response (code : Z) (body : json)
| Uncaught (e : py_exn).

(** The status code the client sees: Flask turns an escaping exception into
    a 500 response. *)
Definition http_code (o : outcome) : Z :=
  match o with Response c _ => c | Uncaught _ => 500 end.

(** ** Programs *)

Inductive prog : Type :=
| Ret (o : outcome)
| Call {A : Type} (q : query A) (k : A -> prog) (h : string -> prog).

(** A call outside any [try]: an [sqlite3.Error] escapes the handler. *)
Definition call_unguarded {A} (q : query A) (k : A -> prog) : prog :=
  Call q k (fun msg => Ret (Uncaught (SqliteError msg))).

Declare Scope prog_scope.
Delimit Scope prog_scope with prog.

Notation "x <- q 'except' h ;; k" := (Call q (fun x => k) h)
  (at level 100, q at next level, h at next level, right associativity) : prog_scope.
Notation "x <- q ;; k" := (call_unguarded q (fun x => k))
  (at level 100, q at next level, right associativity) : prog_scope.

(** [execute_query] binds every integer parameter as a 64-bit integer. *)
Definition params_ok {A} (q : query A) : bool := forallb in_int64 (query_params q).

(** ** Sequential semantics without store faults *)

Fixpoint run (p : prog) (s : db) : outcome * db :=
  match p with
  | Ret o => (o, s)
  | Call q k _ =>
      if params_ok q then let '(a, s') := exec q s in run (k a) s'
      else (Uncaught OverflowError, s)
  end.

(** ** Sequential semantics with store faults *)

Fixpoint run_sched (sched : list (option string)) (p : prog) (s : db) : outcome * db :=
  match p with
  | Ret o => (o, s)
  | Call q k h =>
      if params_ok q then
        match sched with
        | Some msg :: rest => run_sched rest (h msg) s
        | _ => let '(a, s') := exec q s in run_sched (tail sched) (k a) s'
        end
      else (Uncaught OverflowError, s)
  end.

(** Programs that send only reading statements. *)
Inductive read_only : prog -> Prop :=
| ro_ret o : read_only (Ret o)
| ro_call A (q : query A) k h :
    read_query q = true -> (forall a, read_only (k a)) -> read_only (Call q k h).

(** ** Lemmas *)

Lemma run_call {A} (q : query A) k h s :
  params_ok q = true -> run (Call q k h) s = run (k (exec q s).1) (exec q s).2.
Proof. intros Hp. simpl. rewrite Hp. by destruct (exec q s). Qed.

Lemma run_call_overflow {A} (q : query A) k h s :
  params_ok q = false -> run (Call q k h) s = (Uncaught OverflowError, s).
Proof. intros Hp. simpl. by rewrite Hp. Qed.

(** A schedule without faults runs the program as [run] does. *)
Lemma run_sched_no_fault (sched : list (option string)) p s :
  Forall (fun f => f = None) sched -> run_sched sched p s = run p s.
Proof.
  revert sched s. induction p as [o|A q k IH h IHh]; intros sched s Hs; simpl; [done|].
  destruct (params_ok q); [|done].
  destruct sched as [|[msg|] rest]; simpl.
  - destruct (exec q s). apply IH. constructor.
  - inversion Hs; discriminate.
  - destruct (exec q s). apply IH. by inversion Hs.
Qed.

Lemma run_sched_nil p s : run_sched [] p s = run p s.
Proof. apply run_sched_no_fault. constructor. Qed.

Lemma params_ok_intro {A} (q : query A) :
  Forall (fun z => in_int64 z = true) (query_params q) -> params_ok q = true.
Proof.
  intros H. apply forallb_forall. intros z Hz%list_elem_of_In.
  by eapply Forall_forall in H.
Qed.

(** [solve_params] proves that a statement binds only 64-bit integers from
    hypotheses [in_int64 x = true] on its parameters. *)
Ltac solve_params :=
  apply params_ok_intro; cbn [query_params];
  repeat first [apply Forall_nil_2 | apply Forall_cons_2; [auto with wms|]].

(** [overflow_params] proves that a statement binds an integer that is not
    64-bit, from the hypothesis [in_int64 x = false] on one parameter. *)
Ltac overflow_params :=
  unfold params_ok; cbn [query_params forallb];
  repeat match goal with H : in_int64 _ = _ |- _ => rewrite H end; reflexivity.

Lemma run_sched_call_ok {A} (q : query A) k h rest s :
  params_ok q = true ->
  run_sched (None :: rest) (Call q k h) s = run_sched rest (k (exec q s).1) (exec q s).2.
Proof. intros Hp. simpl. rewrite Hp. by destruct (exec q s). Qed.

Lemma run_sched_call_fault {A} (q : query A) k h msg rest s :
  params_ok q = true -> run_sched (Some msg :: rest) (Call q k h) s = run_sched rest (h msg) s.
Proof. intros Hp. simpl. by rewrite Hp. Qed.


Lemma run_read_only p s : read_only p -> (run p s).2 = s.
Proof.
  induction 1 as [o|A q k h Hq Hk IH]; [done|]. simpl.
  destruct (params_ok q); [|done].
  pose proof (exec_read q s Hq). destruct (exec q s) as [a s']. simpl in *. subst. apply IH.
Qed.

(** ** Observational equivalence of programs *)

(** Two programs are equivalent when, under every schedule of store
    faults and from every store, they give the same answer and leave the
    same store.  Programs are trees whose continuations are functions, so
    two programs that send the same statements are equivalent without
    being equal. *)
#[export] Instance prog_equiv : Equiv prog :=
  fun p p' => forall sched s, run_sched sched p s = run_sched sched p' s.

#[export] Instance prog_equiv_Equivalence : Equivalence (≡@{prog}).
Proof.
  split.
  - intros p sched s. done.
  - intros p p' H sched s. by rewrite H.
  - intros p p' p'' H H' sched s. by rewrite H, H'.
Qed.

#[export] Instance Call_proper {A} (q : query A) :
  Proper (pointwise_relation A (≡) ==> pointwise_relation string (≡) ==> (≡)) (Call q).
Proof.
  intros k k' Hk h h' Hh sched s. cbn [run_sched]. destruct (params_ok q); [|done].
  destruct sched as [|[msg|] rest]; [| apply Hh |]; destruct (exec q s); apply Hk.
Qed.

#[export] Instance run_proper : Proper ((≡) ==> eq ==> eq) run.
Proof. intros p p' H s ? <-. by rewrite <- !run_sched_nil, H. Qed.
