(* ===== verification/Transfer.v ===== *)
(** * The transfer operation [product_transfer] (src/server.py, lines 111-216)

    [PUT /v1/warehouse/transfer/] moves quantities of products from one
    warehouse to another.  The handler validates the request (required
    fields, distinct warehouses, both warehouses present), then processes
    the items of [products_to_get] in order: check the quantity, read the
    source row, check the stock, subtract from the source, upsert the
    destination, reclassify the status of both rows, record the transfer.
    The first failing item ends the request with its error; the statements
    of the earlier items have been committed one by one and stay.

    [product_transfer] is the handler as a [Gateway.prog]; the request body
    is a record whose fields are [None] when the key is missing.  Ids and
    quantities are JSON integers (a body whose values have other JSON types
    is outside the model). *)

From S2P Require Import Prelude Json Capacity Store Gateway.

Local Open Scope prog_scope.
Local Open Scope string_scope.
Local Open Scope Z_scope.

(** ** Requests and responses *)

Record product_item := mk_item {
  product_id : option Z;
  quantity_needed : option Z;
}.

Record transfer_request := mk_request {
  from_warehouse : option Z;
  to_warehouse : option Z;
  products_to_get : option (list product_item);
}.

(** One entry of the [transfers] list of the response (lines 201-207). *)
Record transfer_entry := mk_entry {
  te_product_id : Z;
  te_product_name : string;
  te_quantity : Z;
  te_from_warehouse : string;
  te_to_warehouse : string;
}.

Definition entry_json (e : transfer_entry) : json :=
  JObj [("product_id", JInt (te_product_id e));
        ("product_name", JStr (te_product_name e));
        ("quantity", JInt (te_quantity e));
        ("from_warehouse", JStr (te_from_warehouse e));
        ("to_warehouse", JStr (te_to_warehouse e))].

Definition required_fields : list string :=
  ["from_warehouse"; "to_warehouse"; "products_to_get"].

Definition missing_fields : outcome :=
  Response 400 (JObj [("error", JStr "Missing required fields");
                      ("required", JArr (JStr <$> required_fields))]).

Definition same_warehouse : outcome :=
  Response 400 (error_body "Source and destination warehouses must be different").

Definition warehouses_missing : outcome :=
  Response 404 (error_body "One or both warehouses do not exist").

Definition invalid_quantity (pid : Z) : outcome :=
  Response 400 (error_body ("Invalid quantity for product " +:+ py_str_int pid
                            +:+ ". Must be greater than 0")).

Definition product_not_found (pid : Z) : outcome :=
  Response 404 (error_body ("Product " +:+ py_str_int pid +:+ " not found in source warehouse")).

Definition insufficient_inventory (pid available requested : Z) : outcome :=
  Response 400 (JObj [("error", JStr ("Insufficient inventory for product " +:+ py_str_int pid));
                      ("available", JInt available); ("requested", JInt requested)]).

Definition transfer_success (transfers : list transfer_entry) : outcome :=
  Response 200 (JObj [("status", JStr "success");
                      ("message", JStr "Products transferred successfully");
                      ("transfers", JArr (entry_json <$> transfers))]).

(** The [except sqlite3.Error as e] branch of lines 215-216. *)
Definition store_error (msg : string) : prog := Ret (Response 500 (error_body msg)).

(** [warehouse_names[str(w)]] in the dict built at line 133 from the rows
    of the warehouse query (a later row with the same id wins). *)
Definition warehouse_names_lookup (names : list (Z * string)) (w : Z) : option string :=
  fold_left (fun acc '(i, n) => if i =? w then Some n else acc) names None.

(** ** The handler *)

(** Lines 176-199: reclassify the row of product [pid] in each warehouse of
    [ws], in order, then continue with [k]. *)
Fixpoint update_statuses (ws : list Z) (pid : Z) (k : prog) : prog :=
  match ws with
  | [] => k
  | w :: ws' =>
      rows <- SelectInventoryCapacity w pid except store_error ;;
      match rows with
      | [] => update_statuses ws' pid k
      | (current_qty, max_cap, threshold) :: _ =>
          match new_status current_qty max_cap threshold with
          | None => Ret (Uncaught ZeroDivisionError)
          | Some st =>
              _ <- UpdateStatus st w pid except store_error ;;
              update_statuses ws' pid k
          end
      end
  end.

(** Lines 153-207: the rest of one iteration once [source_inventory] has
    been read: the stock check, the two quantity statements, the status
    loop, the entry of the response; [next] continues the loop with the
    entry. *)
Definition transfer_checked (src dst : Z) (names : list (Z * string)) (pid qn : Z)
    (source_inventory : list (Z * string)) (next : transfer_entry -> prog) : prog :=
  match source_inventory with
  | [] => Ret (product_not_found pid)
  | (available, pname) :: _ =>
      if available <? qn then Ret (insufficient_inventory pid available qn) else
      _ <- UpdateSubtractQuantity qn src pid except store_error ;;
      _ <- UpsertAddQuantity dst pid qn except store_error ;;
      update_statuses [src; dst] pid
        (match warehouse_names_lookup names src with
         | None => Ret (Uncaught (KeyError (py_str_int src)))
         | Some from_name =>
         match warehouse_names_lookup names dst with
         | None => Ret (Uncaught (KeyError (py_str_int dst)))
         | Some to_name => next (mk_entry pid pname qn from_name to_name)
         end end)
  end.

(** Lines 137-213: the loop over [products_to_get]; [transfers] is the list
    of entries recorded so far. *)
Fixpoint transfer_loop (src dst : Z) (names : list (Z * string))
    (items : list product_item) (transfers : list transfer_entry) : prog :=
  match items with
  | [] => Ret (transfer_success transfers)
  | item :: rest =>
      match product_id item with
      | None => Ret (Uncaught (KeyError "product_id"))
      | Some pid =>
      match quantity_needed item with
      | None => Ret (Uncaught (KeyError "quantity_needed"))
      | Some qn =>
      if qn <=? 0 then Ret (invalid_quantity pid) else
      source_inventory <- SelectSourceInventory src pid except store_error ;;
      transfer_checked src dst names pid qn source_inventory
        (fun e => transfer_loop src dst names rest (transfers ++ [e]))
      end end
  end.

Definition product_transfer (req : transfer_request) : prog :=
  match from_warehouse req, to_warehouse req, products_to_get req with
  | Some src, Some dst, Some items =>
      if src =? dst then Ret same_warehouse else
      warehouses <- SelectWarehousesIn src dst ;;
      if negb (length warehouses =? 2)%nat then Ret warehouses_missing else
      transfer_loop src dst warehouses items []
  | _, _, _ => Ret missing_fields
  end.

(** ** A concrete store *)

(** Warehouses 1 ("A") and 2 ("B"); supplier 3; product 7 ("P") with 20 units in A
    and no row in B; capacities 100 with threshold 50 on both sides. *)
Definition sample_db : db :=
  {| Warehouse := <[1 := mk_warehouse "A"]> (<[2 := mk_warehouse "B"]> ∅);
     Product := <[7 := mk_product "P"]> ∅;
     Supplier := {[3]};
     Inventory := <[(1, 7) := mk_inventory 20 LOW_CAPACITY]> ∅;
     WarehouseCapacity := <[(1, 7) := mk_capacity 100 50]> (<[(2, 7) := mk_capacity 100 50]> ∅);
     PurchaseOrder := ∅;
     ProductReceipt := ∅ |}.

(** The same store with a zero maximal capacity for product 7 in warehouse 2. *)
Definition sample_db_zero_cap : db :=
  {| Warehouse := Warehouse sample_db; Product := Product sample_db;
     Supplier := Supplier sample_db; Inventory := Inventory sample_db;
     WarehouseCapacity := <[(2, 7) := mk_capacity 0 50]> (WarehouseCapacity sample_db);
     PurchaseOrder := ∅; ProductReceipt := ∅ |}.

(** The scenario of the specification (section 8): 10 units of product 7
    from warehouse 1 to warehouse 2. *)
Definition sample_request : transfer_request :=
  mk_request (Some 1) (Some 2) (Some [mk_item (Some 7) (Some 10)]).
