(* ===== verification/TransferSpec.v ===== *)
(** * An abstract specification of [product_transfer] and the refinement

    [transfer_spec] describes the transfer as a pure function of the store,
    with no statements, rows or dicts: two warehouse lookups, then a fold
    over the items, each item either stopping the request with its response
    or moving its quantity ([move_stock]) and reclassifying both rows
    ([restatus_all]).  [transfer_refines_spec] proves that the handler,
    executed statement by statement through the gateway, computes exactly
    this function; the properties of the transfer are proved on the
    specification and hold of the handler through it. *)

From S2P Require Import Prelude Json Capacity Store Gateway Transfer.

Local Open Scope Z_scope.

(** ** Operations on the store *)

(** The quantity of product [p] in warehouse [w]; [0] when there is no row. *)
Definition qty (s : db) (w p : Z) : Z := from_option quantity 0 (Inventory s !! (w, p)).

(** Subtract [qn] from the row [(src, p)], then add it to the row
    [(dst, p)], creating it if needed. *)
Definition move_stock (src dst p qn : Z) (s : db) : db :=
  let inv1 := alter (fun r => mk_inventory (quantity r - qn) (inv_status r)) (src, p) (Inventory s) in
  set_Inventory (<[(dst, p) := upsert_row qn (inv1 !! (dst, p))]> inv1) s.

Definition set_status (w p : Z) (st : status) (s : db) : db :=
  set_Inventory (alter (fun r => mk_inventory (quantity r) st) (w, p) (Inventory s)) s.

(** The end of a step: continue with a value and a store, or stop the
    request with an outcome and the store as it is then. *)
Inductive step_result (A : Type) : Type :=
| Next (a : A) (s : db)
| Stop (o : outcome) (s : db).
Arguments Next {A}.
Arguments Stop {A}.

(** Reclassify the row [(w, p)] when it has a capacity row. *)
Definition restatus (w p : Z) (s : db) : step_result unit :=
  match Inventory s !! (w, p), WarehouseCapacity s !! (w, p) with
  | Some r, Some c =>
      match new_status (quantity r) (max_capacity c) (capacity_percentage c) with
      | None => Stop (Uncaught ZeroDivisionError) s
      | Some st => Next tt (set_status w p st s)
      end
  | _, _ => Next tt s
  end.

Fixpoint restatus_all (ws : list Z) (p : Z) (s : db) : step_result unit :=
  match ws with
  | [] => Next tt s
  | w :: ws' =>
      match restatus w p s with
      | Next _ s' => restatus_all ws' p s'
      | Stop o s' => Stop o s'
      end
  end.

(** One item of [products_to_get], moved from [src] to [dst] (named
    [fname] and [tname]). *)
Definition item_spec (src dst : Z) (fname tname : string) (item : product_item) (s : db)
    : step_result transfer_entry :=
  match product_id item, quantity_needed item with
  | None, _ => Stop (Uncaught (KeyError "product_id")) s
  | Some pid, None => Stop (Uncaught (KeyError "quantity_needed")) s
  | Some pid, Some qn =>
      if qn <=? 0 then Stop (invalid_quantity pid) s
      else if negb (in_int64 pid) then Stop (Uncaught OverflowError) s
      else match Inventory s !! (src, pid), Product s !! pid with
      | Some r, Some pr =>
          if quantity r <? qn then Stop (insufficient_inventory pid (quantity r) qn) s
          else if negb (in_int64 qn) then Stop (Uncaught OverflowError) s
          else match restatus_all [src; dst] pid (move_stock src dst pid qn s) with
          | Next _ s' => Next (mk_entry pid (product_name pr) qn fname tname) s'
          | Stop o s' => Stop o s'
          end
      | _, _ => Stop (product_not_found pid) s
      end
  end.

Fixpoint items_spec (src dst : Z) (fname tname : string) (items : list product_item)
    (transfers : list transfer_entry) (s : db) : outcome * db :=
  match items with
  | [] => (transfer_success transfers, s)
  | item :: rest =>
      match item_spec src dst fname tname item s with
      | Next e s' => items_spec src dst fname tname rest (transfers ++ [e]) s'
      | Stop o s' => (o, s')
      end
  end.

Definition transfer_spec (req : transfer_request) (s : db) : outcome * db :=
  match from_warehouse req, to_warehouse req, products_to_get req with
  | Some src, Some dst, Some items =>
      if src =? dst then (same_warehouse, s)
      else if negb (in_int64 src && in_int64 dst) then (Uncaught OverflowError, s)
      else match Warehouse s !! src, Warehouse s !! dst with
      | Some ws, Some wd => items_spec src dst (warehouse_name ws) (warehouse_name wd) items [] s
      | _, _ => (warehouses_missing, s)
      end
  | _, _, _ => (missing_fields, s)
  end.

(** The store a step ends with. *)
Definition sr_db {A} (r : step_result A) : db := match r with Next _ s | Stop _ s => s end.

(** [δ k x qn] is [qn] at the row [k] and [0] elsewhere. *)
Definition δ (k x : Z * Z) (qn : Z) : Z := if decide (x = k) then qn else 0.

(** ** The warehouse query and the dict of names *)

Lemma warehouses_in_elem s a b i n :
  (i, n) ∈ warehouses_in s a b <->
  (i = a \/ i = b) /\ exists r, Warehouse s !! i = Some r /\ n = warehouse_name r.
Proof.
  unfold warehouses_in. rewrite list_elem_of_fmap. split.
  - intros ([j r] & [= -> ->] & Hin).
    apply list_elem_of_filter in Hin as [Hab Hin].
    apply elem_of_map_to_list in Hin. eauto.
  - intros (Hab & r & Hr & ->). exists (i, r). split; [done|].
    apply list_elem_of_filter. split; [done|]. by apply elem_of_map_to_list.
Qed.

Lemma warehouses_in_keys s a b :
  (warehouses_in s a b).*1 = (filter (fun '(i, _) => i = a \/ i = b) (map_to_list (Warehouse s))).*1.
Proof.
  unfold warehouses_in. generalize (filter (fun '(i, _) => i = a \/ i = b) (map_to_list (Warehouse s))).
  intros l. induction l as [|[i r] l IH]; [done|]. cbn. f_equal. exact IH.
Qed.

Lemma warehouses_in_NoDup s a b : NoDup ((warehouses_in s a b).*1).
Proof. rewrite warehouses_in_keys. apply NoDup_fst_filter, NoDup_fst_map_to_list. Qed.

Lemma warehouses_in_key s a b i :
  i ∈ (warehouses_in s a b).*1 <-> (i = a \/ i = b) /\ is_Some (Warehouse s !! i).
Proof.
  rewrite list_elem_of_fmap. split.
  - intros ([j n] & -> & Hin%warehouses_in_elem). naive_solver.
  - intros (Hab & r & Hr). exists (i, warehouse_name r).
    split; [done|]. apply warehouses_in_elem. eauto.
Qed.

(** With two distinct ids, the query returns two rows exactly when both
    warehouses exist. *)
Lemma warehouses_in_length s a b :
  a <> b ->
  (length (warehouses_in s a b) = 2)%nat <->
  is_Some (Warehouse s !! a) /\ is_Some (Warehouse s !! b).
Proof.
  intros Hab. rewrite <- (length_fmap fst).
  pose proof (warehouses_in_NoDup s a b) as Hnd.
  split.
  - intros Hlen. split; apply not_eq_None_Some; intros Hnone.
    + assert (length (warehouses_in s a b).*1 <= length [b])%nat; [|simpl in *; lia].
      apply NoDup_incl_length; [by apply NoDup_ListNoDup|]. intros i Hi%list_elem_of_In.
      apply warehouses_in_key in Hi as [[->| ->] Hs]; [|by left].
      rewrite Hnone in Hs. by destruct Hs.
    + assert (length (warehouses_in s a b).*1 <= length [a])%nat; [|simpl in *; lia].
      apply NoDup_incl_length; [by apply NoDup_ListNoDup|]. intros i Hi%list_elem_of_In.
      apply warehouses_in_key in Hi as [[->| ->] Hs]; [by left|].
      rewrite Hnone in Hs. by destruct Hs.
  - intros [Ha Hb]. change 2%nat with (length [a; b]).
    apply Permutation_length, NoDup_Permutation; [done| |].
    + constructor; [set_solver|]. repeat constructor. set_solver.
    + intros i. rewrite warehouses_in_key. set_solver.
Qed.

(** [warehouse_names[str(w)]] finds the name of a row of the query. *)
Lemma warehouse_names_lookup_elem (names : list (Z * string)) w n :
  NoDup names.*1 -> (w, n) ∈ names -> warehouse_names_lookup names w = Some n.
Proof.
  unfold warehouse_names_lookup. generalize (@None string).
  induction names as [|[i m] names IH]; intros acc Hnd Hin; [set_solver|].
  simpl in *. apply NoDup_cons in Hnd as [Hi Hnd].
  apply elem_of_cons in Hin as [[= <- <-]|Hin]; [|apply IH; auto].
  rewrite Z.eqb_refl. clear IH.
  generalize (Some n) as acc'. induction names as [|[j k] names IH]; intros acc'; [done|].
  simpl in *. rewrite (proj2 (Z.eqb_neq j w)); [|set_solver].
  apply IH; [set_solver|by inversion Hnd].
Qed.

(** ** Refinement: the handler computes the specification *)

(** The status loop of lines 176-199. *)
Lemma update_statuses_run ws p k s :
  Forall (fun w => in_int64 w = true) ws -> in_int64 p = true ->
  run (update_statuses ws p k) s =
  match restatus_all ws p s with Next _ s' => run k s' | Stop o s' => (o, s') end.
Proof.
  intros Hws Hp. revert s. induction Hws as [|w ws Hw Hws IH]; intros s; [done|].
  cbn [update_statuses restatus_all].
  rewrite run_call by solve_params. unfold restatus. cbn [exec fst snd].
  destruct (Inventory s !! (w, p)) as [r|], (WarehouseCapacity s !! (w, p)) as [c|];
    try apply IH.
  destruct (new_status _ _ _) as [st|]; [|done].
  rewrite run_call by solve_params. apply IH.
Qed.

(** The rest of an iteration once the source row has been read, run on
    any store: the row read may be stale, the statements act on the store
    as it is now. *)
Lemma transfer_checked_run src dst names fname tname pid qn avail pname rows next s :
  in_int64 src = true -> in_int64 dst = true -> in_int64 pid = true -> in_int64 qn = true ->
  warehouse_names_lookup names src = Some fname ->
  warehouse_names_lookup names dst = Some tname ->
  run (transfer_checked src dst names pid qn ((avail, pname) :: rows) next) s =
  if avail <? qn then (insufficient_inventory pid avail qn, s)
  else match restatus_all [src; dst] pid (move_stock src dst pid qn s) with
       | Next _ s' => run (next (mk_entry pid pname qn fname tname)) s'
       | Stop o s' => (o, s')
       end.
Proof.
  intros Hsrc Hdst Hpid Hqn Hf Ht. unfold transfer_checked.
  destruct (avail <? qn); [done|].
  rewrite run_call by solve_params. rewrite run_call by solve_params.
  rewrite update_statuses_run by (repeat constructor; auto).
  change ((exec (UpsertAddQuantity dst pid qn)
             (exec (UpdateSubtractQuantity qn src pid) s).2).2)
    with (move_stock src dst pid qn s).
  destruct (restatus_all _ _ _) as [[] s'|o s']; [|done].
  by rewrite Hf, Ht.
Qed.

(** One iteration of the loop of lines 137-207 is [item_spec]. *)
Lemma transfer_loop_cons src dst names fname tname item rest acc s :
  in_int64 src = true -> in_int64 dst = true ->
  warehouse_names_lookup names src = Some fname ->
  warehouse_names_lookup names dst = Some tname ->
  run (transfer_loop src dst names (item :: rest) acc) s =
  match item_spec src dst fname tname item s with
  | Next e s' => run (transfer_loop src dst names rest (acc ++ [e])) s'
  | Stop o s' => (o, s')
  end.
Proof.
  intros Hsrc Hdst Hf Ht. cbn [transfer_loop]. unfold item_spec.
  destruct (product_id item) as [pid|]; [|done].
  destruct (quantity_needed item) as [qn|]; [|done].
  destruct (qn <=? 0); [done|].
  destruct (in_int64 pid) eqn:Hpid; cbn [negb];
    [|by apply run_call_overflow; overflow_params].
  rewrite run_call by solve_params. cbn [exec fst snd].
  destruct (Inventory s !! (src, pid)) as [r|], (Product s !! pid) as [pr|]; try done.
  destruct (in_int64 qn) eqn:Hqn; cbn [negb].
  - rewrite (transfer_checked_run _ _ _ fname tname) by done.
    destruct (quantity r <? qn); [done|]. by destruct (restatus_all _ _ _).
  - unfold transfer_checked. destruct (quantity r <? qn); [done|].
    apply run_call_overflow; overflow_params.
Qed.

Lemma transfer_loop_run src dst names fname tname items acc s :
  in_int64 src = true -> in_int64 dst = true ->
  warehouse_names_lookup names src = Some fname ->
  warehouse_names_lookup names dst = Some tname ->
  run (transfer_loop src dst names items acc) s = items_spec src dst fname tname items acc s.
Proof.
  intros Hsrc Hdst Hf Ht. revert acc s.
  induction items as [|item rest IH]; intros acc s; [done|].
  rewrite (transfer_loop_cons _ _ _ fname tname) by done. cbn [items_spec].
  destruct (item_spec _ _ _ _ _ _); [apply IH | done].
Qed.

(** C1: refinement.  Executed statement by statement through
    [execute_query], on a store without faults, the handler
    [product_transfer] returns the response and leaves the store that the
    abstract specification [transfer_spec] prescribes, for every request and
    every store. *)
Theorem transfer_refines_spec req s : run (product_transfer req) s = transfer_spec req s.
Proof.
  unfold product_transfer, transfer_spec.
  destruct (from_warehouse req) as [src|], (to_warehouse req) as [dst|],
    (products_to_get req) as [items|]; try done.
  destruct (src =? dst) eqn:Heq; [done|]. zbool.
  destruct (in_int64 src) eqn:Hsrc, (in_int64 dst) eqn:Hdst; cbn [andb negb];
    try (by apply run_call_overflow; overflow_params).
  unfold call_unguarded. rewrite run_call by solve_params. cbn [exec fst snd].
  pose proof (warehouses_in_length s src dst Heq) as Hlen.
  destruct (Warehouse s !! src) as [ws|] eqn:Hws, (Warehouse s !! dst) as [wd|] eqn:Hwd.
  1: { rewrite (proj2 Hlen) by eauto. cbn [Nat.eqb negb].
        apply transfer_loop_run; try done;
          apply warehouse_names_lookup_elem; try apply warehouses_in_NoDup;
          apply warehouses_in_elem; eauto. }
  all: destruct (length _ =? 2)%nat eqn:E; [|done].
  all: apply Nat.eqb_eq, Hlen in E as [[? ?] [? ?]]; congruence.
Qed.

(** ** Quantities under the operations of the specification *)


Lemma qty_move_stock s src dst pid qn r w p :
  src <> dst -> Inventory s !! (src, pid) = Some r ->
  qty (move_stock src dst pid qn s) w p
  = qty s w p + δ (dst, pid) (w, p) qn - δ (src, pid) (w, p) qn.
Proof.
  intros Hne Hr. unfold qty, move_stock, δ. cbn [Inventory set_Inventory].
  destruct (decide ((w, p) = (dst, pid))) as [[= -> ->]|Hd].
  - rewrite lookup_insert_eq, decide_False by congruence.
    rewrite lookup_alter_ne by congruence.
    destruct (Inventory s !! (dst, pid)); simpl; lia.
  - rewrite lookup_insert_ne by congruence.
    destruct (decide ((w, p) = (src, pid))) as [[= -> ->]|Hs].
    + rewrite lookup_alter_eq, Hr. simpl. lia.
    + rewrite lookup_alter_ne by congruence. lia.
Qed.

Lemma qty_set_status s w p st w' p' : qty (set_status w p st s) w' p' = qty s w' p'.
Proof.
  unfold qty, set_status. cbn [Inventory set_Inventory].
  destruct (decide ((w', p') = (w, p))) as [[= -> ->]|Hne].
  - rewrite lookup_alter_eq. by destruct (Inventory s !! (w, p)).
  - by rewrite lookup_alter_ne.
Qed.

Lemma qty_restatus_all ws p s w' p' : qty (sr_db (restatus_all ws p s)) w' p' = qty s w' p'.
Proof.
  revert s. induction ws as [|w ws IH]; intros s; [done|]. cbn [restatus_all].
  unfold restatus.
  destruct (Inventory s !! (w, p)), (WarehouseCapacity s !! (w, p)); try apply IH.
  destruct (new_status _ _ _); [|done]. rewrite IH. apply qty_set_status.
Qed.

#[export] Hint Rewrite qty_set_status qty_restatus_all : wms_rw.

(** ** The rows a step creates *)

Lemma move_stock_keys src dst p qn s k :
  is_Some (Inventory (move_stock src dst p qn s) !! k) -> k = (dst, p) \/ is_Some (Inventory s !! k).
Proof.
  unfold move_stock. cbn. destruct (decide (k = (dst, p))) as [->|Hk]; [by left|].
  rewrite lookup_insert_ne, lookup_alter_is_Some by congruence. by right.
Qed.

Lemma restatus_all_keys ws p s k :
  is_Some (Inventory (sr_db (restatus_all ws p s)) !! k) <-> is_Some (Inventory s !! k).
Proof.
  revert s. induction ws as [|w ws IH]; intros s; [done|]. cbn [restatus_all]. unfold restatus.
  destruct (Inventory s !! (w, p)), (WarehouseCapacity s !! (w, p)); try apply IH.
  destruct (new_status _ _ _); [|done]. rewrite IH. unfold set_status. cbn.
  apply lookup_alter_is_Some.
Qed.
