(* ===== verification/TransferProps.v ===== *)
(** * Properties of [product_transfer]

    The properties are stated of the handler [product_transfer] executed
    through the gateway ([run]) and proved on the specification through
    [transfer_refines_spec].  A request goes through a sequence of steps,
    one per item processed, each either leaving the quantities as they are
    or moving [qn] units of one product from the source row to the
    destination row ([moves]); the invariants of the store (the stock of
    each product over the two warehouses, non-negative quantities) are
    proved by rule induction on that sequence. *)

From S2P Require Import Prelude Json Capacity Store Gateway Transfer TransferSpec.

Local Open Scope Z_scope.

(** A request body with its three fields present. *)
Definition full_request (src dst : Z) (items : list product_item) : transfer_request :=
  mk_request (Some src) (Some dst) (Some items).

(** No capacity row of product [p] has a zero maximal capacity. *)
Definition caps_nonzero (s : db) (p : Z) : Prop :=
  forall w c, WarehouseCapacity s !! (w, p) = Some c -> max_capacity c <> 0.

(** The total quantity of product [p] requested by the items. *)
Definition requested (items : list product_item) (p : Z) : Z :=
  sum_with (fun it => if bool_decide (product_id it = Some p)
                      then from_option id 0 (quantity_needed it) else 0) items.

(** The entries of the response describe the items, in order. *)
Definition entry_of_item (e : transfer_entry) (it : product_item) : Prop :=
  product_id it = Some (te_product_id e) /\ quantity_needed it = Some (te_quantity e)
  /\ 0 < te_quantity e.

Section Moves.
Context (src dst : Z).

(** [s'] is [s] with [qn] units of [pid] moved from [src] to [dst], and
    the source held at least [qn] units. *)
Definition moves (s s' : db) (pid qn : Z) : Prop :=
  0 < qn <= qty s src pid /\
  forall w p, qty s' w p = qty s w p + δ (dst, pid) (w, p) qn - δ (src, pid) (w, p) qn.

(** A step of a request: the quantities stay, or one item is moved. *)
Definition transfer_step (s s' : db) : Prop :=
  (forall w p, qty s' w p = qty s w p) \/ exists pid qn, moves s s' pid qn.

(** The stock of every product over the two warehouses, and the rows of
    every other warehouse, are those of [s0]. *)
Definition conserved (s0 s : db) : Prop :=
  forall p, (forall w, w <> src -> w <> dst -> qty s w p = qty s0 w p)
            /\ qty s src p + qty s dst p = qty s0 src p + qty s0 dst p.

Definition nonneg (s : db) : Prop := forall w p, 0 <= qty s w p.

Lemma restatus_all_stop ws p s o s' :
  restatus_all ws p s = Stop o s' -> o = Uncaught ZeroDivisionError.
Proof.
  revert s. induction ws as [|w ws IH]; intros s; [done|]. cbn [restatus_all].
  unfold restatus.
  destruct (Inventory s !! (w, p)), (WarehouseCapacity s !! (w, p)); try apply IH.
  destruct (new_status _ _ _); [apply IH | by intros [= <- _]].
Qed.

Context (Hne : src <> dst).

(** What one item does to the quantities, on every branch of the loop
    body (lines 138-207). *)
Lemma item_spec_effect fname tname item s :
  match item_spec src dst fname tname item s with
  | Next e s' => exists pid qn pname,
      product_id item = Some pid /\ quantity_needed item = Some qn /\
      e = mk_entry pid pname qn fname tname /\ moves s s' pid qn
  | Stop o s' => (forall w p, qty s' w p = qty s w p)
      \/ (o = Uncaught ZeroDivisionError /\ exists pid qn, moves s s' pid qn)
  end.
Proof.
  unfold item_spec.
  destruct (product_id item) as [pid|]; [|by left].
  destruct (quantity_needed item) as [qn|]; [|by left].
  case_if; [by left|]. destruct (negb (in_int64 pid)); [by left|].
  destruct (Inventory s !! (src, pid)) as [r|] eqn:Hr, (Product s !! pid) as [pr|];
    try by left.
  case_if; [by left|]. destruct (negb (in_int64 qn)); [by left|].
  assert (Hm : moves s (sr_db (restatus_all [src; dst] pid (move_stock src dst pid qn s))) pid qn).
  { split.
    - unfold qty. rewrite Hr. simpl. lia.
    - intros w p. rewrite qty_restatus_all. eapply qty_move_stock; eauto. }
  destruct (restatus_all _ _ _) as [[] s'|o s'] eqn:E; simpl in Hm.
  - eauto 10.
  - right. split; [by eapply restatus_all_stop|eauto].
Qed.

(** The store a request ends with is reached by steps. *)
Lemma items_spec_star fname tname items acc s :
  star transfer_step s (items_spec src dst fname tname items acc s).2.
Proof.
  revert acc s. induction items as [|item rest IH]; intros acc s; [apply star_refl|].
  cbn [items_spec]. pose proof (item_spec_effect fname tname item s) as He.
  destruct (item_spec _ _ _ _ _ _) as [e s'|o s'].
  - destruct He as (pid & qn & pname & _ & _ & _ & Hm).
    eapply star_step; [right; eauto | apply IH].
  - apply star_one. destruct He as [He|(_ & pid & qn & Hm)]; [left|right]; eauto.
Qed.

Lemma transfer_step_conserved s0 s s' :
  conserved s0 s -> transfer_step s s' -> conserved s0 s'.
Proof.
  intros Hc [Hq|(pid & qn & _ & Hq)] p; specialize (Hc p);
    destruct Hc as [Hw Hs].
  - split; [intros w ??; rewrite Hq; auto | by rewrite !Hq].
  - split.
    + intros w Hsrc Hdst. rewrite Hq, <- (Hw w) by done.
      unfold δ. repeat case_decide; simplify_eq; lia.
    + rewrite !Hq. unfold δ. repeat case_decide; simplify_eq; lia.
Qed.

Lemma transfer_step_nonneg s s' : nonneg s -> transfer_step s s' -> nonneg s'.
Proof.
  intros Hn [Hq|(pid & qn & [Hpos Hle] & Hq)] w p; rewrite Hq; [apply Hn|].
  specialize (Hn w p). unfold δ. repeat case_decide; simplify_eq; lia.
Qed.
End Moves.

Lemma sample_db_nonneg : nonneg sample_db.
Proof.
  intros w p. unfold qty, sample_db. cbn [Inventory].
  rewrite lookup_insert, lookup_empty. case_decide; simpl; lia.
Qed.

Lemma sample_db_caps p : caps_nonzero sample_db p.
Proof.
  unfold caps_nonzero. intros w c. unfold sample_db. simpl. rewrite !lookup_insert, lookup_empty.
  repeat case_decide; intros; simplify_eq; simpl; lia.
Qed.

(** Every request ends in a store reached by steps between its two
    warehouses, or in the store it started from. *)
Lemma transfer_spec_star req s :
  (transfer_spec req s).2 = s \/
  exists src dst, from_warehouse req = Some src /\ to_warehouse req = Some dst /\
    src <> dst /\ star (transfer_step src dst) s (transfer_spec req s).2.
Proof.
  unfold transfer_spec.
  destruct (from_warehouse req) as [src|], (to_warehouse req) as [dst|],
    (products_to_get req) as [items|]; try by left.
  case_if; [by left|]. destruct (negb _); [by left|].
  destruct (Warehouse s !! src), (Warehouse s !! dst); try by left.
  right. exists src, dst. eauto using items_spec_star.
Qed.

(** C2: conservation.  Whatever its outcome (success, a validation error
    of any item, an escaping exception), a transfer request on a store
    without faults leaves, for every product, the sum of its quantities in
    the source and destination warehouses unchanged, and the quantities of
    every other warehouse unchanged. *)
Theorem transfer_conserves_stock req s src dst :
  from_warehouse req = Some src -> to_warehouse req = Some dst ->
  conserved src dst s (run (product_transfer req) s).2.
Proof.
  intros Hf Ht p. rewrite transfer_refines_spec.
  destruct (transfer_spec_star req s) as [-> | (src' & dst' & Hf' & Ht' & Hne & Hs)];
    [done|].
  rewrite Hf in Hf'. rewrite Ht in Ht'. injection Hf' as <-. injection Ht' as <-.
  refine (star_invariant _ (conserved src dst s) _ _ _ Hs _ p).
  - intros a b. by apply transfer_step_conserved.
  - done.
Qed.

Lemma transfer_conserves_stock_witness :
  conserved 1 2 sample_db (run (product_transfer sample_request) sample_db).2.
Proof. apply (transfer_conserves_stock sample_request sample_db 1 2); reflexivity. Defined.


(** C3: the quantities of the inventory stay non-negative: a transfer
    request on a store without faults, whatever its outcome, never drives
    a quantity below zero. *)
Theorem transfer_preserves_nonneg req s :
  nonneg s -> nonneg (run (product_transfer req) s).2.
Proof.
  intros Hn. rewrite transfer_refines_spec.
  destruct (transfer_spec_star req s) as [-> | (src & dst & _ & _ & Hne & Hs)]; [done|].
  eapply star_invariant; [|exact Hs|exact Hn]. intros a b. by apply transfer_step_nonneg.
Qed.

Lemma transfer_preserves_nonneg_witness :
  nonneg (run (product_transfer sample_request) sample_db).2.
Proof.
  apply (transfer_preserves_nonneg sample_request sample_db). apply sample_db_nonneg.
Defined.


(** ** Items that go through *)

Lemma restatus_all_next ws p s :
  caps_nonzero s p -> exists s', restatus_all ws p s = Next tt s'.
Proof.
  revert s. induction ws as [|w ws IH]; intros s Hc; [eauto|]. cbn [restatus_all].
  unfold restatus.
  destruct (Inventory s !! (w, p)) as [r|], (WarehouseCapacity s !! (w, p)) as [c|] eqn:Hwc;
    try by apply IH.
  destruct (new_status_defined (quantity r) (max_capacity c) (capacity_percentage c))
    as [st ->]; [by eapply Hc|].
  by apply IH.
Qed.

(** An item with a positive quantity, no larger than the stock of the
    source, of a known product, goes through. *)
Lemma item_spec_valid src dst fname tname pid qn s r pr :
  src <> dst -> Inventory s !! (src, pid) = Some r -> Product s !! pid = Some pr ->
  0 < qn <= quantity r -> in_int64 pid = true -> in_int64 qn = true ->
  caps_nonzero s pid ->
  exists s', item_spec src dst fname tname (mk_item (Some pid) (Some qn)) s
             = Next (mk_entry pid (product_name pr) qn fname tname) s'
           /\ moves src dst s s' pid qn.
Proof.
  intros Hne Hr Hpr Hq Hpid Hqn Hc.
  pose proof (item_spec_effect src dst Hne fname tname (mk_item (Some pid) (Some qn)) s) as He.
  unfold item_spec in *. cbn [product_id quantity_needed] in *.
  rewrite Hr, Hpr, Hpid, Hqn in *. cbn [negb] in *.
  destruct (qn <=? 0) eqn:E1; [zbool; lia|].
  destruct (quantity r <? qn) eqn:E2; [zbool; lia|].
  destruct (restatus_all_next [src; dst] pid (move_stock src dst pid qn s)) as [s' Hs'];
    [exact Hc|].
  rewrite Hs' in *. destruct He as (? & ? & ? & [= <-] & [= <-] & [= ->] & Hm).
  eauto.
Qed.

Lemma item_spec_stop_code src dst fname tname item s o s' :
  item_spec src dst fname tname item s = Stop o s' -> http_code o <> 200.
Proof.
  unfold item_spec.
  destruct (product_id item) as [pid|]; [|by intros [= <- _]].
  destruct (quantity_needed item) as [qn|]; [|by intros [= <- _]].
  case_if; [by intros [= <- _]|]. destruct (negb (in_int64 pid)); [by intros [= <- _]|].
  destruct (Inventory s !! (src, pid)), (Product s !! pid); try by intros [= <- _].
  case_if; [by intros [= <- _]|]. destruct (negb (in_int64 qn)); [by intros [= <- _]|].
  destruct (restatus_all _ _ _) as [|o' s''] eqn:E; [done|].
  intros [= <- _]. by rewrite (restatus_all_stop _ _ _ _ _ E).
Qed.

Lemma transfer_success_inj ts ts' : transfer_success ts = transfer_success ts' -> ts = ts'.
Proof.
  intros [= H]. revert ts' H.
  induction ts as [|[] ts IH]; intros [|[] ts'] H; cbn in H; try discriminate; [done|].
  injection H. intros Hts ?????. subst. f_equal. by apply IH.
Qed.

Lemma items_spec_success src dst fname tname items acc s ts s' :
  src <> dst ->
  items_spec src dst fname tname items acc s = (transfer_success ts, s') ->
  exists es, ts = acc ++ es /\ Forall2 entry_of_item es items /\
    forall p, qty s' src p = qty s src p - requested items p
              /\ qty s' dst p = qty s dst p + requested items p.
Proof.
  intros Hne. revert acc s.
  induction items as [|item rest IH]; intros acc s Hrun; cbn [items_spec] in Hrun.
  - assert (Ho : transfer_success acc = transfer_success ts) by congruence.
    assert (s' = s) as -> by congruence.
    apply transfer_success_inj in Ho as <-. exists []. rewrite app_nil_r.
    unfold requested; simpl. repeat split; [constructor|lia|lia].
  - pose proof (item_spec_effect src dst Hne fname tname item s) as He.
    destruct (item_spec _ _ _ _ _ _) as [e s1|o s1] eqn:Hi.
    + destruct He as (pid & qn & pname & Hpid & Hqn & -> & [Hpos Hm]).
      destruct (IH _ _ Hrun) as (es & -> & Hf & Hq).
      exists (mk_entry pid pname qn fname tname :: es).
      rewrite <- app_assoc. split; [done|]. split.
      { constructor; [|done]. unfold entry_of_item. simpl. repeat split; [done|done|lia]. }
      intros p. destruct (Hq p) as [Hs Hd]. rewrite Hs, Hd, !Hm.
      unfold requested, δ. simpl. rewrite Hpid, Hqn.
      repeat case_bool_decide; repeat case_decide; simplify_eq/=; lia.
    + assert (Ho : o = transfer_success ts) by congruence.
      apply item_spec_stop_code in Hi. by subst o.
Qed.

(** ** Theorems on the handler *)

(** C4: a successful transfer.  When [product_transfer] answers with the
    success body, the [transfers] list has one entry per item, in order,
    with the item's product and (positive) quantity, and for every product
    the source warehouse lost, and the destination gained, exactly the sum
    of the quantities requested for it. *)
Theorem transfer_success_quantities req s src dst items ts s' :
  from_warehouse req = Some src -> to_warehouse req = Some dst ->
  products_to_get req = Some items ->
  run (product_transfer req) s = (transfer_success ts, s') ->
  Forall2 entry_of_item ts items /\
  forall p, qty s' src p = qty s src p - requested items p
            /\ qty s' dst p = qty s dst p + requested items p.
Proof.
  intros Hf Ht Hi. rewrite transfer_refines_spec. unfold transfer_spec.
  rewrite Hf, Ht, Hi. case_if; [done|]. destruct (negb _); [done|].
  destruct (Warehouse s !! src), (Warehouse s !! dst); try done.
  intros (es & -> & ?)%items_spec_success; auto.
Qed.

Lemma transfer_success_quantities_witness :
  let s' := (run (product_transfer sample_request) sample_db).2 in
  Forall2 entry_of_item [mk_entry 7 "P" 10 "A" "B"] [mk_item (Some 7) (Some 10)]
  /\ forall p, qty s' 1 p = qty sample_db 1 p - requested [mk_item (Some 7) (Some 10)] p
              /\ qty s' 2 p = qty sample_db 2 p + requested [mk_item (Some 7) (Some 10)] p.
Proof.
  apply (transfer_success_quantities sample_request sample_db 1 2); reflexivity.
Defined.


Lemma qty_row s w p r : Inventory s !! (w, p) = Some r -> qty s w p = quantity r.
Proof. unfold qty. by intros ->. Qed.

(** Past the validation of the request, the transfer is the loop. *)
Lemma run_transfer_items src dst items s ws wd :
  src <> dst -> in_int64 src = true -> in_int64 dst = true ->
  Warehouse s !! src = Some ws -> Warehouse s !! dst = Some wd ->
  run (product_transfer (full_request src dst items)) s
  = items_spec src dst (warehouse_name ws) (warehouse_name wd) items [] s.
Proof.
  intros Hne Hs Hd Hws Hwd. rewrite transfer_refines_spec. unfold transfer_spec, full_request. cbn [from_warehouse to_warehouse products_to_get].
  rewrite (proj2 (Z.eqb_neq src dst) Hne), Hs, Hd, Hws, Hwd. done.
Qed.

(** C5: the scenario and the boundary of the specification (section 8).
    Moving [qn] units of a product, [0 < qn <= available], between two
    existing warehouses succeeds with one transfer entry, the source keeps
    [available - qn] units (0 when [qn] is the whole stock) and the
    destination gains [qn] units (a new row when it had none). *)
Theorem transfer_one_item src dst pid qn s ws wd r pr :
  src <> dst -> in_int64 src = true -> in_int64 dst = true ->
  in_int64 pid = true -> in_int64 qn = true ->
  Warehouse s !! src = Some ws -> Warehouse s !! dst = Some wd ->
  Inventory s !! (src, pid) = Some r -> Product s !! pid = Some pr ->
  0 < qn <= quantity r -> caps_nonzero s pid ->
  exists s',
    run (product_transfer (full_request src dst [mk_item (Some pid) (Some qn)])) s
    = (transfer_success [mk_entry pid (product_name pr) qn (warehouse_name ws) (warehouse_name wd)], s')
    /\ qty s' src pid = quantity r - qn /\ qty s' dst pid = qty s dst pid + qn.
Proof.
  intros Hne Hs Hd Hp Hq Hws Hwd Hr Hpr Hqn Hc.
  rewrite (run_transfer_items _ _ _ _ ws wd) by done. cbn [items_spec].
  destruct (item_spec_valid src dst (warehouse_name ws) (warehouse_name wd) pid qn s r pr)
    as (s' & -> & _ & Hm); try done.
  exists s'. split; [done|]. rewrite !Hm, (qty_row s src pid r Hr).
  unfold δ. repeat case_decide; simplify_eq/=; lia.
Qed.

Lemma transfer_one_item_witness :
  exists s',
    run (product_transfer (mk_request (Some 1) (Some 2) (Some [mk_item (Some 7) (Some 20)]))) sample_db
    = (transfer_success [mk_entry 7 "P" 20 "A" "B"], s')
    /\ qty s' 1 7 = 20 - 20 /\ qty s' 2 7 = qty sample_db 2 7 + 20.
Proof.
  apply (transfer_one_item 1 2 7 20 sample_db (mk_warehouse "A") (mk_warehouse "B")
           (mk_inventory 20 LOW_CAPACITY) (mk_product "P")); try reflexivity; try (simpl; lia).
  apply sample_db_caps.
Defined.


(** C7: the validation errors of the request (lines 116-130) answer
    before any statement changes the store: a missing field gives 400
    [Missing required fields], equal warehouses 400, and an unknown
    warehouse 404, each with the store unchanged. *)
Theorem transfer_validation_errors req s :
  (from_warehouse req = None \/ to_warehouse req = None \/ products_to_get req = None ->
   run (product_transfer req) s = (missing_fields, s))
  /\ (forall w items, run (product_transfer (full_request w w items)) s = (same_warehouse, s))
  /\ (forall src dst items, src <> dst -> in_int64 src = true -> in_int64 dst = true ->
      Warehouse s !! src = None \/ Warehouse s !! dst = None ->
      run (product_transfer (full_request src dst items)) s = (warehouses_missing, s)).
Proof.
  split; [|split]; intros *; rewrite transfer_refines_spec;
    unfold transfer_spec, full_request; cbn [from_warehouse to_warehouse products_to_get].
  - intros [-> | [-> | ->]]; by repeat case_match.
  - by rewrite Z.eqb_refl.
  - intros Hne Hs Hd Hw.
    rewrite (proj2 (Z.eqb_neq src dst) Hne), Hs, Hd. cbn.
    by destruct Hw as [-> | ->]; [|destruct (Warehouse s !! src)].
Qed.

(** C6: no rollback.  When the first item of a request goes through and
    the second has a quantity [<= 0], the handler answers 400 [Invalid
    quantity] but the first item's move stays committed: the source has
    lost [qn] units and the destination gained them.  The specification
    (section 8) says an invalid quantity fails before any mutation. *)
Theorem transfer_no_rollback src dst pid qn pid2 qn2 s ws wd r pr :
  src <> dst -> in_int64 src = true -> in_int64 dst = true ->
  in_int64 pid = true -> in_int64 qn = true ->
  Warehouse s !! src = Some ws -> Warehouse s !! dst = Some wd ->
  Inventory s !! (src, pid) = Some r -> Product s !! pid = Some pr ->
  0 < qn <= quantity r -> caps_nonzero s pid -> qn2 <= 0 ->
  exists s',
    run (product_transfer (full_request src dst [mk_item (Some pid) (Some qn); mk_item (Some pid2) (Some qn2)])) s
    = (invalid_quantity pid2, s')
    /\ qty s' src pid = quantity r - qn /\ qty s' dst pid = qty s dst pid + qn.
Proof.
  intros Hne Hs Hd Hp Hq Hws Hwd Hr Hpr Hqn Hc Hqn2.
  rewrite (run_transfer_items _ _ _ _ ws wd) by done. cbn [items_spec].
  destruct (item_spec_valid src dst (warehouse_name ws) (warehouse_name wd) pid qn s r pr)
    as (s' & -> & _ & Hm); try done.
  exists s'. unfold item_spec at 1. cbn [product_id quantity_needed].
  rewrite (proj2 (Z.leb_le qn2 0) Hqn2). split; [done|].
  rewrite !Hm, (qty_row s src pid r Hr).
  unfold δ. repeat case_decide; simplify_eq/=; lia.
Qed.

Lemma transfer_no_rollback_witness :
  exists s',
    run (product_transfer (mk_request (Some 1) (Some 2)
           (Some [mk_item (Some 7) (Some 10); mk_item (Some 8) (Some 0)]))) sample_db
    = (invalid_quantity 8, s')
    /\ qty s' 1 7 = 20 - 10 /\ qty s' 2 7 = qty sample_db 2 7 + 10.
Proof.
  apply (transfer_no_rollback 1 2 7 10 8 0 sample_db (mk_warehouse "A") (mk_warehouse "B")
           (mk_inventory 20 LOW_CAPACITY) (mk_product "P")); try reflexivity; try (simpl; lia).
  apply sample_db_caps.
Defined.


(** C14: a product id outside SQLite's 64-bit range makes the binding of
    the source query raise [OverflowError], which the handler does not
    catch ([except sqlite3.Error] only): the client gets Flask's 500 instead
    of the 404 of an unknown product, and the store is unchanged. *)
Theorem transfer_product_id_overflow src dst pid qn rest s ws wd :
  src <> dst -> in_int64 src = true -> in_int64 dst = true ->
  Warehouse s !! src = Some ws -> Warehouse s !! dst = Some wd ->
  0 < qn -> in_int64 pid = false ->
  run (product_transfer (full_request src dst (mk_item (Some pid) (Some qn) :: rest))) s
  = (Uncaught OverflowError, s).
Proof.
  intros Hne Hs Hd Hws Hwd Hq Hp.
  rewrite (run_transfer_items _ _ _ _ ws wd) by done. cbn [items_spec].
  unfold item_spec. cbn [product_id quantity_needed].
  rewrite (proj2 (Z.leb_gt qn 0) Hq), Hp. done.
Qed.

Lemma transfer_product_id_overflow_witness :
  run (product_transfer (mk_request (Some 1) (Some 2) (Some [mk_item (Some (2 ^ 63)) (Some 1)])))
    sample_db = (Uncaught OverflowError, sample_db).
Proof.
  apply (transfer_product_id_overflow 1 2 (2 ^ 63) 1 [] sample_db
           (mk_warehouse "A") (mk_warehouse "B")); try reflexivity; lia.
Defined.


(** The rows of the inventory stay present under reclassification. *)
Lemma set_status_is_Some s w p st k :
  is_Some (Inventory (set_status w p st s) !! k) <-> is_Some (Inventory s !! k).
Proof.
  unfold set_status. cbn [Inventory set_Inventory].
  destruct (decide (k = (w, p))) as [->|Hne].
  - rewrite lookup_alter_eq. by rewrite fmap_is_Some.
  - by rewrite lookup_alter_ne.
Qed.

(** A row with a zero maximal capacity stops the reclassification. *)
Lemma restatus_all_zero ws p s w c :
  w ∈ ws -> is_Some (Inventory s !! (w, p)) ->
  WarehouseCapacity s !! (w, p) = Some c -> max_capacity c = 0 ->
  exists s', restatus_all ws p s = Stop (Uncaught ZeroDivisionError) s'.
Proof.
  revert s. induction ws as [|w' ws IH]; intros s Hin Hrow Hc Hz; [set_solver|].
  cbn [restatus_all]. unfold restatus.
  destruct (decide (w' = w)) as [->|Hne].
  - destruct Hrow as [r Hr]. rewrite Hr, Hc, Hz. eauto.
  - apply elem_of_cons in Hin as [->|Hin]; [done|].
    destruct (Inventory s !! (w', p)), (WarehouseCapacity s !! (w', p)); try by apply IH.
    destruct (new_status _ _ _); [|eauto].
    apply IH; try done. by apply set_status_is_Some.
Qed.

(** C13: a capacity row with [max_capacity = 0] at the destination makes
    the reclassification raise [ZeroDivisionError] after both quantity
    statements have been committed: the client gets a 500, while the
    quantity has moved and the destination's status was not recomputed. *)
Theorem transfer_zero_capacity_crash src dst pid qn s ws wd r pr c :
  src <> dst -> in_int64 src = true -> in_int64 dst = true ->
  in_int64 pid = true -> in_int64 qn = true ->
  Warehouse s !! src = Some ws -> Warehouse s !! dst = Some wd ->
  Inventory s !! (src, pid) = Some r -> Product s !! pid = Some pr ->
  0 < qn <= quantity r ->
  WarehouseCapacity s !! (dst, pid) = Some c -> max_capacity c = 0 ->
  exists s',
    run (product_transfer (full_request src dst [mk_item (Some pid) (Some qn)])) s
    = (Uncaught ZeroDivisionError, s')
    /\ qty s' src pid = quantity r - qn /\ qty s' dst pid = qty s dst pid + qn.
Proof.
  intros Hne Hs Hd Hp Hq Hws Hwd Hr Hpr Hqn Hc Hz.
  rewrite (run_transfer_items _ _ _ _ ws wd) by done. cbn [items_spec].
  unfold item_spec. cbn [product_id quantity_needed].
  rewrite (proj2 (Z.leb_gt qn 0)), Hp, Hr, Hpr, (proj2 (Z.ltb_ge (quantity r) qn)), Hq
    by lia. cbn [negb].
  destruct (restatus_all_zero [src; dst] pid (move_stock src dst pid qn s) dst c)
    as [s' Hs']; try done.
  - set_solver.
  - unfold move_stock. cbn [Inventory set_Inventory]. rewrite lookup_insert_eq. eauto.
  - rewrite Hs'. exists s'. split; [done|].
    pose proof (qty_restatus_all [src; dst] pid (move_stock src dst pid qn s)) as Hq'.
    rewrite Hs' in Hq'. cbn [sr_db] in Hq'.
    rewrite !Hq', !(qty_move_stock _ _ _ _ _ r) by done. rewrite (qty_row s src pid r Hr).
    unfold δ. repeat case_decide; simplify_eq/=; lia.
Qed.

Lemma transfer_zero_capacity_crash_witness :
  exists s',
    run (product_transfer sample_request) sample_db_zero_cap = (Uncaught ZeroDivisionError, s')
    /\ qty s' 1 7 = 20 - 10 /\ qty s' 2 7 = qty sample_db_zero_cap 2 7 + 10.
Proof.
  apply (transfer_zero_capacity_crash 1 2 7 10 sample_db_zero_cap (mk_warehouse "A")
           (mk_warehouse "B") (mk_inventory 20 LOW_CAPACITY) (mk_product "P")
           (mk_capacity 0 50)); try reflexivity; simpl; lia.
Defined.


(** C15: an empty [products_to_get] list is accepted: between two existing
    warehouses the handler answers 200 with an empty [transfers] list and
    changes nothing.  The specification requires a non-empty list. *)
Theorem transfer_empty_items_succeeds src dst s ws wd :
  src <> dst -> in_int64 src = true -> in_int64 dst = true ->
  Warehouse s !! src = Some ws -> Warehouse s !! dst = Some wd ->
  run (product_transfer (full_request src dst [])) s = (transfer_success [], s).
Proof. intros. by rewrite (run_transfer_items _ _ _ _ ws wd). Qed.

Lemma transfer_empty_items_succeeds_witness :
  run (product_transfer (mk_request (Some 1) (Some 2) (Some []))) sample_db
  = (transfer_success [], sample_db).
Proof.
  apply (transfer_empty_items_succeeds 1 2 sample_db (mk_warehouse "A") (mk_warehouse "B"));
    try reflexivity; lia.
Defined.

