(* ===== verification/TransferStatus.v ===== *)
(** * Statuses after a transfer, and the rows a transfer touches

    Each moved item has the rows [(src, pid)] and [(dst, pid)] reclassified
    by the status loop of [product_transfer] (src/server.py, lines 176-199).
    A row's status is current when it is the one [new_status] gives its
    quantity and capacity row ([status_current]).  After a successful transfer
    every requested row is current: a later item of the same product
    reclassifies it again, and an item of another product leaves it alone.
    Whatever the outcome, errors included, the transfer changes no row
    other than [(src, pid)] and [(dst, pid)] of a requested product. *)

From S2P Require Import Prelude Json Capacity Store Gateway Transfer TransferSpec TransferProps.

Local Open Scope Z_scope.

(** The inventory row and the capacity row at a key. *)
Definition row_at (s : db) (k : Z * Z) : option inventory_row * option capacity_row :=
  (Inventory s !! k, WarehouseCapacity s !! k).

(** The status of the row [(w, p)] is what [new_status] computes from its
    quantity and capacity row (true when one of the rows is absent). *)
Definition status_current (s : db) (w p : Z) : bool :=
  match Inventory s !! (w, p), WarehouseCapacity s !! (w, p) with
  | Some r, Some c =>
      bool_decide (new_status (quantity r) (max_capacity c) (capacity_percentage c)
                   = Some (inv_status r))
  | _, _ => true
  end.

(** The keys an item may change: its product in the two warehouses. *)
Definition item_keys (src dst : Z) (it : product_item) : list (Z * Z) :=
  match product_id it with Some p => [(src, p); (dst, p)] | None => [] end.

(** ** Frame lemmas *)

Lemma status_current_agree s s' w p :
  row_at s (w, p) = row_at s' (w, p) -> status_current s w p = status_current s' w p.
Proof. unfold row_at, status_current. by intros [= -> ->]. Qed.

Lemma set_status_row s w p st k : k <> (w, p) -> row_at (set_status w p st s) k = row_at s k.
Proof. intros Hk. unfold row_at, set_status. cbn. by rewrite lookup_alter_ne. Qed.

Lemma move_stock_row src dst p qn s k :
  k <> (src, p) -> k <> (dst, p) -> row_at (move_stock src dst p qn s) k = row_at s k.
Proof.
  intros Hs Hd. unfold row_at, move_stock. cbn.
  by rewrite lookup_insert_ne, lookup_alter_ne by congruence.
Qed.

Lemma restatus_all_row ws p s k :
  (forall w, w ∈ ws -> k <> (w, p)) -> row_at (sr_db (restatus_all ws p s)) k = row_at s k.
Proof.
  revert s. induction ws as [|w ws IH]; intros s Hk; [done|]. cbn [restatus_all].
  unfold restatus.
  destruct (Inventory s !! (w, p)), (WarehouseCapacity s !! (w, p)); try (apply IH; set_solver).
  destruct (new_status _ _ _); [|done].
  rewrite IH by set_solver. apply set_status_row. set_solver.
Qed.

(** ** Reclassification makes a row current *)

Lemma restatus_current w p s u s' :
  restatus w p s = Next u s' -> status_current s' w p = true.
Proof.
  unfold restatus, status_current.
  destruct (Inventory s !! (w, p)) as [r|] eqn:Hr, (WarehouseCapacity s !! (w, p)) as [c|] eqn:Hc;
    try (intros [= _ <-]; by rewrite ?Hr, ?Hc).
  destruct (new_status _ _ _) as [st|] eqn:Hn; [|done]. intros [= _ <-].
  unfold set_status. cbn. rewrite lookup_alter_eq, Hr, Hc. cbn. rewrite Hn.
  by apply bool_decide_eq_true_2.
Qed.

Lemma restatus_all_current ws p s u s' :
  NoDup ws -> restatus_all ws p s = Next u s' -> forall w, w ∈ ws -> status_current s' w p = true.
Proof.
  revert s. induction ws as [|w0 ws IH]; intros s Hnd Hrun w Hw; [set_solver|].
  apply NoDup_cons in Hnd as [Hn Hnd]. cbn [restatus_all] in Hrun.
  destruct (restatus w0 p s) as [u0 s1|] eqn:H0; [|done].
  apply elem_of_cons in Hw as [->|Hw]; [|by eapply IH].
  rewrite <- (restatus_current _ _ _ _ _ H0). apply status_current_agree.
  change s' with (sr_db (Next u s' : step_result unit)). rewrite <- Hrun.
  apply restatus_all_row. intros w' Hw' [= ->]. done.
Qed.

(** ** One item *)

Lemma item_spec_row src dst fname tname it s k :
  k ∉ item_keys src dst it -> row_at (sr_db (item_spec src dst fname tname it s)) k = row_at s k.
Proof.
  unfold item_spec, item_keys. destruct (product_id it) as [pid|]; [|done]. intros Hk.
  destruct (quantity_needed it) as [qn|]; [|done].
  case_if; [done|]. destruct (negb (in_int64 pid)); [done|].
  destruct (Inventory s !! (src, pid)), (Product s !! pid); try done.
  case_if; [done|]. destruct (negb (in_int64 qn)); [done|].
  transitivity (row_at (sr_db (restatus_all [src; dst] pid (move_stock src dst pid qn s))) k).
  { by destruct (restatus_all _ _ _). }
  rewrite restatus_all_row by set_solver. apply move_stock_row; set_solver.
Qed.

Lemma item_spec_next_current src dst fname tname it s e s' :
  src <> dst -> item_spec src dst fname tname it s = Next e s' ->
  exists p, product_id it = Some p
            /\ status_current s' src p = true /\ status_current s' dst p = true.
Proof.
  intros Hne. unfold item_spec. destruct (product_id it) as [pid|]; [|done].
  destruct (quantity_needed it) as [qn|]; [|done].
  case_if; [done|]. destruct (negb (in_int64 pid)); [done|].
  destruct (Inventory s !! (src, pid)), (Product s !! pid); try done.
  case_if; [done|]. destruct (negb (in_int64 qn)); [done|].
  destruct (restatus_all _ _ _) as [u s1|] eqn:Hr; [|done]. intros [= _ <-].
  exists pid. split; [done|].
  assert (Hnd : NoDup [src; dst]) by (apply NoDup_cons; split; [set_solver | apply NoDup_singleton]).
  split; eapply restatus_all_current; eauto; set_solver.
Qed.

(** ** The items loop *)

Lemma items_spec_row src dst fname tname items acc s k :
  (forall it, it ∈ items -> k ∉ item_keys src dst it) ->
  row_at (items_spec src dst fname tname items acc s).2 k = row_at s k.
Proof.
  revert acc s. induction items as [|it rest IH]; intros acc s Hk; [done|]. cbn [items_spec].
  pose proof (item_spec_row src dst fname tname it s k) as Hi.
  destruct (item_spec _ _ _ _ _ _) as [e s1|o s1]; cbn in Hi.
  - rewrite IH by set_solver. apply Hi. set_solver.
  - apply Hi. set_solver.
Qed.

Lemma items_spec_stop_not_success src dst fname tname it s o s1 ts :
  item_spec src dst fname tname it s = Stop o s1 -> o <> transfer_success ts.
Proof. intros Hi ->. by apply item_spec_stop_code in Hi. Qed.

Lemma items_spec_keeps_current src dst fname tname items acc s ts s' w p :
  src <> dst -> w = src \/ w = dst ->
  items_spec src dst fname tname items acc s = (transfer_success ts, s') ->
  status_current s w p = true -> status_current s' w p = true.
Proof.
  intros Hne Hw. revert acc s.
  induction items as [|it rest IH]; intros acc s Hrun Hs; cbn [items_spec] in Hrun.
  - by simplify_eq.
  - destruct (item_spec _ _ _ _ _ _) as [e s1|o s1] eqn:Hi;
      [|simplify_eq; by eapply items_spec_stop_not_success in Hi].
    apply (IH _ _ Hrun).
    destruct (item_spec_next_current _ _ _ _ _ _ _ _ Hne Hi) as (p0 & Hp0 & Hs0 & Hd0).
    destruct (decide (p0 = p)) as [<-|Hp]; [destruct Hw; by subst|].
    rewrite <- Hs. apply status_current_agree.
    change s1 with (sr_db (Next e s1)). rewrite <- Hi. apply item_spec_row.
    unfold item_keys. rewrite Hp0. set_solver.
Qed.

Lemma items_spec_current src dst fname tname items acc s ts s' :
  src <> dst -> items_spec src dst fname tname items acc s = (transfer_success ts, s') ->
  forall it p, it ∈ items -> product_id it = Some p ->
  status_current s' src p = true /\ status_current s' dst p = true.
Proof.
  intros Hne. revert acc s.
  induction items as [|it0 rest IH]; intros acc s Hrun it p Hit Hp; [set_solver|].
  cbn [items_spec] in Hrun.
  destruct (item_spec _ _ _ _ _ _) as [e s1|o s1] eqn:Hi;
    [|simplify_eq; by eapply items_spec_stop_not_success in Hi].
  apply elem_of_cons in Hit as [->|Hit]; [|by eapply IH].
  destruct (item_spec_next_current _ _ _ _ _ _ _ _ Hne Hi) as (p0 & Hp0 & Hs0 & Hd0).
  rewrite Hp in Hp0. simplify_eq.
  split; eapply items_spec_keeps_current; eauto.
Qed.

(** ** Theorems on the handler *)

(** C20: statuses are current after a successful transfer (specification,
    section 3: the status reflects the quantity after every change).  When
    [product_transfer] answers with the success body, the rows of every
    requested product in the source and the destination warehouse carry the
    status [new_status] computes from their quantity and capacity row. *)
Theorem transfer_statuses_current src dst items s ts :
  (run (product_transfer (full_request src dst items)) s).1 = transfer_success ts ->
  forall it p, it ∈ items -> product_id it = Some p ->
  status_current (run (product_transfer (full_request src dst items)) s).2 src p = true
  /\ status_current (run (product_transfer (full_request src dst items)) s).2 dst p = true.
Proof.
  rewrite transfer_refines_spec. unfold transfer_spec, full_request. cbn.
  case_if; [done|]. destruct (negb _); [done|].
  destruct (Warehouse s !! src), (Warehouse s !! dst); try done.
  destruct (items_spec _ _ _ _ _ _ _) as [o s'] eqn:Hrun. cbn. intros ->.
  eapply items_spec_current; [by zbool | exact Hrun].
Qed.

Lemma transfer_statuses_current_witness :
  status_current (run (product_transfer (full_request 1 2 [mk_item (Some 7) (Some 10)])) sample_db).2 1 7 = true
  /\ status_current (run (product_transfer (full_request 1 2 [mk_item (Some 7) (Some 10)])) sample_db).2 2 7 = true.
Proof.
  apply (transfer_statuses_current 1 2 [mk_item (Some 7) (Some 10)] sample_db
           [mk_entry 7 "P" 10 "A" "B"] ltac:(vm_compute; reflexivity)
           (mk_item (Some 7) (Some 10)) 7); [constructor | reflexivity].
Defined.

(** C21: a transfer changes only the rows it names.  Whatever its outcome,
    success, refusal, a raised exception or a reclassification that
    raised [ZeroDivisionError], [product_transfer] leaves the inventory row
    (quantity and status) and the capacity row of every key other than
    [(src, pid)] and [(dst, pid)], for [pid] the product of an item, as
    they were. *)
Theorem transfer_touches_named_rows_only src dst items s k :
  Forall (fun it => k ∉ item_keys src dst it) items ->
  row_at (run (product_transfer (full_request src dst items)) s).2 k = row_at s k.
Proof.
  intros Hk. rewrite Forall_forall in Hk.
  rewrite transfer_refines_spec. unfold transfer_spec, full_request. cbn.
  case_if; [done|]. destruct (negb _); [done|].
  destruct (Warehouse s !! src), (Warehouse s !! dst); try done.
  by apply items_spec_row.
Qed.

Lemma transfer_touches_named_rows_only_witness :
  row_at (run (product_transfer (full_request 1 2 [mk_item (Some 7) (Some 10)])) sample_db).2 (1, 8)
  = row_at sample_db (1, 8).
Proof.
  apply (transfer_touches_named_rows_only 1 2 [mk_item (Some 7) (Some 10)] sample_db (1, 8)).
  apply (bool_decide_unpack _). vm_compute. reflexivity.
Defined.
