(* ===== verification/Admin.v ===== *)
(** * The read views and purchase-order creation (src/server.py, lines 22-108)

    [warehouse_home_display], [warehouse_products] and
    [warehouse_fill_capacity] validate a query-string parameter, check that
    the warehouse exists and return the rows of a view; [create_purchase_order]
    validates the body, checks the supplier and inserts an order.  The query
    string values are strings ([None] when absent); the body fields of the
    order are JSON integers ([None] when missing or null).  The view
    statements themselves are modelled in [Store] from the specification. *)

From S2P Require Import Prelude Json JsonCodec Capacity Store Gateway Transfer.
From Stdlib Require Import Ascii.

Local Open Scope prog_scope.
Local Open Scope string_scope.
Local Open Scope Z_scope.

Definition status_str (st : status) : string :=
  match st with GOOD_CAPACITY => "GOOD_CAPACITY" | LOW_CAPACITY => "LOW_CAPACITY" end.

Definition listing_json (l : listing_row) : json :=
  JObj [("product_id", JInt (l_product_id l)); ("product_name", JStr (l_product_name l));
        ("quantity", JInt (l_quantity l)); ("status", JStr (status_str (l_status l)));
        ("max_capacity", from_option JInt JNull (l_max_capacity l))].

Definition home_json (row : Z * string) : json :=
  JObj [("id", JInt row.1); ("warehouse_name", JStr row.2)].

Definition purchase_order_json (row : Z * purchase_order_row) : json :=
  JObj [("id", JInt row.1); ("supplier_id", JInt (po_supplier_id row.2));
        ("total_amount", JInt (po_total_amount row.2));
        ("warehouse_id", JInt (po_warehouse_id row.2))].

(** [not x] on a query-string value: absent or empty. *)
Definition param_missing (x : option string) : bool :=
  match x with None | Some EmptyString => true | Some _ => false end.

(** Lines 24-27. *)
Definition warehouse_home_display : prog :=
  warehouses <- HomeDisplay ;;
  Ret (Response 200 (JArr (home_json <$> warehouses))).

(** Lines 29-47. *)
Definition warehouse_products (warehouse_id : option string) : prog :=
  if param_missing warehouse_id then
    Ret (Response 400 (error_body "warehouse_id query parameter is required"))
  else
    let key := text_key (default "" warehouse_id) in
    warehouse_result <- SelectWarehouseName key ;;
    match warehouse_result with
    | [] => Ret (Response 404 (error_body "Warehouse not found"))
    | name :: _ =>
        products <- DisplayProducts key ;;
        Ret (Response 200 (JObj [("warehouse_name", JStr name);
                                 ("products", JArr (listing_json <$> products))]))
    end.

(** Lines 94-108. *)
Definition warehouse_fill_capacity (warehouse_id : option string) : prog :=
  if param_missing warehouse_id then
    Ret (Response 400 (error_body "warehouse_id query parameter is required"))
  else
    let key := text_key (default "" warehouse_id) in
    warehouse <- SelectWarehouseId key ;;
    match warehouse with
    | [] => Ret (Response 404 (error_body "Warehouse not found"))
    | _ :: _ =>
        products <- FillCapacity key ;;
        Ret (Response 200 (JArr (listing_json <$> products)))
    end.

(** Lines 66-90: [not x] on a JSON integer holds when it is absent, null
    or zero; [purchase_order[0]] on an empty result raises [IndexError]. *)
Definition create_purchase_order (supplier_id total_amount : option Z) : prog :=
  match supplier_id, total_amount with
  | Some sid, Some amount =>
      if (sid =? 0) || (amount =? 0) then
        Ret (Response 400 (error_body "Supplier ID and Total amount are required"))
      else
        supplier <- SelectSupplierId sid ;;
        match supplier with
        | [] => Ret (Response 404 (error_body "Supplier not found"))
        | _ :: _ =>
            purchase_order <- CreatePurchaseOrder sid amount
              except (fun msg => Ret (Response 400 (error_body msg))) ;;
            match purchase_order with
            | row :: _ => Ret (Response 201 (purchase_order_json row))
            | [] => Ret (Uncaught IndexError)
            end
        end
  | _, _ => Ret (Response 400 (error_body "Supplier ID and Total amount are required"))
  end.

(** ** Theorems *)

(** The views send only reading statements. *)
Lemma views_read_only x :
  read_only warehouse_home_display /\ read_only (warehouse_products x)
  /\ read_only (warehouse_fill_capacity x).
Proof.
  unfold warehouse_home_display, warehouse_products, warehouse_fill_capacity, call_unguarded.
  split; [|split]; repeat (constructor || intros || case_match).
Qed.

(** Past the parameter check, the listing answers from the warehouse the
    text names. *)
Lemma run_warehouse_products v s :
  param_missing (Some v) = false ->
  (run (warehouse_products (Some v)) s).1
  = match text_key v with
    | Some w =>
        match Warehouse s !! w with
        | Some r => Response 200 (JObj [("warehouse_name", JStr (warehouse_name r));
                                        ("products", JArr (listing_json <$> listing s w))])
        | None => Response 404 (error_body "Warehouse not found")
        end
    | None => Response 404 (error_body "Warehouse not found")
    end.
Proof.
  intros Hp. unfold warehouse_products, call_unguarded. rewrite Hp. cbn [default]. change (id v) with v.
  rewrite run_call by solve_params. cbn [exec fst snd].
  destruct (text_key v) as [w|]; cbn; [|done]. destruct (Warehouse s !! w); cbn; [|done].
  by rewrite ?run_call by solve_params.
Qed.



(** C18: creating a purchase order.  With non-zero 64-bit supplier id and
    amount and an existing supplier, the handler answers 201 with the new
    row, which gets an id no existing order has, is associated with
    warehouse 1, and is the only change to the store. *)
Theorem create_purchase_order_inserts sid amount s :
  sid ∈ Supplier s -> sid <> 0 -> amount <> 0 ->
  in_int64 sid = true -> in_int64 amount = true ->
  let id := next_id (PurchaseOrder s) in
  let row := mk_purchase_order sid amount 1 in
  exists s',
    run (create_purchase_order (Some sid) (Some amount)) s
    = (Response 201 (purchase_order_json (id, row)), s')
    /\ PurchaseOrder s !! id = None
    /\ PurchaseOrder s' = <[id := row]> (PurchaseOrder s)
    /\ Warehouse s' = Warehouse s /\ Product s' = Product s /\ Supplier s' = Supplier s
    /\ Inventory s' = Inventory s /\ WarehouseCapacity s' = WarehouseCapacity s
    /\ ProductReceipt s' = ProductReceipt s.
Proof.
  intros Hs Hsid Hamt Hi Ha id row. unfold create_purchase_order, call_unguarded.
  rewrite (proj2 (Z.eqb_neq sid 0) Hsid), (proj2 (Z.eqb_neq amount 0) Hamt). cbn [orb].
  rewrite run_call by solve_params. cbn [exec fst snd].
  rewrite decide_True by done. rewrite run_call by solve_params.
  eexists. split; [reflexivity|]. split; [apply next_id_None|]. done.
Qed.

Lemma create_purchase_order_inserts_witness :
  let id := next_id (PurchaseOrder sample_db) in
  let row := mk_purchase_order 3 250 1 in
  exists s',
    run (create_purchase_order (Some 3) (Some 250)) sample_db
    = (Response 201 (purchase_order_json (id, row)), s')
    /\ PurchaseOrder sample_db !! id = None
    /\ PurchaseOrder s' = <[id := row]> (PurchaseOrder sample_db)
    /\ Warehouse s' = Warehouse sample_db /\ Product s' = Product sample_db
    /\ Supplier s' = Supplier sample_db /\ Inventory s' = Inventory sample_db
    /\ WarehouseCapacity s' = WarehouseCapacity sample_db
    /\ ProductReceipt s' = ProductReceipt sample_db.
Proof.
  apply (create_purchase_order_inserts 3 250 sample_db); try reflexivity; try lia.
Defined.


(** C19: the failures of purchase-order creation change nothing.  A
    missing, null or zero supplier id or amount gives 400 (the
    specification names only absence; a zero amount is refused as well);
    an unknown supplier gives 404; a store error raised by the insert is
    answered 400 with its message (a client error, as the specification
    says). *)
Theorem create_purchase_order_errors sid amount s :
  ((sid = None \/ sid = Some 0 \/ amount = None \/ amount = Some 0) ->
   run (create_purchase_order sid amount) s
   = (Response 400 (error_body "Supplier ID and Total amount are required"), s))
  /\ (forall z a, sid = Some z -> amount = Some a -> z <> 0 -> a <> 0 ->
      in_int64 z = true -> z ∉ Supplier s ->
      run (create_purchase_order sid amount) s = (Response 404 (error_body "Supplier not found"), s))
  /\ (forall z a msg, sid = Some z -> amount = Some a -> z <> 0 -> a <> 0 ->
      in_int64 z = true -> in_int64 a = true -> z ∈ Supplier s ->
      run_sched [None; Some msg] (create_purchase_order sid amount) s
      = (Response 400 (error_body msg), s)).
Proof.
  unfold create_purchase_order, call_unguarded. split; [|split].
  - intros H. destruct sid as [z|], amount as [a|]; try done.
    destruct H as [H|[H|[H|H]]]; simplify_eq; simpl; [done | by destruct (z =? 0)].
  - intros z a -> -> Hz Ha Hi Hn.
    rewrite (proj2 (Z.eqb_neq z 0) Hz), (proj2 (Z.eqb_neq a 0) Ha). cbn [orb].
    rewrite run_call by solve_params. cbn [exec fst snd]. by rewrite decide_False.
  - intros z a msg -> -> Hz Ha Hi Hia Hin.
    rewrite (proj2 (Z.eqb_neq z 0) Hz), (proj2 (Z.eqb_neq a 0) Ha). cbn [orb].
    rewrite run_sched_call_ok by solve_params. cbn [exec fst snd].
    rewrite decide_True by done. by rewrite run_sched_call_fault by solve_params.
Qed.

(** ** Decimal ids in the query string *)

(** [digit_value], SQLite's reading of a digit, agrees with the writer's
    digits: checked on the 256 bytes. *)
Lemma digit_value_code c : is_digit c = true -> digit_value c = Some (code c - 48).
Proof.
  destruct c as [[] [] [] [] [] [] [] []]; intros Hc; vm_compute in Hc; try discriminate Hc;
    reflexivity.
Qed.

Lemma digits_value_dec acc d : digits_only d = true -> digits_value acc d = Some (dec_value acc d).
Proof.
  revert acc. induction d as [|c d IH]; intros acc; [done|]. cbn [digits_only].
  intros [Hc Hd]%andb_prop. cbn [digits_value dec_value]. rewrite digit_value_code by done.
  cbn. by apply IH.
Qed.

(** A text that starts with a digit is read as digits: checked on the
    256 bytes. *)
Lemma text_key_digit c t : is_digit c = true ->
  text_key (String c t)
  = match digits_value 0 (String c t) with
    | Some z => if in_int64 z then Some z else None
    | None => None
    end.
Proof.
  destruct c as [[] [] [] [] [] [] [] []]; intros Hc; vm_compute in Hc; try discriminate Hc;
    reflexivity.
Qed.

(** The text [str(w)] is read by SQLite as [w] when [w] is a 64-bit
    integer, and matches no row otherwise. *)
Lemma text_key_pretty z : text_key (pretty z) = if in_int64 z then Some z else None.
Proof.
  destruct (pretty_Z_digits z) as (d & -> & Hdig & Hval & Hhead).
  assert (exists c d', d = String c d' /\ is_digit c = true) as (c & d' & -> & Hc).
  { destruct Hhead as [->|(c & d' & -> & _)]; [by exists "0"%char, ""|].
    cbn in Hdig. apply andb_prop in Hdig as [? _]. eauto. }
  case_bool_decide.
  - rewrite string_app_cons, string_app_nil_l. unfold text_key. cbv beta iota.
    rewrite (digits_value_dec 0) by done. cbn [fmap option_fmap option_map].
    replace (- dec_value 0 (String c d')) with z by lia. done.
  - rewrite string_app_nil_l, text_key_digit, (digits_value_dec 0) by done.
    replace (dec_value 0 (String c d')) with z by lia. done.
Qed.

(** [str(w)] is never empty. *)
Lemma param_missing_pretty (z : Z) : param_missing (Some (pretty z)) = false.
Proof.
  destruct (pretty_Z_digits z) as (d & -> & _ & _ & Hhead).
  destruct Hhead as [->|(c & d' & -> & _)]; by case_bool_decide.
Qed.

(** C27: a client's decimal id finds its warehouse.  Asked for
    [?warehouse_id=] with the text [str(w)] a client writes, the listing
    answers 200 with the warehouse [w] and its inventory when [w] is a
    64-bit integer naming a warehouse, and 404 otherwise: an id beyond 64
    bits matches no row, as SQLite reads it as no integer. *)
Theorem warehouse_products_decimal_id w s :
  (run (warehouse_products (Some (pretty w))) s).1
  = match (if in_int64 w then Warehouse s !! w else None) with
    | Some r => Response 200 (JObj [("warehouse_name", JStr (warehouse_name r));
                                    ("products", JArr (listing_json <$> listing s w))])
    | None => Response 404 (error_body "Warehouse not found")
    end.
Proof.
  rewrite run_warehouse_products by apply param_missing_pretty.
  rewrite text_key_pretty. by destruct (in_int64 w).
Qed.
