(* ===== verification/Receipt.v ===== *)
(** * The receipt detail [product_receipt_detail] (src/server.py, lines 49-63)

    [GET /v1/administrative/product_receipt/detail/?receipt_id=...] reads
    the row of a receipt through the view statement, replaces its [items]
    column, a serialised JSON text, by the decoded value ([json.loads],
    modelled in [JsonCodec]) and answers the row.  The handler catches no
    exception: a malformed text raises [JSONDecodeError], and a column that
    is not a text (SQL NULL) raises [TypeError]; Flask answers both with a
    500. *)

From S2P Require Import Prelude Json JsonCodec JsonAscii Capacity Store Gateway Transfer Admin.

Local Open Scope prog_scope.
Local Open Scope string_scope.
Local Open Scope Z_scope.

(** Lines 50-63.  [receipt_data['items']] is the value of the column, and
    the assignment replaces it in place ([py_dict_set]). *)
Definition product_receipt_detail (receipt_id : option string) : prog :=
  if param_missing receipt_id then
    Ret (Response 400 (error_body "receipt_id query parameter is required"))
  else
    receipt <- ReceiptDetail (text_key (default "" receipt_id)) ;;
    match receipt with
    | [] => Ret (Response 404 (error_body "Product receipt not found"))
    | receipt_data :: _ =>
        match jget "items" receipt_data with
        | None => Ret (Uncaught (KeyError "items"))
        | Some (JStr text) =>
            match json_loads text with
            | Some items => Ret (Response 200 (JObj (py_dict_set "items" items receipt_data)))
            | None => Ret (Uncaught JSONDecodeError)
            end
        | Some _ => Ret (Uncaught TypeError)
        end
    end.

(** ** A concrete store with receipts *)

Definition sample_items : json :=
  JArr [JObj [("product_id", JInt 7); ("product_name", JStr "P"); ("quantity", JInt 10)]].

(** Receipt 5 holds [sample_items] as written by [json.dumps] (with its
    default [ensure_ascii=True]); receipt 6
    holds a truncated text; receipt 7 has a NULL [items] column. *)
Definition sample_receipt_db : db :=
  {| Warehouse := Warehouse sample_db; Product := Product sample_db;
     Supplier := Supplier sample_db; Inventory := Inventory sample_db;
     WarehouseCapacity := WarehouseCapacity sample_db; PurchaseOrder := ∅;
     ProductReceipt :=
       <[5 := mk_receipt [("id", JInt 5); ("items", JStr (json_dumps_ascii sample_items))]]>
       (<[6 := mk_receipt [("id", JInt 6); ("items", JStr "[{")]]>
        {[7 := mk_receipt [("id", JInt 7); ("items", JNull)]]}) |}.

(** ** Theorems *)

Lemma product_receipt_detail_read_only x : read_only (product_receipt_detail x).
Proof.
  unfold product_receipt_detail, call_unguarded.
  repeat (constructor || intros || case_match).
Qed.

(** Past the parameter check, the handler answers from the columns of the
    receipt row. *)
Lemma run_receipt_row v w r s :
  param_missing (Some v) = false -> text_key v = Some w -> ProductReceipt s !! w = Some r ->
  (run (product_receipt_detail (Some v)) s).1
  = match jget "items" (receipt_columns r) with
    | None => Uncaught (KeyError "items")
    | Some (JStr text) =>
        match json_loads text with
        | Some items => Response 200 (JObj (py_dict_set "items" items (receipt_columns r)))
        | None => Uncaught JSONDecodeError
        end
    | Some _ => Uncaught TypeError
    end.
Proof.
  intros Hp Hk Hr. unfold product_receipt_detail, call_unguarded. rewrite Hp.
  cbn [default]. change (id v) with v.
  rewrite run_call by solve_params. cbn [exec fst snd]. rewrite Hk. cbn. rewrite Hr. cbn.
  repeat case_match; done.
Qed.



(** C23: a receipt written by [json.dumps] is read back.  When the
    [items] column of receipt [w] holds the [json.dumps] text of a value
    without floats or repeated keys, written with [ensure_ascii=True] (the
    default; strings and keys well-formed UTF-8) or with
    [ensure_ascii=False], [product_receipt_detail] answers 200 with the
    row whose [items] is that value, and leaves the store as it is. *)
Theorem receipt_items_roundtrip v w r items s :
  param_missing (Some v) = false -> text_key v = Some w -> ProductReceipt s !! w = Some r ->
  (jget "items" (receipt_columns r) = Some (JStr (json_dumps_ascii items)) /\ json_wf_ascii items = true)
  \/ (jget "items" (receipt_columns r) = Some (JStr (json_dumps items)) /\ json_wf items = true) ->
  run (product_receipt_detail (Some v)) s
  = (Response 200 (JObj (py_dict_set "items" items (receipt_columns r))), s).
Proof.
  intros Hp Hk Hr Hi.
  rewrite (surjective_pairing (run _ s)), (run_receipt_row v w r s Hp Hk Hr).
  destruct Hi as [[-> Hwf]|[-> Hwf]];
    [rewrite json_roundtrip_ascii by done | rewrite json_roundtrip by done];
    f_equal; apply run_read_only, product_receipt_detail_read_only.
Qed.

Lemma receipt_items_roundtrip_witness :
  run (product_receipt_detail (Some "5")) sample_receipt_db
  = (Response 200 (JObj [("id", JInt 5); ("items", sample_items)]), sample_receipt_db).
Proof.
  apply (receipt_items_roundtrip "5" 5
           (mk_receipt [("id", JInt 5); ("items", JStr (json_dumps_ascii sample_items))])
           sample_items sample_receipt_db); try (vm_compute; reflexivity).
  left. split; vm_compute; reflexivity.
Defined.
