(* ===== verification/TransferBody.v ===== *)
(** * The transfer on the decoded request body (src/server.py, lines 111-216)

    [Transfer.product_transfer] takes the body as a record of integers.  The
    handler itself reads [data = request.get_json()], a Python value that
    [json.loads] built from the body ([JsonCodec]), and works on it with
    Python's operators: [field in data] (line 117), [data[k]] (lines 120,
    126, 137, 138-139, 150, ...), [==] on the two warehouse ids (line 120),
    [<=] on the quantity (line 141), iteration over [products_to_get] (line
    137) and [str] of the ids to find their names (lines 133, 205-206).
    This file models those lines on any decoded body.

    A warehouse id reaches SQLite as a parameter compared with (or stored
    into) an INTEGER column.  An [int], a [bool] (bound as [0] or [1]), a
    [float] whose decimal value is an integer of at most [2^53] (exact in
    binary64) and a text that reads as a decimal integer all act as that
    integer ([wid_of]); a body with another id (a fraction, [null], a
    list, a text that is no number) is outside the model, and
    [product_transfer_body] is [None] for it, as for a product id that is
    not an [int] or a quantity that is a [bool] or a [float].

    Python's [str] of an id that is not an [int] differs from the [str] of
    the row's integer id: [str(1.0)] is ["1.0"], [str(True)] is ["True"],
    [str("01")] is ["01"], while the dict of names (line 133) is keyed by
    ["1"].  The handler then moves the stock of the first item and raises
    [KeyError] at line 205 ([TransferBody.transfer_body_noncanonical_id]).
    On a body whose ids and fields are JSON integers the handler is the
    typed one ([TransferBody.transfer_body_int]). *)

From S2P Require Import Prelude Json JsonCodec Capacity Store Gateway Transfer TransferSpec TransferProps Admin.
From Stdlib Require Import Ascii.

Local Open Scope prog_scope.
Local Open Scope string_scope.
Local Open Scope Z_scope.

(** ** Python operators on decoded values *)

(** [s in t] on two [str]: [s] is a substring of [t]. *)
Fixpoint py_substring (s t : string) : bool :=
  String.prefix s t || match t with String _ t' => py_substring s t' | EmptyString => false end.

(** [k in data] for a [str] key; [None] when [in] raises [TypeError]
    (an [int], [float], [bool] or [None] is no container). *)
Definition py_contains (k : string) (data : json) : option bool :=
  match data with
  | JObj kvs => Some (bool_decide (k ∈ kvs.*1))
  | JArr l => Some (existsb (fun x => match x with JStr s => String.eqb s k | _ => false end) l)
  | JStr s => Some (py_substring k s)
  | _ => None
  end.

(** [all(field in data for field in fields)]: stops at the first [False],
    raises at the first [TypeError]. *)
Fixpoint py_all_in (fields : list string) (data : json) : option bool :=
  match fields with
  | [] => Some true
  | f :: fs =>
      match py_contains f data with
      | None => None
      | Some false => Some false
      | Some true => py_all_in fs data
      end
  end.

(** [data[k]] for a [str] key: [KeyError] when a dict lacks it,
    [TypeError] on a list, a [str] (their indices are integers) or a
    scalar. *)
Definition py_getitem (data : json) (k : string) : py_exn + json :=
  match data with
  | JObj kvs => match jget k kvs with Some v => inr v | None => inl (KeyError k) end
  | _ => inl TypeError
  end.

(** [for x in v]: the elements of a list, the keys of a dict, the
    characters of a [str] (one-character strings; only their number and
    their type matter to the handler); [TypeError] for a scalar. *)
Definition py_iter (v : json) : py_exn + list json :=
  match v with
  | JArr l => inr l
  | JObj kvs => inr ((fun kv => JStr kv.1) <$> kvs)
  | JStr s => inr ((fun c => JStr (String c EmptyString)) <$> String.list_ascii_of_string s)
  | _ => inl TypeError
  end.

(** ** Floats *)

(** The exponent of a number lexeme after its [e]: optional sign, digits. *)
Definition exp_value (s : string) : option Z :=
  match s with
  | String "+" d => if digits_only d then Some (dec_value 0 d) else None
  | String "-" d => if digits_only d then Some (- dec_value 0 d) else None
  | _ => if digits_only s then Some (dec_value 0 s) else None
  end.

(** The value of a float lexeme of the scanner ([JsonCodec.scan_number])
    when it is exactly an integer of magnitude at most [2^53], with
    whether the lexeme is negative; [None] otherwise (a fraction, a larger
    value, [NaN], [Infinity]). *)
Definition float_integral (lex : string) : option (bool * Z) :=
  let '(neg, r) := match lex with String "-" r => (true, r) | _ => (false, lex) end in
  let '(ip, r) := span_digits r in
  let '(fd, r) := match r with String "." r' => span_digits r' | _ => (EmptyString, r) end in
  let e := match r with
           | EmptyString => Some 0
           | String c r' => if (c =? "e")%char || (c =? "E")%char then exp_value r' else None
           end in
  match e with
  | None => None
  | Some e =>
      let m := dec_value 0 (ip +:+ fd) in
      let e := e - Z.of_nat (String.length fd) in
      let n := if m =? 0 then Some 0
               else if 0 <=? e then (if 15 <? e then None else Some (m * 10 ^ e))
               else if Z.of_nat (String.length (ip +:+ fd)) <? - e then None
               else if m mod 10 ^ (- e) =? 0 then Some (m / 10 ^ (- e)) else None in
      match n with
      | Some n => if n <=? 2 ^ 53 then Some (neg, if neg then - n else n) else None
      | None => None
      end
  end.

(** [repr] of a float with an integral value below [10^16]: the integer
    and [.0]; [-0.0] for a negative zero. *)
Definition float_str (neg : bool) (n : Z) : string :=
  if neg && (n =? 0) then "-0.0" else pretty n +:+ ".0".

(** ** Warehouse ids *)

(** The integer SQLite compares a warehouse id as, and Python's [str] of
    it; [None] for an id outside the model. *)
Definition wid_of (v : json) : option (Z * string) :=
  match v with
  | JInt z => Some (z, py_str_int z)
  | JBool b => Some (if b then 1 else 0, if b then "True" else "False")
  | JFloat lex => (fun '(neg, n) => (n, float_str neg n)) <$> float_integral lex
  | JStr s => (fun z => (z, s)) <$> text_key s
  | _ => None
  end.

(** [data['from_warehouse'] == data['to_warehouse']] (line 120) on two
    ids of the model with keys [a] and [b]: numbers compare by value, two
    [str] as strings, a [str] and a number are never equal. *)
Definition py_eq_id (f t : json) (a b : Z) : bool :=
  match f, t with
  | JStr x, JStr y => String.eqb x y
  | JStr _, _ | _, JStr _ => false
  | _, _ => a =? b
  end.

(** [warehouse_names[key]] in the dict [{str(w['id']): w['warehouse_name']
    for w in warehouses}] of line 133 (a later row with the same key wins). *)
Definition names_lookup (names : list (Z * string)) (key : string) : option string :=
  fold_left (fun acc '(i, n) => if String.eqb (py_str_int i) key then Some n else acc) names None.

(** ** Items *)

(** Lines 138-141 on one element of [products_to_get]: its product id and
    its quantity, or the exception [product_item[...]] or [<=] raises
    ([TypeError] when a [str], [None], list or dict is compared with
    [0]); [None] outside the model. *)
Definition item_front (it : json) : option (py_exn + Z * Z) :=
  match py_getitem it "product_id" with
  | inl e => Some (inl e)
  | inr pv =>
      match py_getitem it "quantity_needed" with
      | inl e => Some (inl e)
      | inr (JInt qn) => match pv with JInt pid => Some (inr (pid, qn)) | _ => None end
      | inr (JBool _ | JFloat _) => None
      | inr _ => Some (inl TypeError)
      end
  end.

(** Lines 153-207 once [source_inventory] has been read, with the ids
    [src] and [dst] as SQLite binds them and the keys [fkey] and [tkey]
    ([str] of the ids) that look up their names. *)
Definition transfer_checked_body (src dst : Z) (fkey tkey : string) (names : list (Z * string))
    (pid qn : Z) (source_inventory : list (Z * string)) (next : transfer_entry -> prog) : prog :=
  match source_inventory with
  | [] => Ret (product_not_found pid)
  | (available, pname) :: _ =>
      if available <? qn then Ret (insufficient_inventory pid available qn) else
      _ <- UpdateSubtractQuantity qn src pid except store_error ;;
      _ <- UpsertAddQuantity dst pid qn except store_error ;;
      update_statuses [src; dst] pid
        (match names_lookup names fkey with
         | None => Ret (Uncaught (KeyError fkey))
         | Some from_name =>
         match names_lookup names tkey with
         | None => Ret (Uncaught (KeyError tkey))
         | Some to_name => next (mk_entry pid pname qn from_name to_name)
         end end)
  end.

(** Lines 137-213: the loop over the elements, given the rows of the
    warehouse query and the entries recorded so far; [None] when an
    element is outside the model. *)
Fixpoint transfer_loop_body (src dst : Z) (fkey tkey : string) (items : list json)
    : option (list (Z * string) -> list transfer_entry -> prog) :=
  match items with
  | [] => Some (fun _ transfers => Ret (transfer_success transfers))
  | it :: rest =>
      match item_front it with
      | None => None
      | Some (inl e) => Some (fun _ _ => Ret (Uncaught e))
      | Some (inr (pid, qn)) =>
          loop_rest ← transfer_loop_body src dst fkey tkey rest;
          Some (fun names transfers =>
            if qn <=? 0 then Ret (invalid_quantity pid) else
            source_inventory <- SelectSourceInventory src pid except store_error ;;
            transfer_checked_body src dst fkey tkey names pid qn source_inventory
              (fun e => loop_rest names (transfers ++ [e])%list))
      end
  end.

(** Lines 124-213 once the two ids have passed line 120: the warehouse
    query, its check, then [data['products_to_get']] iterated (a
    [TypeError] there is no [sqlite3.Error] and escapes the [try]). *)
Definition transfer_ids_body (data : json) (src dst : Z) (fkey tkey : string) : option prog :=
  loop ← match py_getitem data "products_to_get" with
         | inl e => Some (fun _ _ => Ret (Uncaught e))
         | inr v =>
             match py_iter v with
             | inl e => Some (fun _ _ => Ret (Uncaught e))
             | inr items => transfer_loop_body src dst fkey tkey items
             end
         end;
  Some (warehouses <- SelectWarehousesIn src dst ;;
        if negb (length warehouses =? 2)%nat then Ret warehouses_missing else
        loop warehouses []).

(** Lines 113-216 on the decoded body [data]. *)
Definition product_transfer_body (data : json) : option prog :=
  match py_all_in required_fields data with
  | None => Some (Ret (Uncaught TypeError))
  | Some false => Some (Ret missing_fields)
  | Some true =>
      match py_getitem data "from_warehouse", py_getitem data "to_warehouse" with
      | inl e, _ | _, inl e => Some (Ret (Uncaught e))
      | inr f, inr t =>
          match wid_of f, wid_of t with
          | Some (src, fkey), Some (dst, tkey) =>
              if py_eq_id f t src dst then Some (Ret same_warehouse)
              else transfer_ids_body data src dst fkey tkey
          | _, _ => None
          end
      end
  end.

(** ** Typed requests as bodies *)

Definition int_field (k : string) (v : option Z) : list (string * json) :=
  match v with Some z => [(k, JInt z)] | None => [] end.

(** The body a client sends for a typed item and request: a missing field
    is an absent key. *)
Definition item_json (it : product_item) : json :=
  JObj (int_field "product_id" (product_id it) ++ int_field "quantity_needed" (quantity_needed it))%list.

Definition request_json (req : transfer_request) : json :=
  JObj (int_field "from_warehouse" (from_warehouse req) ++ int_field "to_warehouse" (to_warehouse req)
        ++ match products_to_get req with
           | Some items => [("products_to_get", JArr (item_json <$> items))]
           | None => []
           end)%list.

(** ** Lemmas *)

(** [update_statuses] respects the equivalence of its continuation. *)
#[export] Instance update_statuses_proper ws pid : Proper ((≡) ==> (≡)) (update_statuses ws pid).
Proof.
  intros k k' Hk. induction ws as [|w ws IH]; cbn [update_statuses]; [exact Hk|].
  apply Call_proper; [intros rows|intros ?; reflexivity].
  repeat case_match; first [exact IH | reflexivity | apply Call_proper; intros ?; [exact IH|reflexivity]].
Qed.

Lemma py_str_int_eqb i w : String.eqb (py_str_int i) (py_str_int w) = (i =? w).
Proof.
  destruct (String.eqb_spec (py_str_int i) (py_str_int w)) as [H|H].
  - apply (inj pretty) in H. subst. by rewrite Z.eqb_refl.
  - symmetry. apply Z.eqb_neq. by intros ->.
Qed.

(** For an [int] id, [str] finds the name as the typed handler does. *)
Lemma names_lookup_int names w : names_lookup names (py_str_int w) = warehouse_names_lookup names w.
Proof.
  unfold names_lookup, warehouse_names_lookup. generalize (@None string).
  induction names as [|[i n] names IH]; intros acc; [done|]. cbn [fold_left].
  rewrite py_str_int_eqb. apply IH.
Qed.

Lemma item_front_int it :
  item_front (item_json it)
  = Some (match product_id it, quantity_needed it with
          | None, _ => inl (KeyError "product_id")
          | Some _, None => inl (KeyError "quantity_needed")
          | Some pid, Some qn => inr (pid, qn)
          end).
Proof. destruct it as [[pid|] [qn|]]; reflexivity. Qed.

Lemma transfer_loop_body_int src dst items :
  exists L, transfer_loop_body src dst (py_str_int src) (py_str_int dst) (item_json <$> items) = Some L
            /\ forall names acc, L names acc ≡ transfer_loop src dst names items acc.
Proof.
  induction items as [|it rest (L & HL & Hequiv)]; [by eexists|].
  rewrite fmap_cons. cbn [transfer_loop_body transfer_loop]. rewrite item_front_int.
  destruct it as [[pid|] [qn|]]; cbn [product_id quantity_needed];
    [|by eexists; split; [reflexivity|intros; reflexivity]..].
  rewrite HL. eexists. split; [done|]. intros names acc. cbn beta.
  destruct (qn <=? 0); [reflexivity|]. apply Call_proper; [intros rows|intros ?; reflexivity].
  unfold transfer_checked_body, transfer_checked. destruct rows as [|[available pname] rows]; [reflexivity|].
  destruct (available <? qn); [reflexivity|].
  apply Call_proper; [intros u|intros ?; reflexivity]. apply Call_proper; [intros u'|intros ?; reflexivity].
  apply update_statuses_proper. rewrite !names_lookup_int. repeat case_match; try reflexivity. apply Hequiv.
Qed.

(** [eval_closed_decide] evaluates the decisions on closed propositions
    of the goal (membership of literal keys). *)
Ltac eval_closed_decide :=
  repeat match goal with |- context [bool_decide ?P] =>
    let b := eval vm_compute in (bool_decide P) in change (bool_decide P) with b; cbn iota end.

(** ** Python's [str] of an id and the names of the rows *)

(** The form of [str] of an [int]: an optional minus, then digits. *)
Definition int_text (s : string) : bool :=
  match s with
  | String c r => if (c =? "-")%char then digits_only r else digits_only s
  | EmptyString => false
  end.

Lemma int_text_pretty i : int_text (py_str_int i) = true.
Proof.
  unfold py_str_int. destruct (pretty_Z_digits i) as (d & -> & Hdig & _ & Hhead). case_bool_decide.
  - by rewrite string_app_cons, string_app_nil_l.
  - rewrite string_app_nil_l. destruct Hhead as [->|(c & d' & -> & _)]; [done|].
    cbn [int_text]. destruct (c =? "-")%char eqn:E; [|exact Hdig].
    apply Ascii.eqb_eq in E. by subst.
Qed.

Lemma int_text_float neg n : int_text (float_str neg n) = false.
Proof.
  unfold float_str. destruct (neg && (n =? 0)); [done|].
  destruct (pretty_Z_digits n) as (d & -> & Hdig & _ & Hhead). case_bool_decide.
  - rewrite string_app_assoc, string_app_cons, string_app_nil_l. cbn [int_text].
    rewrite digits_only_app. by rewrite andb_false_r.
  - rewrite string_app_nil_l. destruct Hhead as [->|(c & d' & -> & _)]; [done|].
    cbn [digits_only] in Hdig. apply andb_prop in Hdig as [Hc _].
    rewrite string_app_cons. cbn [int_text].
    destruct (c =? "-")%char eqn:E; [apply Ascii.eqb_eq in E; by subst|].
    change (digits_only (String c (d' +:+ ".0"))) with (digits_only (String c d' +:+ ".0")).
    rewrite digits_only_app. by rewrite andb_false_r.
Qed.

(** The [str] of an id is the [str] of a row id only for the id SQLite
    compares it as. *)
Lemma wid_key_pretty f k key i : wid_of f = Some (k, key) -> py_str_int i = key -> i = k.
Proof.
  intros Hf Hi. destruct f as [| b | z | lex | s | |]; cbn [wid_of] in Hf; try discriminate.
  - pose proof (int_text_pretty i) as Ht. rewrite Hi in Ht.
    destruct b; injection Hf as <- <-; discriminate.
  - injection Hf as <- <-. by apply (inj pretty).
  - destruct (float_integral lex) as [[neg n]|]; cbn in Hf; [|discriminate]. injection Hf as <- <-.
    pose proof (int_text_pretty i) as Ht. by rewrite Hi, int_text_float in Ht.
  - destruct (text_key s) as [z|] eqn:Hs; cbn in Hf; [|discriminate]. injection Hf as <- <-.
    rewrite <- Hi in Hs. unfold py_str_int in Hs. rewrite text_key_pretty in Hs.
    by destruct (in_int64 i); simplify_eq.
Qed.

Lemma py_eq_id_keys f t a ka b kb : wid_of f = Some (a, ka) -> wid_of t = Some (b, kb) ->
  py_eq_id f t a b = true -> a = b.
Proof.
  intros Hf Ht. destruct f, t; cbn [py_eq_id]; try discriminate; try (intros; by zbool).
  intros ->%String.eqb_eq. cbn [wid_of] in Hf, Ht. rewrite Ht in Hf. by simplify_eq.
Qed.

Lemma names_lookup_None names key :
  (forall i n, (i, n) ∈ names -> py_str_int i <> key) -> names_lookup names key = None.
Proof.
  intros Hn. unfold names_lookup. induction names as [|[i n] names IH]; [done|]. cbn [fold_left].
  rewrite (proj2 (String.eqb_neq _ _)) by (apply (Hn i n); by left).
  apply IH. intros j m Hj. apply (Hn j m). by right.
Qed.

(** The name of an existing warehouse among the query's rows. *)
Lemma names_lookup_row s src dst w r :
  w = src \/ w = dst -> Warehouse s !! w = Some r ->
  names_lookup (warehouses_in s src dst) (py_str_int w) = Some (warehouse_name r).
Proof.
  intros Hw Hr. rewrite names_lookup_int. apply warehouse_names_lookup_elem; [apply warehouses_in_NoDup|].
  apply warehouses_in_elem. eauto.
Qed.

(** The [str] of an id that is not the [str] of its integer names no
    row: a row id with that [str] would be the id's integer. *)
Lemma names_lookup_noncanonical names f w key :
  wid_of f = Some (w, key) -> key <> py_str_int w -> names_lookup names key = None.
Proof.
  intros Hf Hkey. apply names_lookup_None. intros i n _ Hi.
  pose proof (wid_key_pretty f w key i Hf Hi) as ->. by apply Hkey.
Qed.

(** The body with the three fields of the request. *)
Definition transfer_body3 (f t v : json) : json :=
  JObj [("from_warehouse", f); ("to_warehouse", t); ("products_to_get", v)].

Lemma product_transfer_body3 f t v :
  product_transfer_body (transfer_body3 f t v)
  = match wid_of f, wid_of t with
    | Some (src, fkey), Some (dst, tkey) =>
        if py_eq_id f t src dst then Some (Ret same_warehouse)
        else transfer_ids_body (transfer_body3 f t v) src dst fkey tkey
    | _, _ => None
    end.
Proof. reflexivity. Qed.

Lemma transfer_body3_items f t v : py_getitem (transfer_body3 f t v) "products_to_get" = inr v.
Proof. reflexivity. Qed.

(** The rest of an iteration once the source row has been read: the
    statements, then the two names looked up. *)
Lemma transfer_checked_body_run src dst fkey tkey names pid qn avail pname rows next s :
  in_int64 src = true -> in_int64 dst = true -> in_int64 pid = true -> in_int64 qn = true ->
  run (transfer_checked_body src dst fkey tkey names pid qn ((avail, pname) :: rows) next) s =
  if avail <? qn then (insufficient_inventory pid avail qn, s)
  else match restatus_all [src; dst] pid (move_stock src dst pid qn s) with
       | Next _ s' =>
           match names_lookup names fkey, names_lookup names tkey with
           | Some fname, Some tname => run (next (mk_entry pid pname qn fname tname)) s'
           | None, _ => (Uncaught (KeyError fkey), s')
           | Some _, None => (Uncaught (KeyError tkey), s')
           end
       | Stop o s' => (o, s')
       end.
Proof.
  intros Hsrc Hdst Hpid Hqn. unfold transfer_checked_body.
  destruct (avail <? qn); [done|].
  rewrite run_call by solve_params. rewrite run_call by solve_params.
  rewrite update_statuses_run by (repeat constructor; auto).
  change ((exec (UpsertAddQuantity dst pid qn)
             (exec (UpdateSubtractQuantity qn src pid) s).2).2)
    with (move_stock src dst pid qn s).
  destruct (restatus_all _ _ _) as [[] s'|o s']; [|done].
  by destruct (names_lookup names fkey), (names_lookup names tkey).
Qed.

Lemma move_stock_qty s src dst pid qn r : src <> dst -> Inventory s !! (src, pid) = Some r ->
  qty (move_stock src dst pid qn s) src pid = quantity r - qn
  /\ qty (move_stock src dst pid qn s) dst pid = qty s dst pid + qn.
Proof.
  intros Hne Hr. rewrite !(qty_move_stock s src dst pid qn r) by done. rewrite (qty_row s src pid r Hr).
  unfold δ. rewrite decide_False, decide_True, decide_True, decide_False by congruence. lia.
Qed.

(** A body with two distinct ids of existing warehouses: the check of
    line 120 and the warehouse query pass, and the loop starts. *)
Lemma run_transfer_body3 f t v src fkey dst tkey s ws wd L :
  wid_of f = Some (src, fkey) -> wid_of t = Some (dst, tkey) ->
  src <> dst -> in_int64 src = true -> in_int64 dst = true ->
  Warehouse s !! src = Some ws -> Warehouse s !! dst = Some wd ->
  match py_iter v with
  | inl e => Some (fun _ _ => Ret (Uncaught e))
  | inr items => transfer_loop_body src dst fkey tkey items
  end = Some L ->
  exists p, product_transfer_body (transfer_body3 f t v) = Some p
            /\ run p s = run (L (warehouses_in s src dst) []) s.
Proof.
  intros Hf Ht Hne Hsrc Hdst Hws Hwd HL. rewrite product_transfer_body3, Hf, Ht.
  destruct (py_eq_id f t src dst) eqn:Heq; [by apply py_eq_id_keys with (ka := fkey) (kb := tkey) in Heq|].
  unfold transfer_ids_body. rewrite transfer_body3_items, HL.
  eexists. split; [reflexivity|]. unfold call_unguarded. rewrite run_call by solve_params.
  cbn [exec fst snd].
  by rewrite (proj2 (warehouses_in_length s src dst Hne) (conj (mk_is_Some _ _ Hws) (mk_is_Some _ _ Hwd))).
Qed.

Lemma py_getitem_not_obj data k : (forall kvs, data <> JObj kvs) -> py_getitem data k = inl TypeError.
Proof. intros H. destruct data; try done. by destruct (H kvs). Qed.

(** ** Theorems *)

(** C37: the typed model is the handler on integer bodies.  On the body a
    client sends for a request whose ids and fields are integers (a
    missing field being an absent key), the handler of lines 113-216
    working on the decoded body is equivalent to [Transfer.product_transfer]:
    under every schedule of store faults and from every store it gives the
    same answer and leaves the same store.  [str] of an [int] id is the
    key of its row in the dict of names, [==] compares the integers. *)
Theorem transfer_body_int req : product_transfer_body (request_json req) ≡ Some (product_transfer req).
Proof.
  destruct req as [[src|] [dst|] [items|]]; unfold product_transfer_body, request_json, product_transfer;
    cbn [from_warehouse to_warehouse products_to_get int_field app]; cbn; eval_closed_decide; try reflexivity.
  destruct (src =? dst); [reflexivity|].
  destruct (transfer_loop_body_int src dst items) as (L & -> & HL). cbn.
  constructor. apply Call_proper; [intros ws|intros ?; reflexivity]. case_match; [reflexivity|apply HL].
Qed.

(** C38: a warehouse id that is not written as its integer moves the
    stock and then fails.  When [str] of the source or destination id is
    not the decimal text of the integer SQLite compares it as (a [float]
    such as [1.0], a [bool], a text such as ["01"]), the two warehouses
    are found and the first item, valid, has its stock subtracted from
    the source and added to the destination and both rows reclassified;
    then [warehouse_names[str(...)]] (lines 205-206) raises [KeyError]
    for the first such key and Flask answers 500.  The client sees a
    server error and the stock has moved. *)
Theorem transfer_body_noncanonical_id f t it rest src fkey dst tkey pid qn s p ws wd r pr :
  wid_of f = Some (src, fkey) -> wid_of t = Some (dst, tkey) ->
  fkey <> py_str_int src \/ tkey <> py_str_int dst ->
  src <> dst -> in_int64 src = true -> in_int64 dst = true ->
  Warehouse s !! src = Some ws -> Warehouse s !! dst = Some wd ->
  item_front it = Some (inr (pid, qn)) -> in_int64 pid = true -> in_int64 qn = true ->
  Inventory s !! (src, pid) = Some r -> Product s !! pid = Some pr -> 0 < qn <= quantity r ->
  caps_nonzero s pid ->
  product_transfer_body (transfer_body3 f t (JArr (it :: rest))) = Some p ->
  exists s', run p s = (Uncaught (KeyError (if String.eqb fkey (py_str_int src) then tkey else fkey)), s')
    /\ qty s' src pid = quantity r - qn /\ qty s' dst pid = qty s dst pid + qn.
Proof.
  intros Hf Ht Hkey Hne Hsrc Hdst Hws Hwd Hit Hpid Hqn Hr Hpr Hq Hc Hp.
  destruct (transfer_loop_body src dst fkey tkey rest) as [Lr|] eqn:HL.
  2: { rewrite product_transfer_body3, Hf, Ht in Hp. unfold transfer_ids_body in Hp.
       rewrite transfer_body3_items in Hp. cbn [py_iter transfer_loop_body] in Hp. rewrite Hit, HL in Hp.
       destruct (py_eq_id f t src dst) eqn:Heq; [|discriminate].
       by apply py_eq_id_keys with (ka := fkey) (kb := tkey) in Heq. }
  edestruct (run_transfer_body3 f t (JArr (it :: rest)) src fkey dst tkey s ws wd) as (p' & Hp' & Hrun);
    [done..| cbn [py_iter transfer_loop_body]; rewrite Hit, HL; reflexivity |].
  rewrite Hp' in Hp. injection Hp as <-. rewrite Hrun. cbn beta.
  rewrite (proj2 (Z.leb_gt qn 0)) by lia. rewrite run_call by solve_params. cbn [exec fst snd].
  rewrite Hr, Hpr, transfer_checked_body_run by done. rewrite (proj2 (Z.ltb_ge _ _)) by lia.
  destruct (restatus_all_next [src; dst] pid (move_stock src dst pid qn s)) as [s' Hs']; [exact Hc|].
  pose proof (qty_restatus_all [src; dst] pid (move_stock src dst pid qn s)) as Hqty.
  rewrite Hs' in Hqty |- *. cbn [sr_db] in Hqty. exists s'.
  split; [|rewrite !Hqty; by apply move_stock_qty].
  destruct (String.eqb_spec fkey (py_str_int src)) as [->|Hfk].
  - rewrite (names_lookup_row s src dst src ws) by auto.
    rewrite (names_lookup_noncanonical _ t dst tkey Ht); [done|]. by destruct Hkey.
  - by rewrite (names_lookup_noncanonical _ f src fkey Hf Hfk).
Qed.

Definition float_id_body : json :=
  transfer_body3 (JFloat "1.0") (JInt 2)
    (JArr [JObj [("product_id", JInt 7); ("quantity_needed", JInt 10)]]).

Lemma transfer_body_noncanonical_id_witness :
  exists p s', product_transfer_body float_id_body = Some p
    /\ run p sample_db = (Uncaught (KeyError "1.0"), s') /\ qty s' 1 7 = 10 /\ qty s' 2 7 = 10.
Proof.
  destruct (product_transfer_body float_id_body) as [p|] eqn:Hp; [|vm_compute in Hp; discriminate].
  destruct (transfer_body_noncanonical_id (JFloat "1.0") (JInt 2)
              (JObj [("product_id", JInt 7); ("quantity_needed", JInt 10)]) [] 1 "1.0" 2 "2" 7 10 sample_db p
              (mk_warehouse "A") (mk_warehouse "B") (mk_inventory 20 LOW_CAPACITY) (mk_product "P"))
    as (s' & Hrun & H1 & H2);
    [reflexivity | reflexivity | left; discriminate | lia | reflexivity | reflexivity | reflexivity
    | reflexivity | reflexivity | reflexivity | reflexivity | reflexivity | reflexivity | cbn; lia
    | apply sample_db_caps | exact Hp |].
  exists p, s'. split_and!; [reflexivity | exact Hrun | rewrite H1; reflexivity | rewrite H2; reflexivity].
Defined.

(** C39: bodies of the wrong JSON types.  A body that is not an object
    is answered before any statement: 400 [Missing required fields] when
    a required name is not in it ([in] on a list or a [str]), otherwise
    an escaping [TypeError] ([in] on a number or [null], or [data[...]]
    on a list or a [str]).  With two existing warehouses, a
    [products_to_get] that cannot be iterated (a number, [null]), or a
    first element that is not a dict or whose quantity is a [str],
    [null], a list or a dict, raises [TypeError] once the warehouses are
    checked, which the [except sqlite3.Error] does not catch: Flask
    answers 500, and nothing has been written.  A [products_to_get] that
    is an empty dict or an empty [str] is iterated as no item: 200 with
    no transfers.  The specification lists 400 for invalid fields. *)
Theorem transfer_body_type_errors s :
  (forall data, (forall kvs, data <> JObj kvs) ->
     exists p, product_transfer_body data = Some p
       /\ run p s = (if decide (py_all_in required_fields data = Some false)
                     then missing_fields else Uncaught TypeError, s))
  /\ (forall f t v src fkey dst tkey ws wd,
        wid_of f = Some (src, fkey) -> wid_of t = Some (dst, tkey) -> src <> dst ->
        in_int64 src = true -> in_int64 dst = true ->
        Warehouse s !! src = Some ws -> Warehouse s !! dst = Some wd ->
        (forall e, (py_iter v = inl e \/ exists it rest, py_iter v = inr (it :: rest) /\ item_front it = Some (inl e)) ->
           exists p, product_transfer_body (transfer_body3 f t v) = Some p /\ run p s = (Uncaught e, s))
        /\ (py_iter v = inr [] ->
           exists p, product_transfer_body (transfer_body3 f t v) = Some p /\ run p s = (transfer_success [], s))).
Proof.
  split.
  - intros data Hdata. unfold product_transfer_body. rewrite !py_getitem_not_obj by done.
    destruct (py_all_in required_fields data) as [[|]|]; (eexists; split; [reflexivity|]); done.
  - intros f t v src fkey dst tkey ws wd Hf Ht Hne Hsrc Hdst Hws Hwd. split.
    + intros e [He|(it & rest & He & Hit)].
      * edestruct (run_transfer_body3 f t v src fkey dst tkey s ws wd) as (p & Hp & Hrun);
          [done..| rewrite He; reflexivity |]. by exists p.
      * edestruct (run_transfer_body3 f t v src fkey dst tkey s ws wd) as (p & Hp & Hrun);
          [done..| rewrite He; cbn [transfer_loop_body]; rewrite Hit; reflexivity |]. by exists p.
    + intros He. edestruct (run_transfer_body3 f t v src fkey dst tkey s ws wd) as (p & Hp & Hrun);
        [done..| rewrite He; reflexivity |]. by exists p.
Qed.

Lemma transfer_body_type_errors_witness :
  (exists p, product_transfer_body (JInt 5) = Some p /\ run p sample_db = (Uncaught TypeError, sample_db))
  /\ (exists p, product_transfer_body (transfer_body3 (JInt 1) (JInt 2) JNull) = Some p
        /\ run p sample_db = (Uncaught TypeError, sample_db))
  /\ (exists p, product_transfer_body (transfer_body3 (JInt 1) (JInt 2) (JObj [])) = Some p
        /\ run p sample_db = (transfer_success [], sample_db)).
Proof.
  destruct (transfer_body_type_errors sample_db) as [Ha Hb].
  destruct (Hb (JInt 1) (JInt 2) JNull 1 "1" 2 "2" (mk_warehouse "A") (mk_warehouse "B"))
    as [Hb1 _]; [reflexivity | reflexivity | lia | reflexivity | reflexivity | reflexivity | reflexivity |].
  destruct (Hb (JInt 1) (JInt 2) (JObj []) 1 "1" 2 "2" (mk_warehouse "A") (mk_warehouse "B"))
    as [_ Hc]; [reflexivity | reflexivity | lia | reflexivity | reflexivity | reflexivity | reflexivity |].
  split_and!.
  - exact (Ha (JInt 5) ltac:(discriminate)).
  - apply Hb1. left. reflexivity.
  - apply Hc. reflexivity.
Defined.
