(* ===== verification/OrderBody.v ===== *)
(** * Purchase-order creation on the decoded request body (src/server.py, lines 66-90)

    [Admin.create_purchase_order] takes the two body fields as integers.
    The handler reads [data = request.get_json()] and calls [data.get]
    (lines 71-72), which raises [AttributeError] when the body is not a
    dict and gives [None] for a missing key; [not x] (line 74) is Python's
    truthiness: [None], [False], [0], [0.0], [""], [[]] and [{}] are
    false.  The supplier id is bound as SQLite compares it with the id
    column ([TransferBody.wid_of]: an [int], a [bool], an integral
    [float], a decimal text).  A body the model does not cover is [None]:
    a supplier id or amount whose truth value or binding is not modelled
    (a fraction or a text that is no number as supplier id), or an amount
    that is not an [int] once both are true (a [float] amount would be
    stored as a REAL, which the order rows do not hold). *)

From S2P Require Import Prelude Json JsonCodec Capacity Store Gateway Transfer TransferSpec TransferProps Admin TransferBody.

Local Open Scope prog_scope.
Local Open Scope string_scope.
Local Open Scope Z_scope.

(** [data.get(k)]: the value of [k], [None] when absent; [AttributeError]
    when [data] is not a dict. *)
Definition py_get (data : json) (k : string) : py_exn + json :=
  match data with
  | JObj kvs => inr (default JNull (jget k kvs))
  | _ => inl AttributeError
  end.

(** [not v]; [None] for a float whose value the model does not compute
    (a fraction may be a non-zero or, below the smallest binary64, a zero
    float). *)
Definition py_falsy (v : json) : option bool :=
  match v with
  | JNull => Some true
  | JBool b => Some (negb b)
  | JInt z => Some (z =? 0)
  | JFloat lex => (fun '(_, n) => n =? 0) <$> float_integral lex
  | JStr s => Some (String.eqb s "")
  | JArr l => Some (bool_decide (l = []))
  | JObj kvs => Some (bool_decide (kvs = []))
  end.

Definition order_fields_required : outcome :=
  Response 400 (error_body "Supplier ID and Total amount are required").

(** Lines 79-90, once both fields are true: the supplier check, the
    insert and its [except sqlite3.Error] branch. *)
Definition order_insert (sid amount : Z) : prog :=
  supplier <- SelectSupplierId sid ;;
  match supplier with
  | [] => Ret (Response 404 (error_body "Supplier not found"))
  | _ :: _ =>
      purchase_order <- CreatePurchaseOrder sid amount
        except (fun msg => Ret (Response 400 (error_body msg))) ;;
      match purchase_order with
      | row :: _ => Ret (Response 201 (purchase_order_json row))
      | [] => Ret (Uncaught IndexError)
      end
  end.

(** Lines 68-90 on the decoded body [data]. *)
Definition create_purchase_order_body (data : json) : option prog :=
  match py_get data "supplier_id", py_get data "total_amount" with
  | inl e, _ | _, inl e => Some (Ret (Uncaught e))
  | inr sv, inr av =>
      match py_falsy sv with
      | None => None
      | Some true => Some (Ret order_fields_required)
      | Some false =>
          match py_falsy av with
          | None => None
          | Some true => Some (Ret order_fields_required)
          | Some false =>
              match wid_of sv, av with
              | Some (sid, _), JInt amount => Some (order_insert sid amount)
              | _, _ => None
              end
          end
      end
  end.

(** The body a client sends for the typed fields: a missing field is an
    absent key. *)
Definition order_json (sid amount : option Z) : json :=
  JObj (int_field "supplier_id" sid ++ int_field "total_amount" amount)%list.

(** ** Lemmas *)

(** Past its validation, the typed handler is the insert. *)
Lemma create_purchase_order_insert sid amount :
  sid <> 0 -> amount <> 0 -> create_purchase_order (Some sid) (Some amount) = order_insert sid amount.
Proof.
  intros Hs Ha. unfold create_purchase_order.
  by rewrite (proj2 (Z.eqb_neq _ _) Hs), (proj2 (Z.eqb_neq _ _) Ha).
Qed.

(** On the body of integer fields, the handler on the decoded body is the
    typed one: [None] and [0] are false, every other integer is true and
    bound as itself. *)
Lemma create_purchase_order_body_int sid amount :
  create_purchase_order_body (order_json sid amount) = Some (create_purchase_order sid amount).
Proof.
  destruct sid as [s|], amount as [a|]; unfold create_purchase_order_body, order_json;
    cbn -[create_purchase_order order_insert].
  - destruct (Z.eqb_spec s 0) as [->|Hs]; [done|].
    destruct (Z.eqb_spec a 0) as [->|Ha]; [unfold create_purchase_order; by rewrite orb_true_r|].
    by rewrite create_purchase_order_insert.
  - by destruct (s =? 0).
  - done.
  - done.
Qed.

(** A supplier id sent as the text ["3"] is bound as the integer [3]: the
    order is created for supplier 3, as for the [int]. *)
Lemma create_purchase_order_body_text_id :
  create_purchase_order_body (JObj [("supplier_id", JStr "3"); ("total_amount", JInt 250)])
  = Some (create_purchase_order (Some 3) (Some 250)).
Proof. reflexivity. Qed.

(** A body that is not a dict raises [AttributeError] before any
    statement. *)
Lemma create_purchase_order_body_not_dict data :
  (forall kvs, data <> JObj kvs) -> create_purchase_order_body data = Some (Ret (Uncaught AttributeError)).
Proof. intros H. destruct data; try done. by destruct (H kvs). Qed.
