(* ===== verification/Server.v ===== *)
(** * The server: its endpoints and the histories of requests

    [src/server.py] registers six handlers with [@app.route] (lines 24, 29,
    49, 66, 94, 111).  [endpoint] is a request to one of them with its
    parameters; [handler] dispatches it; [serve] runs it on the store.  A
    history is a sequence of requests served one after the other
    ([server_step] and its closure [star]); Flask's threads interleaving
    the statements of concurrent requests are the subject of [Interleave].

    The invariants of a history: quantities stay non-negative, every
    inventory row refers to an existing warehouse and product, the stock of
    every product over the warehouses stays the same, and, when no
    capacity row has a zero maximal capacity, every row's status is the
    one its quantity gives.  And for every endpoint, under any fault
    schedule, the status code of every response is one the specification
    lists for it. *)

From S2P Require Import Prelude Json JsonCodec Capacity Store Gateway Transfer TransferSpec TransferProps TransferStatus Admin Receipt.

Local Open Scope Z_scope.

(** ** Endpoints *)

Inductive endpoint : Type :=
(** [GET /v1/administrative/home/] *)
| EHome
(** [GET /v1/administrative/warehouse/products/?warehouse_id=...] *)
| EWarehouseProducts (warehouse_id : option string)
(** [GET /v1/administrative/product_receipt/detail/?receipt_id=...] *)
| EReceiptDetail (receipt_id : option string)
(** [POST /v1/administrative/purchase_order/create/] with its body *)
| ECreatePurchaseOrder (supplier_id total_amount : option Z)
(** [GET /v1/warehouse/fill_capacity/?warehouse_id=...] *)
| EFillCapacity (warehouse_id : option string)
(** [PUT /v1/warehouse/transfer/] with its body *)
| ETransfer (req : transfer_request).

Definition handler (e : endpoint) : prog :=
  match e with
  | EHome => warehouse_home_display
  | EWarehouseProducts x => warehouse_products x
  | EReceiptDetail x => product_receipt_detail x
  | ECreatePurchaseOrder sid amount => create_purchase_order sid amount
  | EFillCapacity x => warehouse_fill_capacity x
  | ETransfer req => product_transfer req
  end.

Definition serve (e : endpoint) (s : db) : outcome * db := run (handler e) s.

(** Requests served one after the other: the responses and the store. *)
Fixpoint serve_all (es : list endpoint) (s : db) : list outcome * db :=
  match es with
  | [] => ([], s)
  | e :: rest => let '(o, s1) := serve e s in let '(os, s2) := serve_all rest s1 in (o :: os, s2)
  end.

Inductive server_step : db -> db -> Prop :=
| server_step_serve e s : server_step s (serve e s).2.

(** ** Status codes *)

(** The status codes the table of the specification (section 6) lists
    for each endpoint, success and failure. *)
Definition spec_codes (e : endpoint) : list Z :=
  match e with
  | EHome => [200]
  | EWarehouseProducts _ | EReceiptDetail _ | EFillCapacity _ => [200; 400; 404]
  | ECreatePurchaseOrder _ _ => [201; 400; 404]
  | ETransfer _ => [200; 400; 404; 500]
  end.

(** Every response a program can give, after any rows and in any
    [except] branch, satisfies [R] (its code and body).  An escaping
    exception is not a response of the handler (Flask answers it with
    500). *)
Definition answers (R : Z -> json -> Prop) (o : outcome) : Prop :=
  match o with Response c b => R c b | Uncaught _ => True end.

Fixpoint responds (R : Z -> json -> Prop) (t : prog) : Prop :=
  match t with
  | Ret o => answers R o
  | Call _ k h => (forall a, responds R (k a)) /\ (forall msg, responds R (h msg))
  end.

(** Every response carries a code of [L]. *)
Definition codes_in (L : list Z) : prog -> Prop := responds (fun c _ => c ∈ L).

(** ** Invariants of the store *)

(** Every inventory row refers to an existing warehouse and product. *)
Definition refint (s : db) : Prop :=
  map_Forall (fun k _ => is_Some (Warehouse s !! k.1) /\ is_Some (Product s !! k.2)) (Inventory s).

(** No capacity row has a zero maximal capacity. *)
Definition caps_all_nonzero (s : db) : Prop :=
  map_Forall (fun _ c => max_capacity c <> 0) (WarehouseCapacity s).

(** Every inventory row carries the status of its quantity. *)
Definition all_current (s : db) : Prop :=
  map_Forall (fun k _ => status_current s k.1 k.2 = true) (Inventory s).

(** The stock of product [p] over the warehouses. *)
Definition stock (s : db) (p : Z) : Z := sum_with (fun w => qty s w p) (map_to_list (Warehouse s)).*1.

(** ** Statements that leave the inventory alone *)

Definition writes_inventory {A} (q : query A) : bool :=
  match q with
  | UpdateSubtractQuantity _ _ _ | UpsertAddQuantity _ _ _ | UpdateStatus _ _ _ => true
  | _ => false
  end.

(** The tables the inventory invariants read. *)
Definition catalog (s : db) :=
  (Warehouse s, Product s, Inventory s, WarehouseCapacity s).

Lemma exec_catalog {A} (q : query A) s : writes_inventory q = false -> catalog (exec q s).2 = catalog s.
Proof. by destruct q. Qed.

(** Programs that send no statement writing the inventory and whose
    [except] branches answer at once. *)
Inductive keeps_catalog : prog -> Prop :=
| kc_ret o : keeps_catalog (Ret o)
| kc_call A (q : query A) k h :
    writes_inventory q = false -> (forall a, keeps_catalog (k a)) -> (forall m, exists o, h m = Ret o) ->
    keeps_catalog (Call q k h).

Lemma run_keeps_catalog p : keeps_catalog p -> forall s, catalog (run p s).2 = catalog s.
Proof.
  induction 1 as [o|A q k h Hq Hk IH Hh]; intros s; [done|]. simpl.
  destruct (params_ok q); [|done].
  pose proof (exec_catalog q s Hq). destruct (exec q s) as [a s']. simpl in *.
  by rewrite IH.
Qed.

Lemma handlers_keep_catalog e :
  (forall req, e <> ETransfer req) -> keeps_catalog (handler e).
Proof.
  intros Hne. destruct e as [| | | | |req]; [..| by destruct (Hne req)]; cbn [handler];
    unfold warehouse_home_display, warehouse_products, product_receipt_detail,
      create_purchase_order, warehouse_fill_capacity, call_unguarded;
    repeat (constructor || intros || case_match || eexists).
Qed.

(** ** The transfer on the tables *)

(** The tables other than [Inventory] are those of the store a step of
    the specification started from. *)
Definition same_tables (s s' : db) : Prop :=
  Warehouse s' = Warehouse s /\ Product s' = Product s /\ WarehouseCapacity s' = WarehouseCapacity s.

Lemma restatus_all_tables ws p s : same_tables s (sr_db (restatus_all ws p s)).
Proof.
  revert s. induction ws as [|w ws IH]; intros s; [done|]. cbn [restatus_all]. unfold restatus.
  destruct (Inventory s !! (w, p)), (WarehouseCapacity s !! (w, p)); try apply IH.
  destruct (new_status _ _ _) as [st|]; [|done].
  destruct (IH (set_status w p st s)) as (? & ? & ?). split_and!; assumption.
Qed.

Lemma item_spec_tables src dst fname tname it s :
  same_tables s (sr_db (item_spec src dst fname tname it s)).
Proof.
  unfold item_spec. repeat case_match; try done.
  all: match goal with
       | H : restatus_all ?ws ?p ?s0 = _ |- _ =>
           pose proof (restatus_all_tables ws p s0) as Ht; rewrite H in Ht; exact Ht
       end.
Qed.

Lemma items_spec_tables src dst fname tname items acc s :
  same_tables s (items_spec src dst fname tname items acc s).2.
Proof.
  revert acc s. induction items as [|it rest IH]; intros acc s; [done|]. cbn [items_spec].
  pose proof (item_spec_tables src dst fname tname it s) as Ht.
  destruct (item_spec _ _ _ _ _ _) as [e s1|o s1]; [|done]. cbn [sr_db] in Ht.
  destruct Ht as (H1 & H2 & H3), (IH (acc ++ [e]) s1) as (H1' & H2' & H3').
  split_and!; congruence.
Qed.

(** A transfer request ends in the store it started from, or runs its
    items between two distinct warehouses that exist. *)
Lemma transfer_spec_cases req s :
  (transfer_spec req s).2 = s \/
  exists src dst ws wd items, Warehouse s !! src = Some ws /\ Warehouse s !! dst = Some wd
    /\ src <> dst
    /\ (transfer_spec req s).2
       = (items_spec src dst (warehouse_name ws) (warehouse_name wd) items [] s).2.
Proof.
  unfold transfer_spec.
  destruct (from_warehouse req) as [src|], (to_warehouse req) as [dst|],
    (products_to_get req) as [items|]; try by left.
  case_if; [by left|]. destruct (negb _); [by left|].
  destruct (Warehouse s !! src) as [ws|] eqn:Hs, (Warehouse s !! dst) as [wd|] eqn:Hd; try by left.
  right. exists src, dst, ws, wd, items. split_and!; [done | done | by zbool | done].
Qed.

(** ** One item of a transfer *)

(** An item leaves the store as it is, or moves [qn] units of a known
    product whose source row exists and reclassifies both rows. *)
Lemma item_spec_cases src dst fname tname it s :
  sr_db (item_spec src dst fname tname it s) = s \/
  exists pid qn r pr, Inventory s !! (src, pid) = Some r /\ Product s !! pid = Some pr
    /\ 0 < qn <= quantity r
    /\ sr_db (item_spec src dst fname tname it s)
       = sr_db (restatus_all [src; dst] pid (move_stock src dst pid qn s)).
Proof.
  unfold item_spec.
  destruct (product_id it) as [pid|]; [|by left]. destruct (quantity_needed it) as [qn|]; [|by left].
  case_if; [by left|]. destruct (negb (in_int64 pid)); [by left|].
  destruct (Inventory s !! (src, pid)) as [r|] eqn:Hr, (Product s !! pid) as [pr|] eqn:Hp;
    try by left.
  case_if; [by left|]. destruct (negb (in_int64 qn)); [by left|].
  right. exists pid, qn, r, pr. split_and!; [done | done | zbool; lia | zbool; lia |].
  by destruct (restatus_all _ _ _).
Qed.

Lemma item_spec_refint src dst fname tname it s :
  is_Some (Warehouse s !! dst) -> refint s -> refint (sr_db (item_spec src dst fname tname it s)).
Proof.
  intros Hd Hr.
  destruct (item_spec_tables src dst fname tname it s) as (Hw & Hp & _).
  destruct (item_spec_cases src dst fname tname it s) as [->|(pid & qn & r & pr & _ & Hpr & _ & E)];
    [done|].
  intros [w p] x Hk. rewrite Hw, Hp. cbn [fst snd].
  assert (Hs : is_Some (Inventory (sr_db (item_spec src dst fname tname it s)) !! (w, p))) by eauto.
  rewrite E, restatus_all_keys in Hs.
  destruct (move_stock_keys _ _ _ _ _ _ Hs) as [[= -> ->]|[y Hy]]; [by split; eauto|].
  exact (Hr (w, p) y Hy).
Qed.

Lemma all_current_iff s : all_current s <-> forall w p, status_current s w p = true.
Proof.
  split.
  - intros H w p. destruct (Inventory s !! (w, p)) as [r|] eqn:E.
    + exact (H (w, p) r E).
    + unfold status_current. by rewrite E.
  - intros H [w p] _ _. apply H.
Qed.

Lemma item_spec_all_current src dst fname tname it s :
  src <> dst -> caps_all_nonzero s -> all_current s ->
  all_current (sr_db (item_spec src dst fname tname it s)).
Proof.
  intros Hne Hc Ha.
  destruct (item_spec_cases src dst fname tname it s) as [->|(pid & qn & r & pr & _ & _ & _ & ->)];
    [done|].
  destruct (restatus_all_next [src; dst] pid (move_stock src dst pid qn s)) as [s' Hs'].
  { intros w c Hwc. exact (Hc (w, pid) c Hwc). }
  rewrite Hs'. cbn [sr_db]. apply all_current_iff. intros w p.
  assert (Hnd : NoDup [src; dst]) by (apply NoDup_cons; split; [set_solver | apply NoDup_singleton]).
  destruct (decide (p = pid /\ (w = src \/ w = dst))) as [[-> Hw]|Hwp].
  - eapply restatus_all_current; [exact Hnd | exact Hs' | set_solver].
  - rewrite <- (proj1 (all_current_iff s) Ha w p). apply status_current_agree.
    change s' with (sr_db (Next tt s' : step_result unit)). rewrite <- Hs'.
    rewrite restatus_all_row by (intros w' Hw' [= -> ->]; set_solver).
    apply move_stock_row; intros [= -> ->]; tauto.
Qed.

Lemma items_spec_refint src dst fname tname items acc s :
  is_Some (Warehouse s !! dst) -> refint s -> refint (items_spec src dst fname tname items acc s).2.
Proof.
  revert acc s. induction items as [|it rest IH]; intros acc s Hd Hr; [done|]. cbn [items_spec].
  pose proof (item_spec_refint src dst fname tname it s Hd Hr) as Hr'.
  destruct (item_spec_tables src dst fname tname it s) as (Hw & _ & _).
  destruct (item_spec _ _ _ _ _ _) as [e s1|o s1]; [|done]. cbn [sr_db] in *.
  apply IH; [by rewrite Hw | done].
Qed.

Lemma items_spec_all_current src dst fname tname items acc s :
  src <> dst -> caps_all_nonzero s -> all_current s ->
  all_current (items_spec src dst fname tname items acc s).2.
Proof.
  intros Hne. revert acc s. induction items as [|it rest IH]; intros acc s Hc Ha; [done|].
  cbn [items_spec].
  pose proof (item_spec_all_current src dst fname tname it s Hne Hc Ha) as Ha'.
  destruct (item_spec_tables src dst fname tname it s) as (_ & _ & Hwc).
  destruct (item_spec _ _ _ _ _ _) as [e s1|o s1]; [|done]. cbn [sr_db] in *.
  apply IH; [unfold caps_all_nonzero; by rewrite Hwc | done].
Qed.

(** ** One request *)

Lemma catalog_eq s s' :
  catalog s' = catalog s ->
  Warehouse s' = Warehouse s /\ Product s' = Product s /\ Inventory s' = Inventory s
  /\ WarehouseCapacity s' = WarehouseCapacity s.
Proof. by intros [= -> -> -> ->]. Qed.

(** A request other than a transfer leaves the inventory tables alone. *)
Lemma serve_catalog e s : (forall req, e <> ETransfer req) -> catalog (serve e s).2 = catalog s.
Proof. intros He. by apply run_keeps_catalog, handlers_keep_catalog. Qed.

(** A transfer request ends in the store it started from, or runs its
    items between two distinct existing warehouses. *)
Lemma serve_transfer_cases req s :
  (serve (ETransfer req) s).2 = s \/
  exists src dst ws wd items, Warehouse s !! src = Some ws /\ Warehouse s !! dst = Some wd
    /\ src <> dst
    /\ (serve (ETransfer req) s).2
       = (items_spec src dst (warehouse_name ws) (warehouse_name wd) items [] s).2.
Proof. unfold serve. cbn [handler]. rewrite transfer_refines_spec. apply transfer_spec_cases. Qed.

(** What one request does: it leaves the inventory tables alone, or it
    is a transfer that leaves the store alone or runs its items. *)
Lemma serve_cases e s :
  catalog (serve e s).2 = catalog s \/ (serve e s).2 = s \/
  exists src dst ws wd items, Warehouse s !! src = Some ws /\ Warehouse s !! dst = Some wd
    /\ src <> dst
    /\ (serve e s).2 = (items_spec src dst (warehouse_name ws) (warehouse_name wd) items [] s).2.
Proof.
  destruct e as [| | | | |req]; try (left; apply serve_catalog; discriminate).
  right. apply serve_transfer_cases.
Qed.

Ltac serve_cases e s :=
  destruct (serve_cases e s)
    as [(Hw & Hp & Hi & Hc)%catalog_eq | [-> | (src & dst & ws & wd & items & Hsrc & Hdst & Hne & ->)]].

Lemma serve_nonneg e s : nonneg s -> nonneg (serve e s).2.
Proof.
  intros Hn. serve_cases e s; [intros w p; unfold qty; rewrite Hi; apply Hn | done |].
  eapply star_invariant; [| apply (items_spec_star src dst Hne) | exact Hn].
  intros a b. by apply transfer_step_nonneg.
Qed.

Lemma serve_refint e s : refint s -> refint (serve e s).2.
Proof.
  intros Hr. serve_cases e s; [unfold refint; by rewrite Hw, Hp, Hi | done |].
  by apply items_spec_refint; [eauto|].
Qed.

Lemma serve_current e s :
  caps_all_nonzero s -> all_current s -> caps_all_nonzero (serve e s).2 /\ all_current (serve e s).2.
Proof.
  intros Hcs Ha. serve_cases e s; [| done |].
  - split; [unfold caps_all_nonzero; by rewrite Hc|].
    apply all_current_iff. intros w p. rewrite <- (proj1 (all_current_iff s) Ha w p).
    apply status_current_agree. unfold row_at. by rewrite Hi, Hc.
  - destruct (items_spec_tables src dst (warehouse_name ws) (warehouse_name wd) items [] s)
      as (_ & _ & Hwc).
    split; [unfold caps_all_nonzero; by rewrite Hwc | by apply items_spec_all_current].
Qed.

(** ** The stock of a product *)

Lemma delta_same a p w q : δ (a, p) (w, p) q = if decide (w = a) then q else 0.
Proof. unfold δ. repeat case_decide; congruence. Qed.

Lemma delta_other a p p' w q : p <> p' -> δ (a, p') (w, p) q = 0.
Proof. intros Hp. unfold δ. case_decide; congruence. Qed.

Lemma sum_with_zero {A} (l : list A) : sum_with (fun _ => 0) l = 0.
Proof. induction l; simpl; lia. Qed.

(** A step moves units between two warehouses of [K]: the sum over [K]
    stays. *)
Lemma transfer_step_sum src dst (K : list Z) p x y :
  NoDup K -> src ∈ K -> dst ∈ K -> transfer_step src dst x y ->
  sum_with (fun w => qty y w p) K = sum_with (fun w => qty x w p) K.
Proof.
  intros Hnd Hs Hd [Hq|(pid & qn & _ & Hq)]; [apply sum_with_ext; intros; apply Hq|].
  rewrite (sum_with_ext _ (fun w => qty x w p + δ (dst, pid) (w, p) qn - δ (src, pid) (w, p) qn))
    by (intros; apply Hq).
  rewrite sum_with_minus, sum_with_plus.
  destruct (decide (p = pid)) as [->|Hp].
  - setoid_rewrite delta_same. rewrite !sum_with_point by done. lia.
  - setoid_rewrite delta_other; [|done..]. rewrite sum_with_zero. lia.
Qed.

Lemma serve_stock e s p : stock (serve e s).2 p = stock s p.
Proof.
  serve_cases e s; [unfold stock, qty; by rewrite Hw, Hi | done |].
  destruct (items_spec_tables src dst (warehouse_name ws) (warehouse_name wd) items [] s)
    as (Hw & _ & _).
  unfold stock. rewrite Hw.
  assert (Hin : forall w x, Warehouse s !! w = Some x -> w ∈ (map_to_list (Warehouse s)).*1).
  { intros w x Hx. apply list_elem_of_fmap. exists (w, x). split; [done|].
    by apply elem_of_map_to_list. }
  eapply (star_invariant _ (fun y => sum_with (fun w => qty y w p) _ = _));
    [| apply (items_spec_star src dst Hne) | done].
  intros a b Ha Hab. rewrite <- Ha.
  apply (transfer_step_sum src dst); [apply NoDup_fst_map_to_list | by eapply Hin | by eapply Hin | done].
Qed.

Lemma serve_all_star es s : star server_step s (serve_all es s).2.
Proof.
  revert s. induction es as [|e es IH]; intros s; [apply star_refl|]. cbn [serve_all].
  destruct (serve e s) as [o s1] eqn:E. specialize (IH s1).
  destruct (serve_all es s1) as [os s2]. cbn [snd] in *.
  eapply star_step; [|exact IH]. assert (s1 = (serve e s).2) as -> by (by rewrite E). constructor.
Qed.

(** ** Histories of requests *)

(** A history on the sample store: a transfer, a purchase order, then a
    listing of the destination warehouse. *)
Definition sample_history : list endpoint :=
  [ETransfer sample_request; ECreatePurchaseOrder (Some 3) (Some 250); EWarehouseProducts (Some "2")].

(** C24: the integrity of the inventory over any history.  Requests
    served one after the other, whatever they are and whatever they answer,
    keep every quantity non-negative and every inventory row attached to
    an existing warehouse and an existing product. *)
Theorem server_history_integrity s s' :
  star server_step s s' -> nonneg s -> refint s -> nonneg s' /\ refint s'.
Proof.
  intros Hs Hn Hr.
  refine (star_invariant _ (fun x => nonneg x /\ refint x) _ _ _ Hs (conj Hn Hr)).
  intros a b [Ha Hra] Hab. destruct Hab as [e a].
  split; [by apply serve_nonneg | by apply serve_refint].
Qed.

Lemma server_history_integrity_witness :
  nonneg (serve_all sample_history sample_db).2 /\ refint (serve_all sample_history sample_db).2.
Proof.
  apply (server_history_integrity sample_db).
  - apply serve_all_star.
  - apply sample_db_nonneg.
  - apply (bool_decide_unpack _). vm_compute. reflexivity.
Defined.

(** C25: no history creates or destroys stock.  In the sequential
    semantics without store faults, the stock of every product over the
    warehouses after any history of requests is the stock before it:
    transfers move units, and no other request touches the inventory. *)
Theorem server_history_stock s s' p : star server_step s s' -> stock s' p = stock s p.
Proof.
  intros Hs. refine (star_invariant _ (fun x => stock x p = stock s p) _ _ _ Hs eq_refl).
  intros a b Ha Hab. destruct Hab as [e a]. by rewrite serve_stock.
Qed.

Lemma server_history_stock_witness :
  stock (serve_all sample_history sample_db).2 7 = stock sample_db 7.
Proof. apply server_history_stock, serve_all_star. Defined.

(** C26: statuses stay current over any history when no capacity is
    zero.  If no capacity row has a zero maximal capacity and every
    inventory row carries the status of its quantity, then after any
    history of requests both still hold: every reclassification of
    [product_transfer] completes. *)
Theorem server_history_statuses s s' :
  star server_step s s' -> caps_all_nonzero s -> all_current s -> all_current s'.
Proof.
  intros Hs Hc Ha.
  refine (proj2 (star_invariant _ (fun x => caps_all_nonzero x /\ all_current x) _ _ _ Hs
                   (conj Hc Ha))).
  intros a b [Hca Haa] Hab. destruct Hab as [e a]. by apply serve_current.
Qed.

Lemma server_history_statuses_witness : all_current (serve_all sample_history sample_db).2.
Proof.
  apply (server_history_statuses sample_db).
  - apply serve_all_star.
  - apply (bool_decide_unpack _). vm_compute. reflexivity.
  - apply (bool_decide_unpack _). vm_compute. reflexivity.
Defined.

(** The hypothesis on capacities is needed: in [sample_db_zero_cap] every
    inventory row is current, but the capacity row of the destination has a
    zero maximal capacity; the transfer creates the destination row and
    its reclassification raises [ZeroDivisionError], leaving a row whose
    status is not the one of its quantity. *)
Lemma statuses_need_nonzero_capacities :
  all_current sample_db_zero_cap
  /\ ~ all_current (serve (ETransfer sample_request) sample_db_zero_cap).2.
Proof.
  split; [apply (bool_decide_unpack _); vm_compute; reflexivity|].
  intros H. apply (bool_decide_pack _) in H. vm_compute in H. exact H.
Qed.

(** ** Status codes *)

(** What [responds] promises holds of the answer of any run, under any
    schedule of store faults. *)
Lemma responds_run_sched R t : responds R t -> forall sched s, answers R (run_sched sched t s).1.
Proof.
  induction t as [o|A q k IH h IHh]; intros Ht sched s; [done|]. destruct Ht as [Hk Hh].
  cbn [run_sched]. destruct (params_ok q); [|done].
  destruct sched as [|[msg|] rest]; [| apply IHh, Hh |]; destruct (exec q s); apply IH, Hk.
Qed.

(** [responds_solve] follows every branch of a program tree whose
    responses are written out, leaving what [R] must hold of each. *)
Ltac responds_solve :=
  unfold transfer_success, product_not_found, insufficient_inventory, invalid_quantity,
    warehouses_missing, missing_fields, same_warehouse, store_error, call_unguarded;
  repeat (cbn [responds answers] || split || intros || case_match).

Lemma responds_update_statuses R ws pid k :
  (forall msg, R 500 (error_body msg)) -> responds R k -> responds R (update_statuses ws pid k).
Proof.
  intros H5 Hk. induction ws as [|w ws IH]; [done|]. cbn [update_statuses]. responds_solve; done.
Qed.

(** The answers of the transfer loop are the responses it writes out:
    a property of those holds of every answer of the loop. *)
Lemma responds_transfer_loop R src dst names items :
  (forall acc, answers R (transfer_success acc)) ->
  (forall pid, answers R (invalid_quantity pid)) ->
  (forall pid, answers R (product_not_found pid)) ->
  (forall pid a q, answers R (insufficient_inventory pid a q)) ->
  (forall msg, R 500 (error_body msg)) ->
  forall acc, responds R (transfer_loop src dst names items acc).
Proof.
  intros Hs Hq Hp Hi H5. induction items as [|item rest IH]; intros acc; cbn [transfer_loop]; [apply Hs|].
  destruct (product_id item) as [pid|]; [|done]. destruct (quantity_needed item) as [qn|]; [|done].
  destruct (qn <=? 0); [apply Hq|]. split; intros rows; [|exact (H5 _)].
  unfold transfer_checked. destruct rows as [|[available pname] ?]; [apply Hp|].
  destruct (available <? qn); [apply Hi|].
  split; intros; [|exact (H5 _)]. split; intros; [|exact (H5 _)].
  apply responds_update_statuses; [done|]. repeat case_match; done.
Qed.

Lemma codes_in_handler e : codes_in (spec_codes e) (handler e).
Proof.
  unfold codes_in. destruct e; cbn [handler spec_codes];
    unfold warehouse_home_display, warehouse_products, product_receipt_detail,
      create_purchase_order, warehouse_fill_capacity, product_transfer; responds_solve.
  all: try (apply list_elem_of_In; cbn; tauto).
  apply responds_transfer_loop; intros; apply list_elem_of_In; cbn; tauto.
Qed.

(** C32: the status codes of the responses.  Under any schedule of store
    faults, every response a handler gives carries a status code that
    the table of the specification (section 6) lists for its endpoint.
    The other answers are exceptions that escape the handler, which Flask
    answers with 500 although the table lists no 500 for them: a store
    error in the home view, the receipt's [JSONDecodeError] and
    [TypeError], [OverflowError], [ZeroDivisionError], [KeyError]. *)
Theorem handlers_answer_spec_codes e sched s c b :
  (run_sched sched (handler e) s).1 = Response c b -> c ∈ spec_codes e.
Proof.
  intros Hr. pose proof (responds_run_sched _ _ (codes_in_handler e) sched s) as H.
  by rewrite Hr in H.
Qed.

Lemma handlers_answer_spec_codes_witness :
  (run_sched [None; None; None; Some "database is locked"] (handler (ETransfer sample_request)) sample_db).1
  = Response 500 (error_body "database is locked")
  /\ 500 ∈ spec_codes (ETransfer sample_request).
Proof.
  assert (Hr : (run_sched [None; None; None; Some "database is locked"]
                 (handler (ETransfer sample_request)) sample_db).1
               = Response 500 (error_body "database is locked")) by (vm_compute; reflexivity).
  split; [exact Hr|]. exact (handlers_answer_spec_codes _ _ _ _ _ Hr).
Defined.
