(* ===== verification/Schema.v ===== *)
(** * The shapes of the response bodies (specification, sections 6 and 7)

    The table of section 6 gives the body of each endpoint's success
    ("list of warehouse summaries", [{warehouse_name, products:[...]}],
    "receipt record with [items]", "created order record",
    [{status:"success", message, transfers:[...]}]); section 7 says that
    every error response is a JSON object with an [error] key and, where
    useful, the supplementary fields [available], [requested], [required].

    [jty] is a small type system for JSON values: [has_type] decides
    whether a value has a type, [TObj] fixes the keys of an object in the
    order the handler's dict literal writes them, [TObjWith] asks only for
    one key.  [response_types e c] lists the body types of endpoint [e]
    for status code [c]; [Schema.handler_responses_typed] shows that every
    response of every handler, under any schedule of store faults, has
    one of them. *)

From S2P Require Import Prelude Json JsonCodec Capacity Store Gateway Transfer Admin Receipt Server.

#[local] Set Warnings "-register-all".

Local Open Scope string_scope.
Local Open Scope Z_scope.

(** ** Types of JSON values *)

Inductive jty : Type :=
| TAny
| TNull
| TInt
| TStr
(** a value of the type or [null] *)
| TNullable (t : jty)
| TArr (t : jty)
(** an object with exactly these keys, in this order *)
| TObj (fields : list (string * jty))
(** an object whose key [k] holds a value of type [t] *)
| TObjWith (k : string) (t : jty).

Fixpoint has_type (t : jty) (v : json) : bool :=
  match t, v with
  | TAny, _ => true
  | TNull, JNull => true
  | TInt, JInt _ => true
  | TStr, JStr _ => true
  | TNullable _, JNull => true
  | TNullable t', _ => has_type t' v
  | TArr t', JArr l => forallb (has_type t') l
  | TObj fs, JObj kvs =>
      (fix fields (fs : list (string * jty)) (kvs : list (string * json)) : bool :=
         match fs, kvs with
         | [], [] => true
         | (k, t') :: fs', (k', x) :: kvs' => String.eqb k k' && has_type t' x && fields fs' kvs'
         | _, _ => false
         end) fs kvs
  | TObjWith k t', JObj kvs => from_option (has_type t') false (jget k kvs)
  | _, _ => false
  end.

(** ** The bodies of the specification *)

Definition error_ty : jty := TObj [("error", TStr)].
Definition missing_fields_ty : jty := TObj [("error", TStr); ("required", TArr TStr)].
Definition insufficient_ty : jty := TObj [("error", TStr); ("available", TInt); ("requested", TInt)].

Definition home_ty : jty := TArr (TObj [("id", TInt); ("warehouse_name", TStr)]).
Definition listing_ty : jty :=
  TObj [("product_id", TInt); ("product_name", TStr); ("quantity", TInt); ("status", TStr);
        ("max_capacity", TNullable TInt)].
Definition products_ty : jty := TObj [("warehouse_name", TStr); ("products", TArr listing_ty)].
Definition receipt_ty : jty := TObjWith "items" TAny.
Definition order_ty : jty :=
  TObj [("id", TInt); ("supplier_id", TInt); ("total_amount", TInt); ("warehouse_id", TInt)].
Definition entry_ty : jty :=
  TObj [("product_id", TInt); ("product_name", TStr); ("quantity", TInt);
        ("from_warehouse", TStr); ("to_warehouse", TStr)].
Definition transfer_ty : jty :=
  TObj [("status", TStr); ("message", TStr); ("transfers", TArr entry_ty)].

(** The body types of endpoint [e] for status code [c]: the success body
    of the table, and the error objects of section 7. *)
Definition response_types (e : endpoint) (c : Z) : list jty :=
  match e with
  | EHome => if c =? 200 then [home_ty] else [error_ty]
  | EWarehouseProducts _ => if c =? 200 then [products_ty] else [error_ty]
  | EReceiptDetail _ => if c =? 200 then [receipt_ty] else [error_ty]
  | EFillCapacity _ => if c =? 200 then [TArr listing_ty] else [error_ty]
  | ECreatePurchaseOrder _ _ => if c =? 201 then [order_ty] else [error_ty]
  | ETransfer _ =>
      if c =? 200 then [transfer_ty]
      else if c =? 400 then [error_ty; missing_fields_ty; insufficient_ty]
      else [error_ty]
  end.

Definition typed_response (e : endpoint) (c : Z) (b : json) : Prop :=
  existsb (fun t => has_type t b) (response_types e c) = true.

(** Section 7: an object whose first key is [error], holding a string. *)
Definition error_shaped (b : json) : bool :=
  match b with JObj (("error", JStr _) :: _) => true | _ => false end.

(** ** Lemmas *)

Create HintDb schema.

Lemma has_type_obj_cons k t fs x kvs :
  has_type (TObj ((k, t) :: fs)) (JObj ((k, x) :: kvs)) = has_type t x && has_type (TObj fs) (JObj kvs).
Proof. cbn [has_type]. by rewrite String.eqb_refl. Qed.

Lemma has_type_fmap {A} t (f : A -> json) l :
  (forall x, has_type t (f x) = true) -> has_type (TArr t) (JArr (f <$> l)) = true.
Proof. intros Hf. cbn [has_type]. apply forallb_forall. intros y (x & -> & _)%list_elem_of_In%list_elem_of_fmap. apply Hf. Qed.

Lemma error_body_typed msg : has_type error_ty (error_body msg) = true.
Proof. reflexivity. Qed.

Lemma listing_typed l : has_type listing_ty (listing_json l) = true.
Proof. by destruct l as [? ? ? ? []]. Qed.

Lemma home_typed r : has_type (TObj [("id", TInt); ("warehouse_name", TStr)]) (home_json r) = true.
Proof. reflexivity. Qed.

Lemma entry_typed e : has_type entry_ty (entry_json e) = true.
Proof. reflexivity. Qed.

Lemma order_typed r : has_type order_ty (purchase_order_json r) = true.
Proof. reflexivity. Qed.

#[export] Hint Resolve error_body_typed listing_typed home_typed entry_typed order_typed : schema.

Lemma products_typed name ps :
  has_type products_ty (JObj [("warehouse_name", JStr name); ("products", JArr (listing_json <$> ps))]) = true.
Proof. unfold products_ty. rewrite !has_type_obj_cons, has_type_fmap; auto with schema. Qed.

Lemma transfer_success_typed acc :
  has_type transfer_ty (JObj [("status", JStr "success"); ("message", JStr "Products transferred successfully");
                              ("transfers", JArr (entry_json <$> acc))]) = true.
Proof. unfold transfer_ty. rewrite !has_type_obj_cons, has_type_fmap; auto with schema. Qed.

(** [d[k] = v] leaves a binding of [k] in the dict. *)
Lemma jget_fold_is_Some k kvs (acc : option json) :
  is_Some acc \/ k ∈ kvs.*1 -> is_Some (fold_left (fun acc kv => if String.eqb kv.1 k then Some kv.2 else acc) kvs acc).
Proof.
  revert acc. induction kvs as [|[k' v'] kvs IH]; intros acc Hk; cbn [fold_left fst snd].
  - destruct Hk as [Hk|Hk]; [done|]. by apply not_elem_of_nil in Hk.
  - apply IH. destruct (String.eqb_spec k' k) as [->|Hne]; [by left|].
    destruct Hk as [Hk|Hk]; [by left|]. right. rewrite fmap_cons in Hk. apply elem_of_cons in Hk.
    destruct Hk as [->|Hk]; [done|exact Hk].
Qed.

Lemma py_dict_set_key k v kvs : k ∈ (py_dict_set k v kvs).*1.
Proof.
  induction kvs as [|[k' v'] kvs IH]; cbn [py_dict_set]; [by left|].
  destruct (String.eqb_spec k' k) as [->|]; rewrite fmap_cons; [by left | by right].
Qed.

Lemma receipt_typed items kvs : has_type receipt_ty (JObj (py_dict_set "items" items kvs)) = true.
Proof.
  cbn [has_type receipt_ty]. unfold jget.
  destruct (jget_fold_is_Some "items" (py_dict_set "items" items kvs) None) as [x ->];
    [right; apply py_dict_set_key | done].
Qed.

#[export] Hint Resolve products_typed transfer_success_typed receipt_typed : schema.
#[export] Hint Extern 1 (has_type _ (JArr (_ <$> _)) = true) => apply has_type_fmap : schema.

Lemma typed_response_intro e c b t :
  t ∈ response_types e c -> has_type t b = true -> typed_response e c b.
Proof. intros Ht Hb. apply existsb_exists. exists t. split; [by apply list_elem_of_In | exact Hb]. Qed.

(** [typed_by t] proves that a written-out body has the type [t] of the
    table. *)
Ltac typed_by t :=
  apply (typed_response_intro _ _ _ t); [apply list_elem_of_In; cbn; tauto | auto with schema].

Lemma has_type_error_head fs b : has_type (TObj (("error", TStr) :: fs)) b = true -> error_shaped b = true.
Proof.
  intros Hb. destruct b as [| | | | | |[|[k v] kvs]]; try discriminate.
  cbn [has_type] in Hb. apply andb_true_iff in Hb as [[Hk%String.eqb_eq Hv]%andb_true_iff _]. subst k.
  by destruct v.
Qed.

Lemma error_types_shaped e c b : c <> 200 -> c <> 201 -> typed_response e c b -> error_shaped b = true.
Proof.
  intros H200 H201 (t & Ht & Hb)%existsb_exists.
  assert (exists fs, t = TObj (("error", TStr) :: fs)) as [fs ->].
  { destruct e; unfold response_types in Ht;
      rewrite ?(proj2 (Z.eqb_neq _ _) H200), ?(proj2 (Z.eqb_neq _ _) H201) in Ht;
      try case_match; cbn in Ht; intuition subst; eexists; reflexivity. }
  exact (has_type_error_head _ _ Hb).
Qed.

(** Every response of every handler has a type of the table. *)
Lemma responds_typed e : responds (typed_response e) (handler e).
Proof.
  destruct e; cbn [handler];
    unfold warehouse_home_display, warehouse_products, product_receipt_detail,
      create_purchase_order, warehouse_fill_capacity, product_transfer; responds_solve.
  - typed_by home_ty.
  - typed_by products_ty.
  - typed_by receipt_ty.
  - typed_by (TArr listing_ty).
  - apply responds_transfer_loop; intros; cbn [answers].
    + typed_by transfer_ty.
    + typed_by error_ty.
    + typed_by error_ty.
    + typed_by insufficient_ty.
    + typed_by error_ty.
Qed.

(** ** The theorem *)

(** Move 30 units of product 7 from warehouse 1, which holds 20. *)
Definition oversized_request : transfer_request :=
  mk_request (Some 1) (Some 2) (Some [mk_item (Some 7) (Some 30)]).

(** C35: the responses are typed.  Under any schedule of store faults,
    every response of every handler has a body of a type the table of the
    specification gives for its endpoint and status code (section 6):
    the warehouse summaries, the listing, the receipt with its [items],
    the order record, the transfer report with its entries.  Every error
    response (a code of 400 or more) is an object whose first key is
    [error], holding a string (section 7). *)
Theorem handler_responses_typed e sched s c b :
  (run_sched sched (handler e) s).1 = Response c b ->
  typed_response e c b /\ (400 <= c -> error_shaped b = true).
Proof.
  intros Hr. pose proof (responds_run_sched _ _ (responds_typed e) sched s) as H.
  rewrite Hr in H. split; [exact H|]. intros Hc. apply (error_types_shaped e c); [lia|lia|exact H].
Qed.

Lemma handler_responses_typed_witness :
  (run_sched [] (handler (ETransfer oversized_request)) sample_db).1
  = Response 400 (JObj [("error", JStr "Insufficient inventory for product 7");
                        ("available", JInt 20); ("requested", JInt 30)])
  /\ typed_response (ETransfer oversized_request) 400
       (JObj [("error", JStr "Insufficient inventory for product 7");
              ("available", JInt 20); ("requested", JInt 30)])
  /\ error_shaped (JObj [("error", JStr "Insufficient inventory for product 7");
                         ("available", JInt 20); ("requested", JInt 30)]) = true.
Proof.
  assert (Hr : (run_sched [] (handler (ETransfer oversized_request)) sample_db).1
               = Response 400 (JObj [("error", JStr "Insufficient inventory for product 7");
                                     ("available", JInt 20); ("requested", JInt 30)]))
    by (vm_compute; reflexivity).
  destruct (handler_responses_typed _ _ _ _ _ Hr) as [Ht He].
  split; [exact Hr|]. split; [exact Ht | apply He; lia].
Defined.
