(* ===== verification/Bounds.v ===== *)
(** * Quantities within SQLite's 64-bit integers

    The store keeps quantities as unbounded integers.  SQLite computes
    [quantity - ?] (the [UPDATE] of lines 160-164) and [quantity + ?] (the
    upsert of lines 167-173) on 64-bit integers, and an overflowing sum
    would turn into a REAL.  Here the model's arithmetic is shown exact:
    in any sequential history from a store with non-negative quantities
    and a stock of every product within 64 bits, every item of every
    transfer computes both values within 64 bits.  A quantity is at most
    the stock of its product over the warehouses of the request, the stock
    is conserved by every request ([Server.serve_stock]) and by every item
    ([Server.transfer_step_sum]), and quantities stay non-negative. *)

From S2P Require Import Prelude Json Capacity Store Gateway Transfer TransferSpec TransferProps Server.

Local Open Scope Z_scope.

(** The stock of every product fits in a 64-bit integer. *)
Definition stock_fits (s : db) : Prop := forall p, stock s p <= INT64_MAX.

Lemma history_nonneg_stock s0 s :
  star server_step s0 s -> nonneg s0 -> nonneg s /\ forall p, stock s p = stock s0 p.
Proof.
  intros Hst Hn. split.
  - eapply star_invariant; [| exact Hst | exact Hn]. intros a b Ha Hab. destruct Hab. by apply serve_nonneg.
  - intros p. eapply (star_invariant _ (fun x => stock x p = stock s0 p)); [| exact Hst | done].
    intros a b Ha Hab. destruct Hab. by rewrite serve_stock.
Qed.

(** The quantities of a row over the warehouses [K] of a request, along
    its items: non-negative, with the sum of the store it started from. *)
Lemma items_sum src dst K s sa p :
  src <> dst -> NoDup K -> src ∈ K -> dst ∈ K -> nonneg s -> star (transfer_step src dst) s sa ->
  nonneg sa /\ sum_with (fun w => qty sa w p) K = sum_with (fun w => qty s w p) K.
Proof.
  intros Hne Hnd Hs Hd Hn Hst. split.
  - eapply star_invariant; [| exact Hst | exact Hn]. intros a b Ha Hab. exact (transfer_step_nonneg src dst Hne a b Ha Hab).
  - eapply (star_invariant _ (fun x => sum_with (fun w => qty x w p) K = _)); [| exact Hst | done].
    intros a b Ha Hab. rewrite <- Ha. by apply (transfer_step_sum src dst).
Qed.

Lemma qty_le_sum s K w p : nonneg s -> w ∈ K -> qty s w p <= sum_with (fun w => qty s w p) K.
Proof. intros Hn Hw. apply (sum_with_elem_le (fun w => qty s w p)); [intros; apply Hn | exact Hw]. Qed.

(** C40: the quantity statements never overflow.  In any sequential
    history from a store whose quantities are non-negative and whose stock
    of every product fits in 64 bits, a transfer between two existing
    warehouses computes, at every item that moves [qn] units, the source's
    [quantity - qn] and the destination's [quantity + qn] within 64 bits:
    SQLite's integer arithmetic is the model's. *)
Theorem transfer_arithmetic_int64 s0 s src dst ws wd sa sb pid qn :
  nonneg s0 -> stock_fits s0 -> star server_step s0 s ->
  src <> dst -> Warehouse s !! src = Some ws -> Warehouse s !! dst = Some wd ->
  star (transfer_step src dst) s sa -> moves src dst sa sb pid qn ->
  in_int64 (qty sa src pid - qn) = true /\ in_int64 (qty sa dst pid + qn) = true.
Proof.
  intros Hn0 Hfit Hhist Hne Hws Hwd Hsa Hm.
  destruct (history_nonneg_stock s0 s Hhist Hn0) as [Hn Hstock].
  set (K := (map_to_list (Warehouse s)).*1).
  assert (HK : forall w x, Warehouse s !! w = Some x -> w ∈ K).
  { intros w x Hx. apply list_elem_of_fmap. exists (w, x). split; [done|]. by apply elem_of_map_to_list. }
  assert (Hnd : NoDup K) by apply NoDup_fst_map_to_list.
  assert (Hsb : star (transfer_step src dst) s sb)
    by (eapply star_trans; [exact Hsa | apply star_one; right; eauto]).
  destruct (items_sum src dst K s sa pid Hne Hnd (HK _ _ Hws) (HK _ _ Hwd) Hn Hsa) as [Hna Hsuma].
  destruct (items_sum src dst K s sb pid Hne Hnd (HK _ _ Hws) (HK _ _ Hwd) Hn Hsb) as [Hnb Hsumb].
  pose proof (qty_le_sum sa K src pid Hna (HK _ _ Hws)) as Hle_src.
  pose proof (qty_le_sum sb K dst pid Hnb (HK _ _ Hwd)) as Hle_dst.
  assert (Hs : sum_with (fun w => qty s w pid) K <= INT64_MAX)
    by (pose proof (Hfit pid) as H; rewrite <- Hstock in H; exact H).
  destruct Hm as [Hq Hmv]. specialize (Hmv dst pid). unfold δ in Hmv.
  rewrite decide_True, decide_False in Hmv by congruence.
  specialize (Hna dst pid). unfold in_int64, INT64_MIN, INT64_MAX in *. split; zbool_lia.
Qed.


Lemma sample_db_qty_le p w : qty sample_db w p <= 20.
Proof.
  unfold qty, sample_db. cbn [Inventory].
  destruct (decide ((w, p) = (1, 7))) as [[= -> ->]|Hne];
    [rewrite lookup_insert_eq; cbn; lia | rewrite lookup_insert_ne, lookup_empty by congruence; cbn; lia].
Qed.

Lemma sample_db_stock_fits : stock_fits sample_db.
Proof.
  intros p. unfold stock. pose proof (sample_db_qty_le p 1). pose proof (sample_db_qty_le p 2).
  assert (Hk : (map_to_list (Warehouse sample_db)).*1 = [1; 2] \/ (map_to_list (Warehouse sample_db)).*1 = [2; 1])
    by (vm_compute; auto).
  destruct Hk as [-> | ->]; cbn [sum_with fold_right]; unfold INT64_MAX; lia.
Qed.

Lemma transfer_arithmetic_int64_witness :
  in_int64 (qty sample_db 1 7 - 10) = true /\ in_int64 (qty sample_db 2 7 + 10) = true.
Proof.
  refine (transfer_arithmetic_int64 sample_db sample_db 1 2 (mk_warehouse "A") (mk_warehouse "B")
           sample_db (move_stock 1 2 7 10 sample_db) 7 10 sample_db_nonneg sample_db_stock_fits
           (star_refl _ _) _ _ _ (star_refl _ _) _).
  - lia.
  - reflexivity.
  - reflexivity.
  - split; [change (qty sample_db 1 7) with 20; lia|].
    intros w p. apply (qty_move_stock sample_db 1 2 7 10 (mk_inventory 20 LOW_CAPACITY)); [lia|reflexivity].
Defined.
