(* ===== verification/Interleave.v ===== *)
(** * Concurrent requests, interleaved statement by statement

    Flask serves requests independently and [execute_query] commits each
    statement on its own, so two handlers in flight interleave at the
    granularity of statements (specification, section 5).  A configuration
    is the list of handlers in flight with the store; [step] runs the next
    statement of one of them.  [interleave] is an executable scheduler: it
    follows a list of thread indices, and every configuration it produces
    is reachable by [step].

    The transfer reads the source quantity, checks it against the request,
    and only then subtracts: two transfers that both read before either
    writes both pass the check, and the source goes negative, which no
    sequential execution can do ([TransferProps.transfer_preserves_nonneg]).
    The status of a row is computed from one read and written by a later
    statement: an interleaving can leave it stale after every handler has
    answered.  Every interleaving ends, and it stops only when every
    handler has answered. *)

From S2P Require Import Prelude Json Capacity Store Gateway Transfer TransferSpec TransferProps TransferStatus Server.

Local Open Scope Z_scope.

Definition config : Type := list prog * db.

Inductive step : config -> config -> Prop :=
| step_call i A (q : query A) k h ts s :
    ts !! i = Some (Call q k h) -> params_ok q = true ->
    step (ts, s) (<[i := k (exec q s).1]> ts, (exec q s).2)
| step_overflow i A (q : query A) k h ts s :
    ts !! i = Some (Call q k h) -> params_ok q = false ->
    step (ts, s) (<[i := Ret (Uncaught OverflowError)]> ts, s).

(** The configuration after thread [i] runs its next statement, if it has
    one. *)
Definition step_thread (i : nat) (c : config) : config :=
  match c.1 !! i with
  | Some (Call q k h) =>
      if params_ok q then (<[i := k (exec q c.2).1]> c.1, (exec q c.2).2)
      else (<[i := Ret (Uncaught OverflowError)]> c.1, c.2)
  | _ => c
  end.

Fixpoint interleave (sched : list nat) (c : config) : config :=
  match sched with
  | [] => c
  | i :: rest => interleave rest (step_thread i c)
  end.

(** ** The race *)

(** Move 15 units of product 7 from warehouse 1 to warehouse 2. *)
Definition race_request : transfer_request :=
  mk_request (Some 1) (Some 2) (Some [mk_item (Some 7) (Some 15)]).

Definition race_entry : transfer_entry := mk_entry 7 "P" 15 "A" "B".

(** Both handlers read the source row (20 units) before either subtracts. *)
Definition race_schedule : list nat := ([0; 0; 1; 1] ++ repeat 0 6 ++ repeat 1 6)%nat.

(** ** A stale status *)

(** Warehouse 1 holds 100 units of product 7 ([GOOD_CAPACITY]); both
    warehouses have capacity 100 and threshold 50 for it. *)
Definition busy_db : db :=
  {| Warehouse := Warehouse sample_db; Product := Product sample_db;
     Supplier := Supplier sample_db;
     Inventory := <[(1, 7) := mk_inventory 100 GOOD_CAPACITY]> ∅;
     WarehouseCapacity := WarehouseCapacity sample_db;
     PurchaseOrder := ∅; ProductReceipt := ∅ |}.

(** Move 30 units of product 7 from warehouse 1 to warehouse 2. *)
Definition stale_request : transfer_request :=
  mk_request (Some 1) (Some 2) (Some [mk_item (Some 7) (Some 30)]).

(** The first handler runs up to its read of the destination row (30
    units), the second runs to its end (60 units, [GOOD_CAPACITY]), then
    the first writes the status it computed from 30 units. *)
Definition stale_schedule : list nat := (repeat 0 7 ++ repeat 1 8 ++ [0])%nat.

(** ** Termination order

    A statement replaces its thread by the continuation on its rows, or by
    the [OverflowError] answer: a strictly smaller program either way, as
    the program trees of the handlers are finite. *)
Definition prog_lt (p' p : prog) : Prop :=
  match p with
  | Ret _ => False
  | Call q k h => (exists a, p' = k a) \/ (exists o, p' = Ret o)
  end.

(** One thread of the list made smaller, the others unchanged. *)
Definition threads_lt (ts' ts : list prog) : Prop :=
  exists i p p', ts !! i = Some p /\ prog_lt p' p /\ ts' = <[i := p']> ts.

(** A handler that has answered. *)
Definition returned (p : prog) : bool :=
  match p with Ret _ => true | Call _ _ _ => false end.

(** ** Lemmas *)

Lemma step_thread_star i c : star step c (step_thread i c).
Proof.
  destruct c as [ts s]. unfold step_thread. cbn [fst snd].
  destruct (ts !! i) as [[o|A q k h]|] eqn:Hi; try apply star_refl.
  destruct (params_ok q) eqn:Hp; apply star_one; econstructor; eauto.
Qed.

Lemma interleave_star sched c : star step c (interleave sched c).
Proof.
  revert c. induction sched as [|i rest IH]; intros c; [apply star_refl|].
  eapply star_trans; [apply step_thread_star | apply IH].
Qed.

(** A step is the move of one thread. *)
Lemma step_is_step_thread c c' : step c c' -> exists i, step_thread i c = c'.
Proof.
  destruct 1 as [i A q k h ts s Hi Hq|i A q k h ts s Hi Hq]; exists i;
    unfold step_thread; cbn [fst snd]; by rewrite Hi, Hq.
Qed.

(** A thread run alone to its end: the steps of the sequential run. *)
Lemma thread_runs p : forall ts i s, ts !! i = Some p ->
  star step (ts, s) (<[i := Ret (run p s).1]> ts, (run p s).2).
Proof.
  induction p as [o|A q k IHk h IHh]; intros ts i s Hi.
  - cbn. rewrite list_insert_id by done. apply star_refl.
  - cbn [run]. destruct (params_ok q) eqn:Hp.
    + eapply star_step; [by eapply step_call|].
      destruct (exec q s) as [a s'] eqn:E. cbn [fst snd].
      rewrite <- (list_insert_insert_eq ts i (Ret (run (k a) s').1) (k a)).
      apply IHk. apply list_lookup_insert_eq. by eapply lookup_lt_Some.
    + apply star_one. by eapply step_overflow.
Qed.

Lemma prog_lt_wf : well_founded prog_lt.
Proof.
  intros p. induction p as [o|A q k IHk h IHh]; constructor; intros p' Hlt; [done|].
  destruct Hlt as [[a ->]|[o ->]]; [apply IHk|]. constructor. by intros ? ?.
Qed.

Lemma threads_lt_cons p : Acc prog_lt p -> forall ts, Acc threads_lt ts -> Acc threads_lt (p :: ts).
Proof.
  induction 1 as [p _ IHp]. induction 1 as [ts Hts IHts].
  constructor. intros ts' (i & q & q' & Hi & Hlt & ->).
  destruct i as [|j]; cbn in Hi |- *.
  - simplify_eq. apply IHp; [done|]. by constructor.
  - apply IHts. by exists j, q, q'.
Qed.

Lemma threads_lt_wf : well_founded threads_lt.
Proof.
  intros ts. induction ts as [|p ts IH].
  - constructor. by intros ? (i & ? & ? & ? & _).
  - apply threads_lt_cons; [apply prog_lt_wf | exact IH].
Qed.

Lemma step_threads_lt c c' : step c c' -> threads_lt c'.1 c.1.
Proof.
  destruct 1 as [i A q k h ts s Hi _|i A q k h ts s Hi _]; exists i, (Call q k h); cbn; eauto 10.
Qed.

Lemma step_acc c : Acc (fun c' c => step c c') c.
Proof.
  destruct c as [ts s]. revert s. induction (threads_lt_wf ts) as [ts _ IH]. intros s.
  constructor. intros [ts' s'] Hst. apply IH. exact (step_threads_lt _ _ Hst).
Qed.

(** A thread that has not answered can always run its next statement. *)
Lemma step_enabled ts s i p : ts !! i = Some p -> returned p = false -> exists c', step (ts, s) c'.
Proof.
  intros Hi Hp. destruct p as [o|A q k h]; [done|].
  destruct (params_ok q) eqn:Hq; eexists; [by eapply step_call | by eapply step_overflow].
Qed.

(** The first statement of a transfer between two distinct warehouses. *)
Lemma product_transfer_call src dst items :
  src <> dst ->
  product_transfer (full_request src dst items)
  = call_unguarded (SelectWarehousesIn src dst)
      (fun warehouses => if negb (length warehouses =? 2)%nat then Ret warehouses_missing
                         else transfer_loop src dst warehouses items []).
Proof. intros Hne. unfold product_transfer, full_request. cbn. by rewrite (proj2 (Z.eqb_neq _ _) Hne). Qed.

(** The read of the source row, first statement of an item. *)
Lemma transfer_loop_item_call src dst names pid qn rest acc :
  0 < qn ->
  transfer_loop src dst names (mk_item (Some pid) (Some qn) :: rest) acc
  = Call (SelectSourceInventory src pid)
      (fun rows => transfer_checked src dst names pid qn rows
                     (fun e => transfer_loop src dst names rest (acc ++ [e])))
      store_error.
Proof. intros Hq. cbn. by rewrite (proj2 (Z.leb_gt _ _)) by lia. Qed.

Section Race.
Context (s : db) (src dst pid : Z) (ws wd : warehouse_row) (r : inventory_row) (pr : product_row).
Hypotheses (Hne : src <> dst) (Hsrc : in_int64 src = true) (Hdst : in_int64 dst = true)
  (Hpid : in_int64 pid = true)
  (Hws : Warehouse s !! src = Some ws) (Hwd : Warehouse s !! dst = Some wd)
  (Hr : Inventory s !! (src, pid) = Some r) (Hpr : Product s !! pid = Some pr).

(** A one-item transfer of [qn] units of [pid]. *)
Definition one_transfer (qn : Z) : prog :=
  product_transfer (full_request src dst [mk_item (Some pid) (Some qn)]).

(** The transfer after its two reads on [s]: what is left is to check the
    stock read, [quantity r], and act. *)
Definition after_reads (qn : Z) : prog :=
  transfer_checked src dst (warehouses_in s src dst) pid qn [(quantity r, product_name pr)]
    (fun e => transfer_loop src dst (warehouses_in s src dst) [] ([] ++ [e])).

Lemma reads_steps qn ts i :
  0 < qn -> in_int64 qn = true -> ts !! i = Some (one_transfer qn) ->
  star step (ts, s) (<[i := after_reads qn]> ts, s).
Proof.
  intros Hq Hqn Hi. unfold one_transfer in Hi. rewrite product_transfer_call in Hi by done.
  eapply star_step; [eapply step_call; [exact Hi | solve_params]|].
  cbn [exec fst snd]. rewrite (proj2 (warehouses_in_length s src dst Hne)) by eauto.
  cbn [Nat.eqb negb]. rewrite transfer_loop_item_call by done.
  eapply star_step.
  { eapply step_call; [apply list_lookup_insert_eq; by eapply lookup_lt_Some | solve_params]. }
  cbn [exec fst snd]. rewrite Hr, Hpr, list_insert_insert_eq. apply star_refl.
Qed.
Lemma names_lookup_src :
  warehouse_names_lookup (warehouses_in s src dst) src = Some (warehouse_name ws).
Proof.
  apply warehouse_names_lookup_elem; [apply warehouses_in_NoDup|].
  apply warehouses_in_elem. eauto.
Qed.

Lemma names_lookup_dst :
  warehouse_names_lookup (warehouses_in s src dst) dst = Some (warehouse_name wd).
Proof.
  apply warehouse_names_lookup_elem; [apply warehouses_in_NoDup|].
  apply warehouses_in_elem. eauto.
Qed.

(** The rest of the transfer, run on whatever store [s'] the other
    requests have left: the stale stock [quantity r] passes the check. *)
Lemma after_reads_run qn s' :
  in_int64 qn = true -> qn <= quantity r -> caps_nonzero s' pid ->
  exists s'', restatus_all [src; dst] pid (move_stock src dst pid qn s') = Next tt s''
    /\ run (after_reads qn) s'
       = (transfer_success [mk_entry pid (product_name pr) qn (warehouse_name ws) (warehouse_name wd)], s'').
Proof.
  intros Hqn Hle Hc. unfold after_reads.
  rewrite (transfer_checked_run _ _ _ (warehouse_name ws) (warehouse_name wd))
    by auto using names_lookup_src, names_lookup_dst.
  rewrite (proj2 (Z.ltb_ge _ _)) by lia.
  destruct (restatus_all_next [src; dst] pid (move_stock src dst pid qn s')) as [s'' Hs'']; [exact Hc|].
  rewrite Hs''. by exists s''.
Qed.

(** The source row is still there after a move. *)
Lemma moved_src_row qn s' s'' :
  is_Some (Inventory s' !! (src, pid)) ->
  restatus_all [src; dst] pid (move_stock src dst pid qn s') = Next tt s'' ->
  exists r', Inventory s'' !! (src, pid) = Some r'.
Proof.
  intros Hs Hn. apply (f_equal sr_db) in Hn. cbn [sr_db] in Hn.
  assert (H : is_Some (Inventory (sr_db (restatus_all [src; dst] pid (move_stock src dst pid qn s')))
                         !! (src, pid))).
  { apply restatus_all_keys. unfold move_stock. cbn.
    rewrite lookup_insert_ne by congruence. by apply lookup_alter_is_Some. }
  rewrite Hn in H. destruct H as [r' Hr']. eauto.
Qed.

Lemma moved_qty qn s' s'' w p :
  is_Some (Inventory s' !! (src, pid)) ->
  restatus_all [src; dst] pid (move_stock src dst pid qn s') = Next tt s'' ->
  qty s'' w p = qty s' w p + δ (dst, pid) (w, p) qn - δ (src, pid) (w, p) qn.
Proof.
  intros [r' Hr'] Hn.
  pose proof (qty_restatus_all [src; dst] pid (move_stock src dst pid qn s') w p) as Hq.
  rewrite Hn in Hq. cbn [sr_db] in Hq. rewrite Hq. by eapply qty_move_stock.
Qed.
End Race.

(** C8: check-then-act race.  Two concurrent one-item transfers of the
    same product from the same source, each of a quantity the source holds
    but together more than it holds, both read the stock before either
    subtracts: both answer 200 with their transfer, the source ends with
    [quantity r - a - b] units, a negative quantity, and the destination
    gains [a + b].  Non-negativity, an invariant of every sequential
    history ([Server.server_history_integrity]), is not an invariant of
    interleaved requests. *)
Theorem transfer_race_negative_stock s src dst pid ws wd r pr a b :
  src <> dst -> in_int64 src = true -> in_int64 dst = true -> in_int64 pid = true ->
  in_int64 a = true -> in_int64 b = true ->
  Warehouse s !! src = Some ws -> Warehouse s !! dst = Some wd ->
  Inventory s !! (src, pid) = Some r -> Product s !! pid = Some pr -> caps_nonzero s pid ->
  0 < a <= quantity r -> 0 < b <= quantity r ->
  exists c, star step ([one_transfer src dst pid a; one_transfer src dst pid b], s) c
    /\ c.1 = [Ret (transfer_success [mk_entry pid (product_name pr) a (warehouse_name ws) (warehouse_name wd)]);
              Ret (transfer_success [mk_entry pid (product_name pr) b (warehouse_name ws) (warehouse_name wd)])]
    /\ qty c.2 src pid = quantity r - a - b /\ qty c.2 dst pid = qty s dst pid + a + b.
Proof.
  intros Hne Hsrc Hdst Hpid Ha Hb Hws Hwd Hr Hpr Hc Hqa Hqb.
  destruct (after_reads_run s src dst pid ws wd r pr Hsrc Hdst Hpid Hws Hwd a s Ha ltac:(lia) Hc)
    as (s1 & Hs1 & Hrun1).
  assert (Hc1 : caps_nonzero s1 pid).
  { pose proof (restatus_all_tables [src; dst] pid (move_stock src dst pid a s)) as (_ & _ & Hw).
    rewrite Hs1 in Hw. cbn [sr_db] in Hw. unfold caps_nonzero. by rewrite Hw. }
  destruct (after_reads_run s src dst pid ws wd r pr Hsrc Hdst Hpid Hws Hwd b s1 Hb ltac:(lia) Hc1)
    as (s2 & Hs2 & Hrun2).
  assert (Hsrc1 : is_Some (Inventory s1 !! (src, pid))).
  { destruct (moved_src_row src dst pid Hne a s s1 ltac:(eauto) Hs1) as [? ->]. eauto. }
  eexists. split_and!.
  - eapply star_trans; [apply (reads_steps s src dst pid ws wd r pr Hne Hsrc Hdst Hpid Hws Hwd Hr Hpr a _ 0);
                         [lia | done | reflexivity] |].
    eapply star_trans; [apply (reads_steps s src dst pid ws wd r pr Hne Hsrc Hdst Hpid Hws Hwd Hr Hpr b _ 1);
                         [lia | done | reflexivity] |].
    cbn [list_insert].
    eapply star_trans; [apply (thread_runs (after_reads s src dst pid r pr a) _ 0); reflexivity|].
    rewrite Hrun1. cbn [list_insert fst snd].
    eapply star_trans; [apply (thread_runs (after_reads s src dst pid r pr b) _ 1); reflexivity|].
    rewrite Hrun2. apply star_refl.
  - reflexivity.
  - cbn [snd]. rewrite (moved_qty src dst pid Hne b s1 s2 src pid Hsrc1 Hs2),
      (moved_qty src dst pid Hne a s s1 src pid ltac:(eauto) Hs1).
    rewrite (qty_row s src pid r Hr). unfold δ. repeat case_decide; simplify_eq; lia.
  - cbn [snd]. rewrite (moved_qty src dst pid Hne b s1 s2 dst pid Hsrc1 Hs2),
      (moved_qty src dst pid Hne a s s1 dst pid ltac:(eauto) Hs1).
    unfold δ. repeat case_decide; simplify_eq; lia.
Qed.

Lemma transfer_race_negative_stock_witness :
  exists c, star step ([one_transfer 1 2 7 15; one_transfer 1 2 7 15], sample_db) c
    /\ c.1 = [Ret (transfer_success [race_entry]); Ret (transfer_success [race_entry])]
    /\ qty c.2 1 7 = 20 - 15 - 15 /\ qty c.2 2 7 = qty sample_db 2 7 + 15 + 15.
Proof.
  apply (transfer_race_negative_stock sample_db 1 2 7 (mk_warehouse "A") (mk_warehouse "B")
           (mk_inventory 20 LOW_CAPACITY) (mk_product "P") 15 15);
    try reflexivity; try (simpl; lia). apply sample_db_caps.
Defined.

(** Run one after the other, the same two requests keep the stock
    non-negative: the second is refused with 400 and 5 units are left. *)
Lemma transfer_race_sequential :
  let '(o1, s1) := run (product_transfer race_request) sample_db in
  let '(o2, s2) := run (product_transfer race_request) s1 in
  o1 = transfer_success [race_entry] /\ o2 = insufficient_inventory 7 5 15 /\ qty s2 1 7 = 5.
Proof. vm_compute. auto. Qed.





