(* ===== verification/InterleaveStock.v ===== *)
(** * The stock of a product under interleaved requests

    [Interleave.transfer_race_negative_stock] shows that interleaved
    transfers break the non-negativity of quantities.  They do not create
    or destroy stock: whichever statements of whichever requests interleave,
    once every handler has answered, the stock of every product over the
    warehouses is what it was.

    The argument is a ledger.  A thread in flight [owes] the stock it has
    taken from the source and not yet given to the destination (the
    quantity of an item between its [UPDATE] and its upsert, lines 160-173).
    The stock of the store plus what the threads owe is constant along
    [Interleave.step].  A thread owes its debt in every store in which the
    [fact]s it has read still hold: a warehouse or an inventory row it
    found.  No statement deletes a row, so every step of every thread
    keeps them ([extends], which also shows that the reference tables
    never change and that purchase orders are only added). *)

From S2P Require Import Prelude Json Capacity Store Gateway Transfer TransferSpec Server Interleave.

Local Open Scope prog_scope.
Local Open Scope Z_scope.

(** ** What a thread has read *)

Inductive fact : Type :=
| HasWarehouse (w : Z)
| HasRow (w p : Z).

Definition holds (s : db) (f : fact) : Prop :=
  match f with
  | HasWarehouse w => is_Some (Warehouse s !! w)
  | HasRow w p => is_Some (Inventory s !! (w, p))
  end.

(** ** The ledger

    [owes p D F d t]: thread [t] has taken [d] units of product [p] out of
    the stock and will put them back before it answers, in every
    interleaving in which the facts [F] hold.  A statement that raises
    [OverflowError] ends the thread, so it owes nothing there; otherwise
    the statement's change to the stock is taken from the debt, and the
    thread owes the rest with the facts it has read.  A store fault at a
    statement ([sqlite3.Error], [Gateway.run_sched]) sends the thread to
    its [except] branch, which answers at once: the debt of that moment is
    lost, and it is one of the losses [D] allows. *)
Fixpoint owes (p : Z) (D : Z -> Prop) (F : list fact) (d : Z) (t : prog) : Prop :=
  match t with
  | Ret _ => d = 0
  | Call q k h =>
      (params_ok q = false -> d = 0)
      /\ (forall msg, D d /\ exists o, h msg = Ret o)
      /\ forall s, Forall (holds s) F -> params_ok q = true ->
         exists F', Forall (holds (exec q s).2) F'
           /\ owes p D F' (d + stock s p - stock (exec q s).2 p) (k (exec q s).1)
  end.

(** Any debt may be lost. *)
Definition any_loss : Z -> Prop := fun _ => True.

(** A configuration with its ledger: each thread with its facts and its
    debt; the stock and the debts add up to [S0]. *)
Definition balanced (p S0 : Z) (c : config) : Prop :=
  exists l : list (list fact * Z),
    Forall2 (fun t '(F, d) => owes p any_loss F d t /\ Forall (holds c.2) F) c.1 l
    /\ stock c.2 p + sum_with snd l = S0.

(** Every handler in flight has answered. *)
Definition quiescent (c : config) : Prop := Forall (fun t => returned t = true) c.1.

(** [s'] comes after [s]: the reference tables are the same, no inventory
    row has disappeared, and every purchase order of [s] is in [s'] with
    its row. *)
Definition extends (s s' : db) : Prop :=
  Warehouse s' = Warehouse s /\ Product s' = Product s /\ Supplier s' = Supplier s
  /\ WarehouseCapacity s' = WarehouseCapacity s /\ ProductReceipt s' = ProductReceipt s
  /\ (forall k, is_Some (Inventory s !! k) -> is_Some (Inventory s' !! k))
  /\ PurchaseOrder s ⊆ PurchaseOrder s'.

(** ** Statements and the facts *)

Lemma exec_holds {A} (q : query A) s f : holds s f -> holds (exec q s).2 f.
Proof.
  destruct f as [w|w p]; destruct q; cbn; try done;
    intros H; try (by apply lookup_alter_is_Some);
    rewrite lookup_insert_is_Some'; auto.
Qed.

Lemma exec_holds_all {A} (q : query A) s F : Forall (holds s) F -> Forall (holds (exec q s).2) F.
Proof. intros H. eapply Forall_impl; [exact H|]. intros f. apply exec_holds. Qed.

Lemma exec_warehouse {A} (q : query A) s : Warehouse (exec q s).2 = Warehouse s.
Proof. by destruct q. Qed.

Lemma extends_refl s : extends s s.
Proof. by split_and!. Qed.

Lemma extends_trans s1 s2 s3 : extends s1 s2 -> extends s2 s3 -> extends s1 s3.
Proof.
  intros (?&?&?&?&?&Hi&Hp) (?&?&?&?&?&Hi'&Hp'). split_and!; try congruence; [auto|]. by etrans.
Qed.

(** Every statement: an inventory row is updated in place or inserted,
    and a purchase order is inserted under a fresh id. *)
Lemma exec_extends {A} (q : query A) s : extends s (exec q s).2.
Proof.
  destruct q; try apply extends_refl; split_and!; try done; cbn.
  - intros k Hk. by apply lookup_alter_is_Some.
  - intros k Hk. rewrite lookup_insert_is_Some'. auto.
  - intros k Hk. by apply lookup_alter_is_Some.
  - apply insert_subseteq, next_id_None.
Qed.

Lemma step_extends c c' : step c c' -> extends c.2 c'.2.
Proof. destruct 1; [apply exec_extends | apply extends_refl]. Qed.

(** ** Statements and the stock *)

(** A store that changes the quantity at one key of an existing warehouse
    by [e] changes the stock of that product by [e]. *)
Lemma stock_shift s s' w0 p0 e p :
  Warehouse s' = Warehouse s -> is_Some (Warehouse s !! w0) ->
  (forall w p, qty s' w p = qty s w p + δ (w0, p0) (w, p) e) ->
  stock s' p = stock s p + (if decide (p = p0) then e else 0).
Proof.
  intros Hw [x Hx] Hq. unfold stock. rewrite Hw.
  rewrite (sum_with_ext _ (fun w => qty s w p + δ (w0, p0) (w, p) e)) by (intros; apply Hq).
  rewrite sum_with_plus. f_equal.
  assert (Hin : w0 ∈ (map_to_list (Warehouse s)).*1).
  { apply list_elem_of_fmap. exists (w0, x). split; [done|]. by apply elem_of_map_to_list. }
  destruct (decide (p = p0)) as [->|Hp].
  - setoid_rewrite delta_same. by rewrite sum_with_point by (done || apply NoDup_fst_map_to_list).
  - setoid_rewrite delta_other; [|done..]. apply sum_with_zero.
Qed.

Lemma stock_read {A} (q : query A) s p : writes_inventory q = false -> stock (exec q s).2 p = stock s p.
Proof.
  intros Hq. pose proof (exec_catalog q s Hq) as Hc. unfold catalog in Hc.
  injection Hc as Hw _ Hi _. unfold stock, qty. by rewrite Hw, Hi.
Qed.

(** The quantities a store reads through [qty] do not see a status. *)
Lemma stock_same_qty s s' p :
  Warehouse s' = Warehouse s -> (forall w, qty s' w p = qty s w p) -> stock s' p = stock s p.
Proof. intros Hw Hq. unfold stock. rewrite Hw. apply sum_with_ext. intros w _. apply Hq. Qed.

Lemma stock_status st w pid s p : stock (exec (UpdateStatus st w pid) s).2 p = stock s p.
Proof. apply stock_same_qty; [done|]. intros w'. apply (qty_set_status s w pid st). Qed.

Lemma qty_subtract qn w pid s w' p :
  is_Some (Inventory s !! (w, pid)) ->
  qty (exec (UpdateSubtractQuantity qn w pid) s).2 w' p = qty s w' p + δ (w, pid) (w', p) (- qn).
Proof.
  intros [r Hr]. unfold qty, δ. cbn [exec snd Inventory set_Inventory].
  case_decide as Hk.
  - rewrite Hk, lookup_alter, Hr, decide_True by done. cbn. lia.
  - rewrite lookup_alter_ne by congruence. lia.
Qed.

Lemma qty_upsert qn w pid s w' p :
  qty (exec (UpsertAddQuantity w pid qn) s).2 w' p = qty s w' p + δ (w, pid) (w', p) qn.
Proof.
  unfold qty, δ. cbn [exec snd Inventory set_Inventory].
  case_decide as Hk.
  - rewrite Hk, lookup_insert_eq. destruct (Inventory s !! (w, pid)); cbn; lia.
  - rewrite lookup_insert_ne by congruence. lia.
Qed.

Lemma stock_subtract qn w pid s p :
  is_Some (Warehouse s !! w) -> is_Some (Inventory s !! (w, pid)) ->
  stock (exec (UpdateSubtractQuantity qn w pid) s).2 p
  = stock s p - (if decide (p = pid) then qn else 0).
Proof.
  intros Hw Hr. rewrite (stock_shift s _ w pid (- qn)); [|done..|by intros; apply qty_subtract].
  case_decide; lia.
Qed.

Lemma stock_upsert qn w pid s p :
  is_Some (Warehouse s !! w) ->
  stock (exec (UpsertAddQuantity w pid qn) s).2 p
  = stock s p + (if decide (p = pid) then qn else 0).
Proof. intros Hw. apply (stock_shift s _ w pid qn); [done..|by intros; apply qty_upsert]. Qed.

(** ** The debt of the handlers *)

(** An item of a transfer whose quantity for product [p] may be lost. *)
Definition item_loss (D : Z -> Prop) (p : Z) (it : product_item) : Prop :=
  forall pid qn, product_id it = Some pid -> quantity_needed it = Some qn -> 0 < qn -> pid = p -> D qn.

Section Ledger.
Context (p : Z) (D : Z -> Prop) (HD0 : D 0).

(** A statement that leaves the stock as it is: the thread owes nothing
    before or after it, and it may learn facts [G] from the rows. *)
Lemma owes_call_keep {A} (q : query A) k h F (G : A -> list fact) :
  (forall msg, exists o, h msg = Ret o) ->
  (forall s, stock (exec q s).2 p = stock s p) ->
  (forall s, Forall (holds s) F -> params_ok q = true -> Forall (holds (exec q s).2) (G (exec q s).1)) ->
  (params_ok q = true -> forall a, owes p D (G a) 0 (k a)) ->
  owes p D F 0 (Call q k h).
Proof.
  intros Hh Hs HG Hk. cbn [owes]. split_and!; [done|done|]. intros s HF Hq.
  exists (G (exec q s).1). split; [by apply HG|]. rewrite Hs, Z.add_0_l, Z.sub_diag. by apply Hk.
Qed.

Lemma owes_keeps t : keeps_catalog t -> forall F, owes p D F 0 t.
Proof.
  induction 1 as [o|A q k h Hq Hk IH Hh]; intros F; [done|].
  apply (owes_call_keep q k h F (fun _ => F)); [done | by intros; apply stock_read | | by intros].
  intros s HF _. by apply exec_holds_all.
Qed.

Lemma owes_update_statuses ws pid k F : owes p D F 0 k -> owes p D F 0 (update_statuses ws pid k).
Proof.
  intros Hk. induction ws as [|w ws IH]; [done|]. cbn [update_statuses].
  apply (owes_call_keep _ _ _ F (fun _ => F));
    [by eexists | by intros; apply stock_read | by intros; apply exec_holds_all |].
  intros _ [|[[c m] th] rows]; [done|]. destruct (new_status c m th) as [st|]; [|done].
  apply (owes_call_keep _ _ _ F (fun _ => F));
    [by eexists | intros; apply stock_status | by intros; apply exec_holds_all |].
  by intros.
Qed.

Lemma fact_in s F f : Forall (holds s) F -> f ∈ F -> holds s f.
Proof. rewrite Forall_forall. auto. Qed.

(** The item once its source row has been read: the [UPDATE] takes the
    quantity from the stock, the upsert gives it back. *)
Lemma owes_transfer_checked src dst names pid qn rows next F :
  in_int64 dst = true -> HasWarehouse src ∈ F -> HasWarehouse dst ∈ F ->
  (rows <> [] -> HasRow src pid ∈ F) -> (pid = p -> D qn) -> (forall e, owes p D F 0 (next e)) ->
  owes p D F 0 (transfer_checked src dst names pid qn rows next).
Proof.
  intros Hdst Hs Hd Hr Hq Hnext. destruct rows as [|[available pname] rows]; [done|].
  cbn [transfer_checked]. destruct (available <? qn); [done|].
  cbn [owes]. split_and!; [done | by split; [|eexists] |]. intros s HF Hq'.
  exists F. split; [by apply exec_holds_all|].
  rewrite (stock_subtract qn src pid s p (fact_in s F _ HF Hs) (fact_in s F _ HF (Hr ltac:(done)))).
  split_and!.
  - intros Hf. exfalso. cbn in Hq', Hf. rewrite Hdst in Hf.
    destruct (in_int64 qn), (in_int64 src), (in_int64 pid); cbn in *; congruence.
  - intros msg. split; [|by eexists].
    case_decide; [replace (_ + _ - _) with qn by lia; by apply Hq | by rewrite Z.add_0_l, Z.sub_0_r, Z.sub_diag].
  - intros s' HF' _. exists F. split; [by apply exec_holds_all|].
    rewrite (stock_upsert qn dst pid s' p (fact_in s' F _ HF' Hd)).
    replace (_ + _ - _ + _ - _) with 0 by (case_decide; lia).
    apply owes_update_statuses. repeat case_match; by auto.
Qed.

Lemma owes_transfer_loop src dst names items : forall acc F,
  in_int64 dst = true -> HasWarehouse src ∈ F -> HasWarehouse dst ∈ F ->
  Forall (item_loss D p) items ->
  owes p D F 0 (transfer_loop src dst names items acc).
Proof.
  induction items as [|item rest IH]; intros acc F Hdst Hs Hd Hl; [done|]. cbn [transfer_loop].
  apply Forall_cons in Hl as [Hi Hl].
  destruct (product_id item) as [pid|] eqn:Hpid; [|done].
  destruct (quantity_needed item) as [qn|] eqn:Hqn; [|done].
  destruct (qn <=? 0) eqn:Hpos; [done|]. apply Z.leb_gt in Hpos.
  apply (owes_call_keep _ _ _ F (fun rows => match rows with [] => F | _ => HasRow src pid :: F end));
    [by eexists | by intros; apply stock_read | |].
  - intros s HF _. cbn [exec fst snd].
    destruct (Inventory s !! (src, pid)) eqn:E, (Product s !! pid); try done.
    constructor; [cbn; rewrite E; eauto | done].
  - intros _ [|row rows]; apply owes_transfer_checked; try done;
      try (by intros; apply (Hi pid qn)); try (intros; apply IH); set_solver.
Qed.

Lemma owes_product_transfer req F :
  Forall (item_loss D p) (default [] (products_to_get req)) -> owes p D F 0 (product_transfer req).
Proof.
  intros Hl. unfold product_transfer.
  destruct (from_warehouse req) as [src|], (to_warehouse req) as [dst|], (products_to_get req) as [items|];
    try done.
  destruct (src =? dst) eqn:Hne; [done|]. apply Z.eqb_neq in Hne.
  apply (owes_call_keep _ _ _ F
           (fun ws => if (length ws =? 2)%nat then [HasWarehouse src; HasWarehouse dst] else []));
    [by eexists | by intros; apply stock_read | |].
  - intros s _ _. cbn [exec fst snd]. destruct (length (warehouses_in s src dst) =? 2)%nat eqn:E; [|done].
    apply Nat.eqb_eq, (warehouses_in_length s src dst Hne) in E as [Ha Hb]. by repeat constructor.
  - intros Hq ws. cbn in Hq. apply andb_prop in Hq as [_ Hq]. apply andb_prop in Hq as [Hdst _].
    destruct (length ws =? 2)%nat; [|done]. apply owes_transfer_loop; [done | set_solver.. | exact Hl].
Qed.
End Ledger.

Lemma owes_handler p e : owes p any_loss [] 0 (handler e).
Proof.
  destruct e as [| | | | |req].
  6: { apply (owes_product_transfer p any_loss I). apply Forall_forall. intros it _ ? ? _ _ _ _. exact I. }
  all: apply (owes_keeps p any_loss I), handlers_keep_catalog; by intros req.
Qed.

(** ** The ledger along an interleaving *)

Lemma balanced_step p S0 c c' : step c c' -> balanced p S0 c -> balanced p S0 c'.
Proof.
  intros Hst (l & Hl & Hsum).
  destruct Hst as [i A q k h ts s Hi Hq|i A q k h ts s Hi Hq]; cbn [fst snd] in *;
    destruct (Forall2_lookup_l _ _ _ _ _ Hl Hi) as ([F d] & Hli & Ho & HF); cbn [owes] in Ho.
  - destruct Ho as (_ & _ & Ho). destruct (Ho s HF Hq) as (F' & HF' & Ho').
    exists (<[i := (F', d + stock s p - stock (exec q s).2 p)]> l). split.
    + apply Forall2_insert; [|by split]. eapply Forall2_impl; [exact Hl|].
      intros t [G e] [HG1 HG2]. split; [done|by apply exec_holds_all].
    + rewrite (sum_with_insert _ _ _ _ _ Hli). cbn. lia.
  - exists (<[i := (F, 0)]> l). split.
    + apply Forall2_insert; [exact Hl|]. by split.
    + rewrite (sum_with_insert _ _ _ _ _ Hli). cbn. pose proof (proj1 Ho Hq). lia.
Qed.

Lemma balanced_init p es s : balanced p (stock s p) (map handler es, s).
Proof.
  exists (map (fun _ => ([], 0)) es). split; [|cbn; rewrite sum_with_Forall_zero; [lia|]].
  - induction es as [|e es IH]; constructor; [|exact IH]. split; [apply owes_handler | constructor].
  - apply Forall_fmap, Forall_true. done.
Qed.

(** A thread that has answered owes nothing. *)
Lemma balanced_quiescent p S0 c : balanced p S0 c -> quiescent c -> stock c.2 p = S0.
Proof.
  unfold quiescent.
  intros (l & Hl & Hsum) Hret. rewrite sum_with_Forall_zero in Hsum; [lia|].
  apply Forall_lookup. intros i [F d] Hli.
  destruct (Forall2_lookup_r _ _ _ _ _ Hl Hli) as (t & Hti & Ho & _).
  rewrite Forall_lookup in Hret. specialize (Hret i t Hti). by destruct t.
Qed.

(** C29: interleaved requests conserve stock.  Whichever statements of
    whichever requests in flight interleave, once every handler has
    answered, the stock of every product over the warehouses is the stock
    before the requests.  With
    [Interleave.transfer_race_negative_stock]: interleaving breaks the
    non-negativity of quantities, not the conservation of stock. *)
Theorem interleaved_requests_conserve_stock es s c p :
  star step (map handler es, s) c -> quiescent c -> stock c.2 p = stock s p.
Proof.
  intros Hst Hret. apply (balanced_quiescent p _ c); [|exact Hret].
  refine (star_invariant _ (balanced p (stock s p)) _ _ _ Hst (balanced_init p es s)).
  intros a b Ha Hab. exact (balanced_step p _ a b Hab Ha).
Qed.

Lemma interleaved_requests_conserve_stock_witness :
  quiescent (interleave race_schedule (map handler [ETransfer race_request; ETransfer race_request], sample_db))
  /\ stock (interleave race_schedule (map handler [ETransfer race_request; ETransfer race_request], sample_db)).2 7
     = stock sample_db 7.
Proof.
  assert (Hret : quiescent
    (interleave race_schedule (map handler [ETransfer race_request; ETransfer race_request], sample_db)))
    by (unfold quiescent; vm_compute; repeat constructor).
  split; [exact Hret|].
  apply (interleaved_requests_conserve_stock _ _ _ 7 (interleave_star _ _) Hret).
Defined.


