(* ===== verification/Liveness.v ===== *)
(** * Every request in flight is answered

    [Interleave] shows that no interleaving of the handlers in flight is
    infinite.  Here the liveness of the server: whichever statement of
    whichever handler runs at each step, every path from the handlers of
    a list of requests reaches a configuration where every handler has
    answered, and answered with a status code that the table of the
    specification lists for its endpoint, or with an exception that Flask
    turns into a 500.  It follows from termination ([Interleave.step_acc]),
    from progress (a handler that has not answered can always run its
    next statement, [Interleave.step_enabled]) and from the invariant that
    every handler's remaining program answers only codes of its endpoint
    ([Server.codes_in_handler]), through [Prelude.eventually_of_acc]. *)

From S2P Require Import Prelude Json Capacity Store Gateway Transfer Server Interleave.

Local Open Scope Z_scope.

(** The remaining program of each handler answers only codes of its
    endpoint. *)
Definition threads_ok (es : list endpoint) (c : config) : Prop :=
  Forall2 (fun e t => codes_in (spec_codes e) t) es c.1.

(** Every handler has answered, with a code of its endpoint. *)
Definition answered (es : list endpoint) (c : config) : Prop :=
  Forall2 (fun e t => exists o, t = Ret o /\ answers (fun c _ => c ∈ spec_codes e) o) es c.1.

Lemma threads_ok_init es s : threads_ok es (map handler es, s).
Proof. unfold threads_ok. induction es as [|e es IH]; constructor; [apply codes_in_handler | exact IH]. Qed.

(** A statement run by one handler leaves the rest of its program, which
    answers no other codes. *)
Lemma threads_ok_step es c c' : threads_ok es c -> step c c' -> threads_ok es c'.
Proof.
  unfold threads_ok. intros Hok Hst.
  destruct Hst as [i A q k h ts s Hi _|i A q k h ts s Hi _]; cbn [fst] in *;
    destruct (Forall2_lookup_r _ _ _ _ _ Hok Hi) as (e & He & [Hk _]);
    rewrite <- (list_insert_id es i e He); apply Forall2_insert; [done|apply Hk|done|done].
Qed.

Lemma threads_ok_progress es c : threads_ok es c -> answered es c \/ exists c', step c c'.
Proof.
  destruct c as [ts s]. unfold threads_ok, answered. cbn [fst]. intros Hok.
  destruct (decide (Forall (fun t => returned t = true) ts)) as [Hr|Hr].
  - left. induction Hok as [|e t es ts Ht Hok IH]; [constructor|].
    apply Forall_cons in Hr as [Ht' Hr]. constructor; [|by apply IH].
    destruct t as [o|]; [|done]. by exists o.
  - right. apply not_Forall_Exists in Hr; [|apply _].
    apply Exists_exists in Hr as (t & Hin & Ht). apply list_elem_of_lookup in Hin as [i Hi].
    apply (step_enabled ts s i t Hi). apply not_true_is_false. exact Ht.
Qed.

