(* ===== verification/Faults.v ===== *)
(** * Store faults in the middle of a transfer

    Each statement of [product_transfer] is committed by its own call of
    [execute_query]; nothing groups the statements of one item into a
    transaction (specification, section 5).  Under the fault semantics
    [run_sched], a store error raised by the destination upsert, after the
    source row has been decremented, is caught by the handler's [except
    sqlite3.Error] branch and answered with a 500, but the decrement stays:
    the units leave the source and never reach the destination.  That is
    the worst a fault does: with the ledger of [InterleaveStock] (a fault
    writes off the debt of its thread), the stock a transfer loses under
    any fault schedule is nothing or the quantity of one item. *)

From S2P Require Import Prelude Json Capacity Store Gateway Transfer TransferSpec TransferProps Server InterleaveStock.

Local Open Scope Z_scope.

(** The fault schedule under which the calls before the [n]-th succeed
    and the [n]-th (counting from 0) raises [sqlite3.Error(msg)]. *)
Definition fault_at (n : nat) (msg : string) : list (option string) :=
  repeat None n ++ [Some msg].

(** The units of product [p] a transfer takes out of the stock over the
    warehouses when it runs under the fault schedule [sched]. *)
Definition transfer_loss (sched : list (option string)) (req : transfer_request) (s : db) (p : Z) : Z :=
  stock s p - stock (run_sched sched (product_transfer req) s).2 p.

(** The source row after the decrement of line 160. *)
Lemma qty_after_subtract s src dst pid qn r :
  src <> dst -> Inventory s !! (src, pid) = Some r ->
  qty (exec (UpdateSubtractQuantity qn src pid) s).2 src pid = quantity r - qn
  /\ qty (exec (UpdateSubtractQuantity qn src pid) s).2 dst pid = qty s dst pid.
Proof.
  intros Hne Hr. unfold qty. cbn [exec snd Inventory set_Inventory].
  rewrite lookup_alter_eq, Hr, lookup_alter_ne by congruence. done.
Qed.

(** Under any fault schedule, a thread that owes [d] ends having lost a
    debt that [D] allows: what it owed when the fault came. *)
Lemma owes_run_sched p D (HD0 : D 0) t : forall F d sched s,
  owes p D F d t -> Forall (holds s) F -> D (stock s p + d - stock (run_sched sched t s).2 p).
Proof.
  induction t as [o|A q k IH h IHh]; intros F d sched s Ho HF; cbn [owes] in Ho.
  - subst d. cbn. by rewrite Z.add_0_r, Z.sub_diag.
  - destruct Ho as (Hov & Hh & Hk). cbn [run_sched]. destruct (params_ok q) eqn:Hq.
    2: { cbn. rewrite (Hov eq_refl). by rewrite Z.add_0_r, Z.sub_diag. }
    destruct (Hk s HF eq_refl) as (F' & HF' & Ho').
    pose proof (IH (exec q s).1 F' _ (tail sched) (exec q s).2 Ho' HF') as HIH.
    destruct sched as [|[msg|] rest].
    2: { destruct (Hh msg) as [HD [o ->]]. cbn. by replace (stock s p + d - stock s p) with d by lia. }
    all: destruct (exec q s) as [a s1]; cbn in HIH |- *; refine (eq_ind _ D HIH _ _); lia.
Qed.

(** C9: a store fault between the two quantity statements loses stock.
    When the fourth statement of a one-item transfer (the destination
    upsert) raises [sqlite3.Error(msg)], the handler answers 500 with
    [msg], the source keeps [available - qn] units and the destination
    keeps its old quantity: [qn] units have vanished from the two
    warehouses. *)
Theorem transfer_fault_loses_stock src dst pid qn msg s ws wd r pr :
  src <> dst -> in_int64 src = true -> in_int64 dst = true ->
  in_int64 pid = true -> in_int64 qn = true ->
  Warehouse s !! src = Some ws -> Warehouse s !! dst = Some wd ->
  Inventory s !! (src, pid) = Some r -> Product s !! pid = Some pr ->
  0 < qn <= quantity r ->
  exists s',
    run_sched (fault_at 3 msg)
      (product_transfer (mk_request (Some src) (Some dst) (Some [mk_item (Some pid) (Some qn)]))) s
    = (Response 500 (error_body msg), s')
    /\ qty s' src pid = quantity r - qn /\ qty s' dst pid = qty s dst pid
    /\ qty s' src pid + qty s' dst pid = qty s src pid + qty s dst pid - qn.
Proof.
  intros Hne Hs Hd Hp Hq Hws Hwd Hr Hpr Hqn.
  unfold fault_at, product_transfer. cbn [repeat app from_warehouse to_warehouse products_to_get].
  rewrite (proj2 (Z.eqb_neq src dst) Hne). unfold call_unguarded.
  rewrite run_sched_call_ok by solve_params. cbn [exec fst snd].
  rewrite (proj2 (warehouses_in_length s src dst Hne)) by eauto. cbn [Nat.eqb negb transfer_loop product_id quantity_needed].
  rewrite (proj2 (Z.leb_gt qn 0)) by lia.
  rewrite run_sched_call_ok by solve_params. cbn [exec fst snd]. unfold transfer_checked.
  rewrite Hr, Hpr. cbv beta iota. rewrite (proj2 (Z.ltb_ge (quantity r) qn)) by lia.
  rewrite run_sched_call_ok by solve_params. cbn [fst].
  rewrite run_sched_call_fault by solve_params. cbn [run_sched store_error].
  eexists. split; [reflexivity|].
  destruct (qty_after_subtract s src dst pid qn r Hne Hr) as [-> ->].
  rewrite (qty_row s src pid r Hr). lia.
Qed.

Lemma transfer_fault_loses_stock_witness :
  exists s',
    run_sched (fault_at 3 "database is locked") (product_transfer sample_request) sample_db
    = (Response 500 (error_body "database is locked"), s')
    /\ qty s' 1 7 = 20 - 10 /\ qty s' 2 7 = qty sample_db 2 7
    /\ qty s' 1 7 + qty s' 2 7 = qty sample_db 1 7 + qty sample_db 2 7 - 10.
Proof.
  apply (transfer_fault_loses_stock 1 2 7 10 "database is locked" sample_db (mk_warehouse "A")
           (mk_warehouse "B") (mk_inventory 20 LOW_CAPACITY) (mk_product "P"));
    try reflexivity; simpl; lia.
Defined.

(** C30: what faults can do to the stock of a transfer.  Whichever
    statements of [product_transfer] raise [sqlite3.Error], the transfer
    never creates stock, and it loses either nothing or exactly the
    quantity of one requested item of the product: the item whose units
    had left the source when the fault came.  With
    [transfer_fault_loses_stock], the bound is reached. *)
Theorem transfer_fault_loss_bounded sched req s p :
  transfer_loss sched req s p = 0
  \/ exists it qn, it ∈ default [] (products_to_get req) /\ product_id it = Some p
       /\ quantity_needed it = Some qn /\ 0 < qn /\ transfer_loss sched req s p = qn.
Proof.
  set (D := fun x => x = 0 \/ exists it, it ∈ default [] (products_to_get req)
                      /\ product_id it = Some p /\ quantity_needed it = Some x /\ 0 < x).
  assert (HD : D (stock s p + 0 - stock (run_sched sched (product_transfer req) s).2 p)).
  { apply (owes_run_sched p D (or_introl eq_refl) _ []); [|constructor].
    apply owes_product_transfer; [by left|]. apply Forall_forall.
    intros it Hit pid qn Hpid Hqn Hpos <-. right. by exists it. }
  unfold transfer_loss. rewrite Z.add_0_r in HD.
  destruct HD as [HD|(it & Hit & Hpid & Hqn & Hpos)]; [by left|].
  right. eexists it, _. split_and!; [done | done | exact Hqn | done | done].
Qed.
